(** * p5-physics: a shallow embedding of Body, DrawableBody and World

    The JavaScript sources are embedded as the imperative programs they
    are.  JS numbers are IEEE binary64 values (Rocq's primitive [float]);
    objects live in a store and are named by references; every method is
    a computation in a state-and-exception monad, written statement by
    statement after its source.  The store keeps three kinds of objects
    apart: [p5.Vector]s, bodies and worlds.  A reference is the index of
    the object in its store and [new] appends, so two references of one
    kind are the same JS object exactly when they are equal.

    Layout of the sources
    - unnamed/part_000            enums.js
    - unnamed/part_002, 1-440     Body.js, the revision with accessors
                                  ([pos()], [vel()], ...) that World.js uses
    - unnamed/part_002, 441-793   Body.js, the revision before it (public
                                  [pos], [vel], [acc] vectors)
    - unnamed/part_001            Body.js, a still earlier revision ([setPath])
    - src/World.js                World

    Layout of this file
    - the embedding: values, the store, computations, the host
      ([p5.Vector], p5.collide2D), [Body], [DrawableBody], [World], and
      the methods of the earlier revisions that the properties refer to;
    - scenarios and specifications;
    - the proofs, by subject: integration, the coefficient setters,
      polygon vertices, membership, the position accessor, edges,
      collision response, and the collision sweep of [World.update];
    - further properties of the sources, by subject: integration, the
      accessors, edges, collision response, the constructor, the
      bounding box, collision detection, the bodies of a world, and one
      step of a world. *)

From Stdlib Require Import Floats ZArith List Lia Bool.
From stdpp Require Import base option list.

Set Warnings "-inexact-float".

Open Scope float_scope.

(** ** Values *)

(** A JS object reference. *)
Abbreviation ref := nat.

(** [p5.Vector], restricted to the two components the simulation uses
    (every vector of the sources is made by [createVector(x, y)]). *)
Record Vector := createVector { x : float; y : float }.

(** enums.js *)
Module EdgeMode.
Inductive t :=
| None    (* 0: ignore edge *)
| Hold    (* 1: hold body at edge *)
| Wrap    (* 2: wrap body to other edge *)
| Bounce  (* 3: bounce body off of edge *)
| Unknown (* any other value stored in [World.edgeMode] *).
End EdgeMode.

Module DrawableBodyMode.
Inductive t :=
| Point      (* 1 *)
| Ellipse    (* 2 *)
| Rectangle  (* 3 *)
| Path       (* 4 *)
| Unknown    (* any other value passed to [setDrawMode] *).
End DrawableBodyMode.

(** A polygon vertex [[x, y]]. *)
Definition vertex : Type := float * float.

(** The fields of a [DrawableBody] (those of [Body] first).  The colour
    fields [_stroke], [_fill] and the unused [_pointMotion] belong to the
    renderer and are left out; [cbChangeVel] and [cbChangeAcc] are the
    empty function in every constructor and [cbChangePos] is the closure
    the [DrawableBody] constructor installs, see [DrawableBody.cbChangePos]. *)
Record body := mkBody {
  _id : nat;
  _pos : ref;                      (* p5.Vector *)
  _vel : ref;                      (* p5.Vector *)
  _acc : ref;                      (* p5.Vector *)
  _w : float;
  _h : float;
  _mass : float;
  _cr : float;                     (* coefficient of restitution *)
  μ : float;                       (* coefficient of friction *)
  _world : option ref;             (* World or null *)
  static : bool;
  solid : bool;
  cbOnUpdate : unit -> bool;       (* () => true *)
  cbOnApply : Vector -> Vector;    (* f => f *)
  _mode : DrawableBodyMode.t;
  _oPath : list vertex;
  _path : list vertex;
  _bb_pos : ref;                   (* _bb.pos, a p5.Vector *)
  _bb_w : float;                   (* _bb.w *)
  _bb_h : float                    (* _bb.h *)
}.

(** The fields of a [World] ([background], [borders], [areas] and [debug]
    are only read by the renderer). *)
Record world := mkWorld {
  Wx : float;                      (* this.x *)
  Wy : float;                      (* this.y *)
  Ww : float;                      (* this.w *)
  Wh : float;                      (* this.h *)
  bodies : list ref;               (* array of bodies *)
  G : option ref;                  (* gravity vector or null *)
  edgeMode : EdgeMode.t;
  doCollisions : bool;
  logWarnings : bool
}.

(** ** The store *)

(** [collided] is a ghost field: the trace of the calls of [Body.collide],
    oldest first.  [console] counts the lines written by [console.warn]
    and [console.log]. *)
Record State := mkState {
  vecs : list Vector;
  objs : list body;
  worlds : list world;
  __body_id : nat;
  console : nat;
  collided : list (ref * ref)
}.

Definition with_vecs (f : list Vector -> list Vector) (s : State) : State :=
  mkState (f (vecs s)) (objs s) (worlds s) (__body_id s) (console s) (collided s).
Definition with_objs (f : list body -> list body) (s : State) : State :=
  mkState (vecs s) (f (objs s)) (worlds s) (__body_id s) (console s) (collided s).
Definition with_worlds (f : list world -> list world) (s : State) : State :=
  mkState (vecs s) (objs s) (f (worlds s)) (__body_id s) (console s) (collided s).
Definition with_body_id (f : nat -> nat) (s : State) : State :=
  mkState (vecs s) (objs s) (worlds s) (f (__body_id s)) (console s) (collided s).
Definition with_console (f : nat -> nat) (s : State) : State :=
  mkState (vecs s) (objs s) (worlds s) (__body_id s) (f (console s)) (collided s).
Definition with_collided (f : list (ref * ref) -> list (ref * ref)) (s : State) : State :=
  mkState (vecs s) (objs s) (worlds s) (__body_id s) (console s) (f (collided s)).

(** Field updates of a body. *)
Definition set_pos (r : ref) (b : body) : body :=
  mkBody (_id b) r (_vel b) (_acc b) (_w b) (_h b) (_mass b) (_cr b) (μ b)
    (_world b) (static b) (solid b) (cbOnUpdate b) (cbOnApply b)
    (_mode b) (_oPath b) (_path b) (_bb_pos b) (_bb_w b) (_bb_h b).
Definition set_vel (r : ref) (b : body) : body :=
  mkBody (_id b) (_pos b) r (_acc b) (_w b) (_h b) (_mass b) (_cr b) (μ b)
    (_world b) (static b) (solid b) (cbOnUpdate b) (cbOnApply b)
    (_mode b) (_oPath b) (_path b) (_bb_pos b) (_bb_w b) (_bb_h b).
Definition set_acc (r : ref) (b : body) : body :=
  mkBody (_id b) (_pos b) (_vel b) r (_w b) (_h b) (_mass b) (_cr b) (μ b)
    (_world b) (static b) (solid b) (cbOnUpdate b) (cbOnApply b)
    (_mode b) (_oPath b) (_path b) (_bb_pos b) (_bb_w b) (_bb_h b).
Definition set_mass (m : float) (b : body) : body :=
  mkBody (_id b) (_pos b) (_vel b) (_acc b) (_w b) (_h b) m (_cr b) (μ b)
    (_world b) (static b) (solid b) (cbOnUpdate b) (cbOnApply b)
    (_mode b) (_oPath b) (_path b) (_bb_pos b) (_bb_w b) (_bb_h b).
Definition set_cr (e : float) (b : body) : body :=
  mkBody (_id b) (_pos b) (_vel b) (_acc b) (_w b) (_h b) (_mass b) e (μ b)
    (_world b) (static b) (solid b) (cbOnUpdate b) (cbOnApply b)
    (_mode b) (_oPath b) (_path b) (_bb_pos b) (_bb_w b) (_bb_h b).
Definition set_μ (f : float) (b : body) : body :=
  mkBody (_id b) (_pos b) (_vel b) (_acc b) (_w b) (_h b) (_mass b) (_cr b) f
    (_world b) (static b) (solid b) (cbOnUpdate b) (cbOnApply b)
    (_mode b) (_oPath b) (_path b) (_bb_pos b) (_bb_w b) (_bb_h b).
Definition set_world (W : option ref) (b : body) : body :=
  mkBody (_id b) (_pos b) (_vel b) (_acc b) (_w b) (_h b) (_mass b) (_cr b) (μ b)
    W (static b) (solid b) (cbOnUpdate b) (cbOnApply b)
    (_mode b) (_oPath b) (_path b) (_bb_pos b) (_bb_w b) (_bb_h b).
Definition set_static (v : bool) (b : body) : body :=
  mkBody (_id b) (_pos b) (_vel b) (_acc b) (_w b) (_h b) (_mass b) (_cr b) (μ b)
    (_world b) v (solid b) (cbOnUpdate b) (cbOnApply b)
    (_mode b) (_oPath b) (_path b) (_bb_pos b) (_bb_w b) (_bb_h b).
Definition set_mode (m : DrawableBodyMode.t) (b : body) : body :=
  mkBody (_id b) (_pos b) (_vel b) (_acc b) (_w b) (_h b) (_mass b) (_cr b) (μ b)
    (_world b) (static b) (solid b) (cbOnUpdate b) (cbOnApply b)
    m (_oPath b) (_path b) (_bb_pos b) (_bb_w b) (_bb_h b).
Definition set_oPath (p : list vertex) (b : body) : body :=
  mkBody (_id b) (_pos b) (_vel b) (_acc b) (_w b) (_h b) (_mass b) (_cr b) (μ b)
    (_world b) (static b) (solid b) (cbOnUpdate b) (cbOnApply b)
    (_mode b) p (_path b) (_bb_pos b) (_bb_w b) (_bb_h b).
Definition set_path (p : list vertex) (b : body) : body :=
  mkBody (_id b) (_pos b) (_vel b) (_acc b) (_w b) (_h b) (_mass b) (_cr b) (μ b)
    (_world b) (static b) (solid b) (cbOnUpdate b) (cbOnApply b)
    (_mode b) (_oPath b) p (_bb_pos b) (_bb_w b) (_bb_h b).
Definition set_bb (r : ref) (w h : float) (b : body) : body :=
  mkBody (_id b) (_pos b) (_vel b) (_acc b) (_w b) (_h b) (_mass b) (_cr b) (μ b)
    (_world b) (static b) (solid b) (cbOnUpdate b) (cbOnApply b)
    (_mode b) (_oPath b) (_path b) r w h.

Definition set_w (w : float) (b : body) : body :=
  mkBody (_id b) (_pos b) (_vel b) (_acc b) w (_h b) (_mass b) (_cr b) (μ b)
    (_world b) (static b) (solid b) (cbOnUpdate b) (cbOnApply b)
    (_mode b) (_oPath b) (_path b) (_bb_pos b) (_bb_w b) (_bb_h b).
Definition set_h (h : float) (b : body) : body :=
  mkBody (_id b) (_pos b) (_vel b) (_acc b) (_w b) h (_mass b) (_cr b) (μ b)
    (_world b) (static b) (solid b) (cbOnUpdate b) (cbOnApply b)
    (_mode b) (_oPath b) (_path b) (_bb_pos b) (_bb_w b) (_bb_h b).

Definition set_bodies (l : list ref) (W : world) : world :=
  mkWorld (Wx W) (Wy W) (Ww W) (Wh W) l (G W) (edgeMode W) (doCollisions W)
    (logWarnings W).

(** ** Computations *)

(** What a [throw] carries. *)
Inductive exn :=
| TypeError           (* a property of null or undefined is read *)
| NotPathError        (* Error("Cannot utilise method - drawing mode is not path") *)
| BoundingBoxError    (* Error("_calcBoundingBox(): Cannot create bounding box ...") *).

Inductive completion (A : Type) :=
| Normal (a : A)
| Throw (e : exn).
Arguments Normal {A} a.
Arguments Throw {A} e.

(** A JS computation: it runs on the store and completes normally or
    abruptly; the store it leaves is kept in both cases. *)
Definition M (A : Type) : Type := State -> completion A * State.

Definition ret {A} (a : A) : M A := fun s => (Normal a, s).
Definition throw {A} (e : exn) : M A := fun s => (Throw e, s).
Definition bind {A B} (m : M A) (k : A -> M B) : M B :=
  fun s =>
    match m s with
    | (Normal a, s') => k a s'
    | (Throw e, s') => (Throw e, s')
    end.

Notation "x <- m ;; k" := (bind m (fun x => k))
  (at level 100, m at next level, right associativity).
Notation "m ;; k" := (bind m (fun _ => k))
  (at level 100, right associativity).

(** [array.forEach(f)]. *)
Fixpoint forEach {A} (l : list A) (f : A -> M unit) : M unit :=
  match l with
  | [] => ret tt
  | a :: l' => f a ;; forEach l' f
  end.

(** Store primitives.  Reading through a reference that names no object
    stands for reading a property of [undefined]. *)
Definition newVector (v : Vector) : M ref :=
  fun s => (Normal (length (vecs s)), with_vecs (fun h => h ++ [v]) s).
Definition getVector (r : ref) : M Vector :=
  fun s => match vecs s !! r with
           | Some v => (Normal v, s)
           | None => (Throw TypeError, s)
           end.
Definition setVector (r : ref) (v : Vector) : M unit :=
  fun s => match vecs s !! r with
           | Some _ => (Normal tt, with_vecs (fun h => <[r := v]> h) s)
           | None => (Throw TypeError, s)
           end.

Definition getBody (r : ref) : M body :=
  fun s => match objs s !! r with
           | Some b => (Normal b, s)
           | None => (Throw TypeError, s)
           end.
Definition modBody (r : ref) (f : body -> body) : M unit :=
  fun s => match objs s !! r with
           | Some b => (Normal tt, with_objs (fun h => <[r := f b]> h) s)
           | None => (Throw TypeError, s)
           end.
Definition newBody (f : nat -> body) : M ref :=
  fun s => (Normal (length (objs s)),
            with_body_id S (with_objs (fun h => h ++ [f (__body_id s)]) s)).

Definition getWorld (r : ref) : M world :=
  fun s => match worlds s !! r with
           | Some W => (Normal W, s)
           | None => (Throw TypeError, s)
           end.
Definition modWorld (r : ref) (f : world -> world) : M unit :=
  fun s => match worlds s !! r with
           | Some W => (Normal tt, with_worlds (fun h => <[r := f W]> h) s)
           | None => (Throw TypeError, s)
           end.
Definition newWorld (W : world) : M ref :=
  fun s => (Normal (length (worlds s)), with_worlds (fun h => h ++ [W]) s).

Definition console_warn : M unit :=
  fun s => (Normal tt, with_console S s).

(** [array.map(f)] with an effectful [f]. *)
Fixpoint mapM {A B} (f : A -> M B) (l : list A) : M (list B) :=
  match l with
  | [] => ret []
  | a :: l' => b <- f a ;; bs <- mapM f l' ;; ret (b :: bs)
  end.

(** ** The host: JS globals and p5.Vector *)

Definition isNaN (v : float) : bool := is_nan v.
Definition isFinite (v : float) : bool := is_finite v.
Definition Infinity : float := infinity.

(** [v || 0] for a number [v]: the numbers that count as false are 0, -0
    and NaN, and for them the value is 0. *)
Definition or0 (v : float) : float :=
  if (v =? 0) || isNaN v then 0 else v.

(** p5.js is not part of the repository.  Its vector class is embedded
    after the library: the constructor stores [x || 0] and [y || 0];
    [copy] goes through the constructor; [add] and [sub] take
    [v.x || 0] and [v.y || 0] of their argument; [mult] and [div] write
    a warning to the console and leave the vector as it is when the
    number is not finite, and [div] also when it is 0; [set] stores
    [x || 0] and [y || 0].  The third component is 0 in every vector the
    sources make and is left out. *)
Module p5.

(** [createVector(x, y)], that is [new p5.Vector(x, y)].  Unqualified,
    [createVector] is the record of two components as they are given. *)
Definition createVector (x0 y0 : float) : M ref :=
  newVector (createVector (or0 x0) (or0 y0)).

End p5.

(** The methods of [p5.Vector] the sources call.  An instance method
    changes the receiver in place and returns it; [copy] and the static
    methods make a new object. *)
Module p5_Vector.

(** [copy()]: [new p5.Vector(this.x, this.y, this.z)] *)
Definition copy (this : ref) : M ref :=
  v <- getVector this ;;
  p5.createVector (x v) (y v).

(** [add(v)]: [this.x += v.x || 0; this.y += v.y || 0] *)
Definition add (this v : ref) : M ref :=
  a <- getVector this ;;
  b <- getVector v ;;
  setVector this (createVector (x a + or0 (x b)) (y a + or0 (y b))) ;;
  ret this.

(** [sub(v)]: [this.x -= v.x || 0; this.y -= v.y || 0] *)
Definition sub (this v : ref) : M ref :=
  a <- getVector this ;;
  b <- getVector v ;;
  setVector this (createVector (x a - or0 (x b)) (y a - or0 (y b))) ;;
  ret this.

(** [mult(n)]: unless [n] is a finite number, a warning and no change *)
Definition mult (this : ref) (n : float) : M ref :=
  if isFinite n then
    a <- getVector this ;;
    setVector this (createVector (x a * n) (y a * n)) ;;
    ret this
  else
    console_warn ;;
    ret this.

(** [div(n)]: unless [n] is a finite number other than 0, a warning and
    no change *)
Definition div (this : ref) (n : float) : M ref :=
  if isFinite n then
    if n =? 0 then
      console_warn ;;
      ret this
    else
      a <- getVector this ;;
      setVector this (createVector (x a / n) (y a / n)) ;;
      ret this
  else
    console_warn ;;
    ret this.

(** [set(x, y)]: [this.x = x || 0; this.y = y || 0] *)
Definition set (this : ref) (x0 y0 : float) : M ref :=
  setVector this (createVector (or0 x0) (or0 y0)) ;;
  ret this.

(** [mag()]: the root of [x * x + y * y + z * z], where [z * z] is 0 *)
Definition mag (this : ref) : M float :=
  a <- getVector this ;;
  ret (sqrt (x a * x a + y a * y a)).

(** [p5.Vector.div(v, n)] and [p5.Vector.mult(v, n)] *)
Definition static_div (v : ref) (n : float) : M ref :=
  t <- copy v ;; div t n.

Definition static_mult (v : ref) (n : float) : M ref :=
  t <- copy v ;; mult t n.

End p5_Vector.

(** ** Body.js, the revision with accessors *)

(** The [cbChangePos] hook as the [DrawableBody] constructor defines it
    (part_002:259-263); a plain [Body] has the empty function, which is
    what this one does outside of Path mode. *)
Definition cbChangePos (this : ref) : M unit :=
  b <- getBody this ;;
  match _mode b with
  | DrawableBodyMode.Path =>
      p <- mapM (fun v : vertex =>
                   b' <- getBody this ;;
                   P <- getVector (_pos b') ;;
                   ret (fst v + x P, snd v + y P)) (_oPath b) ;;
      modBody this (set_path p)
  | _ => ret tt
  end.

(** [cbChangeVel] and [cbChangeAcc]: [() => { }] *)
Definition cbChangeVel (this : ref) : M unit := ret tt.
Definition cbChangeAcc (this : ref) : M unit := ret tt.

Module Body.

(** [pos()], part_002:34-35 *)
Definition pos (this : ref) : M ref :=
  b <- getBody this ;;
  p5_Vector.copy (_pos b).

(** [pos(vector)], part_002:36-38 *)
Definition pos_set (this : ref) (vector : ref) : M ref :=
  c <- p5_Vector.copy vector ;;
  modBody this (set_pos c) ;;
  cbChangePos this ;;
  ret this.

Definition posX (this : ref) : M float :=
  b <- getBody this ;;
  p <- getVector (_pos b) ;;
  ret (x p).

Definition posX_set (this : ref) (x0 : float) : M ref :=
  b <- getBody this ;;
  p <- getVector (_pos b) ;;
  setVector (_pos b) (createVector x0 (y p)) ;;
  cbChangePos this ;;
  ret this.

Definition posY (this : ref) : M float :=
  b <- getBody this ;;
  p <- getVector (_pos b) ;;
  ret (y p).

Definition posY_set (this : ref) (y0 : float) : M ref :=
  b <- getBody this ;;
  p <- getVector (_pos b) ;;
  setVector (_pos b) (createVector (x p) y0) ;;
  cbChangePos this ;;
  ret this.

Definition vel (this : ref) : M ref :=
  b <- getBody this ;;
  p5_Vector.copy (_vel b).

Definition vel_set (this : ref) (vector : ref) : M ref :=
  c <- p5_Vector.copy vector ;;
  modBody this (set_vel c) ;;
  cbChangeVel this ;;
  ret this.

Definition velX (this : ref) : M float :=
  b <- getBody this ;;
  p <- getVector (_vel b) ;;
  ret (x p).

Definition velX_set (this : ref) (x0 : float) : M ref :=
  b <- getBody this ;;
  p <- getVector (_vel b) ;;
  setVector (_vel b) (createVector x0 (y p)) ;;
  cbChangeVel this ;;
  ret this.

Definition velY (this : ref) : M float :=
  b <- getBody this ;;
  p <- getVector (_vel b) ;;
  ret (y p).

Definition velY_set (this : ref) (y0 : float) : M ref :=
  b <- getBody this ;;
  p <- getVector (_vel b) ;;
  setVector (_vel b) (createVector (x p) y0) ;;
  cbChangeVel this ;;
  ret this.

Definition acc (this : ref) : M ref :=
  b <- getBody this ;;
  p5_Vector.copy (_acc b).

(** The vector setter of the acceleration does not call [cbChangeAcc]. *)
Definition acc_set (this : ref) (vector : ref) : M ref :=
  c <- p5_Vector.copy vector ;;
  modBody this (set_acc c) ;;
  ret this.

(** [accX], [accY], part_002:84-96 *)
Definition accX (this : ref) : M float :=
  b <- getBody this ;;
  p <- getVector (_acc b) ;;
  ret (x p).

Definition accX_set (this : ref) (x0 : float) : M ref :=
  b <- getBody this ;;
  p <- getVector (_acc b) ;;
  setVector (_acc b) (createVector x0 (y p)) ;;
  cbChangeAcc this ;;
  ret this.

Definition accY (this : ref) : M float :=
  b <- getBody this ;;
  p <- getVector (_acc b) ;;
  ret (y p).

Definition accY_set (this : ref) (y0 : float) : M ref :=
  b <- getBody this ;;
  p <- getVector (_acc b) ;;
  setVector (_acc b) (createVector (x p) y0) ;;
  cbChangeAcc this ;;
  ret this.

(** [width()] and [width(value)], [height()] and [height(value)] of the
    base class, part_002:99-114; [value] is a number. *)
Definition width (this : ref) : M float :=
  b <- getBody this ;;
  ret (_w b).

Definition width_set (this : ref) (value : float) : M ref :=
  modBody this (set_w value) ;;
  ret this.

Definition height (this : ref) : M float :=
  b <- getBody this ;;
  ret (_h b).

Definition height_set (this : ref) (value : float) : M ref :=
  modBody this (set_h value) ;;
  ret this.

Definition mass (this : ref) : M float :=
  b <- getBody this ;;
  ret (_mass b).

Definition mass_set (this : ref) (value : float) : M ref :=
  modBody this (set_mass value) ;;
  ret this.

(** [coefficientOfRestitution()] and [coefficientOfRestitution(val)],
    part_002:126-132; [val] is a number. *)
Definition coefficientOfRestitution (this : ref) : M float :=
  b <- getBody this ;;
  ret (_cr b).

Definition coefficientOfRestitution_set (this : ref) (val : float) : M ref :=
  let val :=
    if val <? 0 then 0
    else if (1 <? val) || negb (isFinite val) || isNaN val then 1
    else val in
  modBody this (set_cr val) ;;
  ret this.

(** part_002:135-141 *)
Definition coefficientOfFriction (this : ref) : M float :=
  b <- getBody this ;;
  ret (μ b).

Definition coefficientOfFriction_set (this : ref) (val : float) : M ref :=
  let val :=
    if val <? 0 then 0
    else if (1 <? val) || negb (isFinite val) || isNaN val then 1
    else val in
  modBody this (set_μ val) ;;
  ret this.

(** [update()], part_002:144-152 *)
Definition update (this : ref) : M bool :=
  b <- getBody this ;;
  if negb (static b) || negb (cbOnUpdate b tt) then
    (v <- vel this ;; a <- acc this ;; v' <- p5_Vector.add v a ;;
     vel_set this v') ;;
    (p <- pos this ;; v <- vel this ;; p' <- p5_Vector.add p v ;;
     pos_set this p') ;;
    (z <- p5.createVector 0 0 ;; acc_set this z) ;;
    ret true
  else ret false.

(** [applyForce(force)], part_002:158-165.  The [cbOnApply] hook is a
    function on the components of the vector it is given. *)
Definition applyForce (this : ref) (force : ref) : M ref :=
  b <- getBody this ;;
  (if negb (static b) then
     f <- p5_Vector.static_div force (_mass b) ;;
     (fv <- getVector f ;; setVector f (cbOnApply b fv)) ;;
     a <- acc this ;; a' <- p5_Vector.add a f ;;
     acc_set this a' ;; ret tt
   else ret tt) ;;
  ret this.

(** [edges()], part_002:168-205 *)
Definition edges (this : ref) : M unit :=
  b <- getBody this ;;
  match _world b with
  | Datatypes.None => throw TypeError
  | Some w =>
  W <- getWorld w ;;
  match edgeMode W with
  | EdgeMode.None => ret tt
  | EdgeMode.Hold =>
      (px <- posX this ;;
       if px <? Wx W then posX_set this (Wx W) ;; ret tt else ret tt) ;;
      (px <- posX this ;;
       if Wx W + Ww W <? px then posX_set this (Wx W + Ww W) ;; ret tt else ret tt) ;;
      (py <- posY this ;;
       if py <? Wy W then posY_set this (Wy W) ;; ret tt else ret tt) ;;
      (py <- posY this ;;
       if Wy W + Wh W <? py then posY_set this (Wy W + Wh W) ;; ret tt else ret tt)
  | EdgeMode.Wrap =>
      (px <- posX this ;;
       if px <? Wx W then posX_set this (Wx W + Ww W) ;; ret tt
       else
         px <- posX this ;;
         if Wx W + Ww W <? px then posX_set this (Wx W) ;; ret tt else ret tt) ;;
      (py <- posY this ;;
       if py <? Wy W then posY_set this (Wy W + Wh W) ;; ret tt
       else
         py <- posY this ;;
         if Wy W + Wh W <? py then posY_set this (Wy W) ;; ret tt else ret tt)
  | EdgeMode.Bounce =>
      (px <- posX this ;;
       if px <? Wx W then
         posX_set this (Wx W) ;;
         vx <- velX this ;; velX_set this (- vx) ;; ret tt
       else
         px <- posX this ;;
         if Wx W + Ww W <? px then
           posX_set this (Wx W + Ww W) ;;
           vx <- velX this ;; velX_set this (- vx) ;; ret tt
         else ret tt) ;;
      (py <- posY this ;;
       if py <? Wy W then
         posY_set this (Wy W) ;;
         vy <- velY this ;; velY_set this (- vy) ;; ret tt
       else
         py <- posY this ;;
         if Wy W + Wh W <? py then
           posY_set this (Wy W + Wh W) ;;
           vy <- velY this ;; velY_set this (- vy) ;; ret tt
         else ret tt)
  | EdgeMode.Unknown => console_warn
  end
  end.

(** The ghost step that records a call of [collide]. *)
Definition trace_collide (a b : ref) : M unit :=
  fun s => (Normal tt, with_collided (fun l => l ++ [(a, b)]) s).

(** [static collide(a, b)], part_002:219-243 *)
Definition collide (a b : ref) : M unit :=
  trace_collide a b ;;
  A <- getBody a ;;
  B <- getBody b ;;
  if solid A && solid B then
    if static A then
      (v <- vel b ;; e <- coefficientOfRestitution b ;;
       v' <- p5_Vector.mult v (- e) ;; vel_set b v') ;;
      ret tt
    else if static B then
      (v <- vel a ;; e <- coefficientOfRestitution a ;;
       v' <- p5_Vector.mult v (- e) ;; vel_set b v') ;;
      ret tt
    else
      a_m <- mass a ;;
      b_m <- mass b ;;
      a_mu <- (v <- vel a ;; p5_Vector.mult v a_m) ;;
      b_mu <- (v <- vel b ;; p5_Vector.mult v b_m) ;;
      velA <- (t <- vel b ;; u <- vel a ;; t <- p5_Vector.sub t u ;;
               t <- p5_Vector.mult t b_m ;;
               e <- coefficientOfRestitution a ;; t <- p5_Vector.mult t e ;;
               t <- p5_Vector.add t a_mu ;; t <- p5_Vector.add t b_mu ;;
               p5_Vector.div t (a_m + b_m)) ;;
      velB <- (t <- vel a ;; u <- vel b ;; t <- p5_Vector.sub t u ;;
               t <- p5_Vector.mult t a_m ;;
               e <- coefficientOfRestitution b ;; t <- p5_Vector.mult t e ;;
               t <- p5_Vector.add t a_mu ;; t <- p5_Vector.add t b_mu ;;
               p5_Vector.div t (a_m + b_m)) ;;
      vel_set a velA ;;
      vel_set b velB ;;
      ret tt
  else ret tt.

End Body.

(** The geometric predicates of the p5.collide2D library and [Math.floor]
    are not part of the repository; the embedding takes them as given. *)
Class Host := {
  Math_floor : float -> float;
  collideRectRect :
    float -> float -> float -> float -> float -> float -> float -> float -> bool;
  collideCircleCircle :
    float -> float -> float -> float -> float -> float -> bool;
  collideRectCircle :
    float -> float -> float -> float -> float -> float -> float -> bool;
  collidePointEllipse :
    float -> float -> float -> float -> float -> float -> bool;
  collidePointRect :
    float -> float -> float -> float -> float -> float -> bool;
  collidePointPoly : float -> float -> list Vector -> bool;
  collideCirclePoly : float -> float -> float -> list Vector -> bool -> bool;
  collideRectPoly :
    float -> float -> float -> float -> list Vector -> bool -> bool;
  collidePolyPoly : list Vector -> list Vector -> bool -> bool
}.

Module DrawableBody.

(** The scan of [_calcBoundingBox] over the vertices of a path,
    part_002:285-291. *)
Fixpoint extent (path : list vertex) (topleft bottomright : vertex)
  : vertex * vertex :=
  match path with
  | [] => (topleft, bottomright)
  | v :: path' =>
      let tl0 := if fst v <? fst topleft then fst v else fst topleft in
      let tl1 := if snd v <? snd topleft then snd v else snd topleft in
      let br0 := if fst bottomright <? fst v then fst v else fst bottomright in
      let br1 := if snd bottomright <? snd v then snd v else snd bottomright in
      extent path' (tl0, tl1) (br0, br1)
  end.

(** [_calcBoundingBox()], part_002:267-300 *)
Definition _calcBoundingBox (this : ref) : M unit :=
  b <- getBody this ;;
  match _mode b with
  | DrawableBodyMode.Point =>
      p <- Body.pos this ;;
      modBody this (set_bb p 1 1)
  | DrawableBodyMode.Ellipse =>
      px <- Body.posX this ;;
      py <- Body.posY this ;;
      p <- p5.createVector (px - _w b / 2) (py - _h b / 2) ;;
      modBody this (set_bb p (_w b) (_h b))
  | DrawableBodyMode.Rectangle =>
      p <- Body.pos this ;;
      modBody this (set_bb p (_w b) (_h b))
  | DrawableBodyMode.Path =>
      let '(topleft, bottomright) :=
        extent (_path b) (Infinity, Infinity) (- Infinity, - Infinity) in
      p <- p5.createVector (fst topleft) (snd topleft) ;;
      modBody this (set_bb p (fst bottomright - fst topleft)
                             (snd bottomright - snd topleft))
  | DrawableBodyMode.Unknown => throw BoundingBoxError
  end.

(** [new DrawableBody(x, y, w, h)], part_002:7-27 and 248-264 *)
Definition new (x0 y0 w h : float) : M ref :=
  p <- p5.createVector x0 y0 ;;
  v <- p5.createVector 0 0 ;;
  a <- p5.createVector 0 0 ;;
  bb <- p5.createVector nan nan ;;
  this <- newBody (fun id =>
    mkBody id p v a w h 1 1 0 Datatypes.None false true
      (fun _ => true) (fun f => f)
      DrawableBodyMode.Rectangle [] [] bb 0 0) ;;
  _calcBoundingBox this ;;
  ret this.

(** [setDrawMode(mode)], part_002:317-321 *)
Definition setDrawMode (this : ref) (mode : DrawableBodyMode.t) : M ref :=
  modBody this (set_mode mode) ;;
  _calcBoundingBox this ;;
  ret this.

(** [setPolygon(...vertices)], part_002:342-350.  The argument is [None]
    for the call [setPolygon(null)] and the list of the vertices
    otherwise. *)
Definition setPolygon (this : ref) (vertices : option (list vertex)) : M ref :=
  modBody this (set_mode DrawableBodyMode.Path) ;;
  match vertices with
  | Some vertices =>
      modBody this (set_path vertices) ;;
      o <- mapM (fun v : vertex =>
                   b <- getBody this ;;
                   P <- getVector (_pos b) ;;
                   ret (fst v - x P, snd v - y P)) vertices ;;
      modBody this (set_oPath o) ;;
      _calcBoundingBox this
  | Datatypes.None => ret tt
  end ;;
  ret this.

(** [width(value)] and [height(value)] of [DrawableBody],
    part_002:303-314 *)
Definition width_set (this : ref) (value : float) : M ref :=
  v <- Body.width_set this value ;;
  _calcBoundingBox this ;;
  ret v.

Definition height_set (this : ref) (value : float) : M ref :=
  v <- Body.height_set this value ;;
  _calcBoundingBox this ;;
  ret v.

(** [setTriangle()], part_002:353-356 *)
Definition setTriangle (this : ref) : M ref :=
  b <- getBody this ;;
  let w2 := _w b / 2 in
  let h2 := _h b / 2 in
  p <- Body.pos this ;;
  pos <- getVector p ;;
  setPolygon this (Some [(x pos - w2, y pos - h2);
                         (x pos - w2, y pos + h2);
                         (x pos + w2, y pos)]).

(** [update()], part_002:358-361 *)
Definition update (this : ref) : M unit :=
  a <- Body.update this ;;
  if a then _calcBoundingBox this else ret tt.

Section Collision.
Context `{Host}.

Definition vectors (path : list vertex) : M (list Vector) :=
  mapM (fun a : vertex =>
          r <- p5.createVector (fst a) (snd a) ;; getVector r) path.

(** [static collision(a, b)], part_002:397-440 *)
Definition collision (a b : ref) : M bool :=
  A <- getBody a ;;
  B <- getBody b ;;
  Abb <- getVector (_bb_pos A) ;;
  Bbb <- getVector (_bb_pos B) ;;
  let baseCollide :=
    collideRectRect (x Abb) (y Abb) (_bb_w A) (_bb_h A)
                    (x Bbb) (y Bbb) (_bb_w B) (_bb_h B) in
  if baseCollide then
    match _mode A, _mode B with
    | DrawableBodyMode.Point, DrawableBodyMode.Point =>
        pa <- getVector (_pos A) ;; pb <- getVector (_pos B) ;;
        ret ((Math_floor (x pa) =? Math_floor (x pb))
             && (Math_floor (y pa) =? Math_floor (y pb)))
    | DrawableBodyMode.Ellipse, DrawableBodyMode.Ellipse =>
        pa <- getVector (_pos A) ;; pb <- getVector (_pos B) ;;
        ret (collideCircleCircle (x pa) (y pa) (_w A) (x pb) (y pb) (_w B))
    | DrawableBodyMode.Rectangle, DrawableBodyMode.Rectangle =>
        pa <- getVector (_pos A) ;; pb <- getVector (_pos B) ;;
        ret (collideRectRect (x pa) (y pa) (_w A) (_h A)
                             (x pb) (y pb) (_w B) (_h B))
    | DrawableBodyMode.Rectangle, DrawableBodyMode.Ellipse =>
        pa <- getVector (_pos A) ;; pb <- getVector (_pos B) ;;
        ret (collideRectCircle (x pa) (y pa) (_w A) (_h A)
                               (x pb) (y pb) (_w B))
    | DrawableBodyMode.Ellipse, DrawableBodyMode.Rectangle =>
        pb <- getVector (_pos B) ;; pa <- getVector (_pos A) ;;
        ret (collideRectCircle (x pb) (y pb) (_w B) (_h B)
                               (x pa) (y pa) (_w A))
    | DrawableBodyMode.Point, DrawableBodyMode.Ellipse =>
        pa <- getVector (_pos A) ;; pb <- getVector (_pos B) ;;
        ret (collidePointEllipse (x pa) (y pa) (x pb) (y pb) (_w B) (_h B))
    | DrawableBodyMode.Ellipse, DrawableBodyMode.Point =>
        pb <- getVector (_pos B) ;; pa <- getVector (_pos A) ;;
        ret (collidePointEllipse (x pb) (y pb) (x pa) (y pa) (_w A) (_h A))
    | DrawableBodyMode.Point, DrawableBodyMode.Rectangle =>
        pa <- getVector (_pos A) ;; pb <- getVector (_pos B) ;;
        ret (collidePointRect (x pa) (y pa) (x pb) (y pb) (_w B) (_h B))
    | DrawableBodyMode.Rectangle, DrawableBodyMode.Point =>
        pb <- getVector (_pos B) ;; pa <- getVector (_pos A) ;;
        ret (collidePointRect (x pb) (y pb) (x pa) (y pa) (_w A) (_h A))
    | DrawableBodyMode.Point, DrawableBodyMode.Path =>
        pa <- getVector (_pos A) ;;
        poly <- vectors (_path B) ;;
        ret (collidePointPoly (x pa) (y pa) poly)
    | DrawableBodyMode.Path, DrawableBodyMode.Point =>
        pb <- getVector (_pos B) ;;
        poly <- vectors (_path A) ;;
        ret (collidePointPoly (x pb) (y pb) poly)
    | DrawableBodyMode.Ellipse, DrawableBodyMode.Path =>
        pa <- getVector (_pos A) ;;
        poly <- vectors (_path B) ;;
        ret (collideCirclePoly (x pa) (y pa) (_w A) poly true)
    | DrawableBodyMode.Path, DrawableBodyMode.Ellipse =>
        pb <- getVector (_pos B) ;;
        poly <- vectors (_path A) ;;
        ret (collideCirclePoly (x pb) (y pb) (_w B) poly true)
    | DrawableBodyMode.Rectangle, DrawableBodyMode.Path =>
        pa <- getVector (_pos A) ;;
        poly <- vectors (_path B) ;;
        ret (collideRectPoly (x pa) (y pa) (_w A) (_h A) poly true)
    | DrawableBodyMode.Path, DrawableBodyMode.Rectangle =>
        pb <- getVector (_pos B) ;;
        poly <- vectors (_path A) ;;
        ret (collideRectPoly (x pb) (y pb) (_w B) (_h B) poly true)
    | DrawableBodyMode.Path, DrawableBodyMode.Path =>
        pa <- vectors (_path A) ;;
        pb <- vectors (_path B) ;;
        ret (collidePolyPoly pa pb true)
    | _, _ =>
        warn <-
          match _world A with
          | Datatypes.None => throw TypeError
          | Some wa =>
              Wa <- getWorld wa ;;
              if logWarnings Wa then ret true
              else
                match _world B with
                | Datatypes.None => throw TypeError
                | Some wb => Wb <- getWorld wb ;; ret (logWarnings Wb)
                end
          end ;;
        (if warn : bool then console_warn else ret tt) ;;
        ret false
    end
  else ret false.

End Collision.

End DrawableBody.

(** ** World.js *)

Module World.

(** [new World(x, y, w, h)], World.js:8-23 *)
Definition new (x0 y0 w h : float) : M ref :=
  g <- p5.createVector 0 0.1 ;;
  newWorld (mkWorld x0 y0 w h [] (Some g) EdgeMode.None true false).

(** [bodyCount()] *)
Definition bodyCount (this : ref) : M nat :=
  W <- getWorld this ;;
  ret (length (bodies W)).

(** [addBody(body)], World.js:31-35 *)
Definition addBody (this : ref) (body : ref) : M ref :=
  modBody body (set_world (Some this)) ;;
  modWorld this (fun W => set_bodies (bodies W ++ [body]) W) ;;
  ret this.

(** [array.indexOf(v)]: the first index holding [v], or -1 *)
Fixpoint indexOf (l : list ref) (v : ref) : option nat :=
  match l with
  | [] => Datatypes.None
  | a :: l' => if Nat.eqb a v then Some 0%nat
               else option_map S (indexOf l' v)
  end.

(** [remove(body)], World.js:41-48 *)
Definition remove (this : ref) (body : ref) : M bool :=
  W <- getWorld this ;;
  match indexOf (bodies W) body with
  | Some i =>
      modWorld this (fun W => set_bodies (delete i (bodies W)) W) ;;
      ret true
  | Datatypes.None => ret false
  end.

(** [doneCollision(a, b)] over the array [calculatedCollisions],
    World.js:68-73 *)
Fixpoint doneCollision (calculatedCollisions : list (ref * ref)) (a b : ref)
  : bool :=
  match calculatedCollisions with
  | [] => false
  | c :: cs =>
      if (Nat.eqb (fst c) a && Nat.eqb (snd c) b)
         || (Nat.eqb (fst c) b && Nat.eqb (snd c) a)
      then true
      else doneCollision cs a b
  end.

(** A [forEach] whose callback updates a local variable of the enclosing
    function. *)
Fixpoint forEachWith {A L} (l : list A) (f : A -> L -> M L) (acc : L) : M L :=
  match l with
  | [] => ret acc
  | a :: l' => acc' <- f a acc ;; forEachWith l' f acc'
  end.

Section Update.
Context `{Host}.

(** The first loop of [update()], World.js:54-65 *)
Definition integrate (this : ref) (edges : bool) (body : ref) : M unit :=
  W <- getWorld this ;;
  match G W with
  | Some g =>
      m <- Body.mass body ;;
      G <- p5_Vector.static_mult g m ;;
      Body.applyForce body G ;; ret tt
  | Datatypes.None => ret tt
  end ;;
  DrawableBody.update body ;;
  if edges then Body.edges body else ret tt.

(** The body of the inner loop, World.js:79-89; [calculatedCollisions]
    is threaded through. *)
Definition sweepPair (bodyA bodyB : ref) (calculatedCollisions : list (ref * ref))
  : M (list (ref * ref)) :=
  if negb (Nat.eqb bodyA bodyB)
     && negb (doneCollision calculatedCollisions bodyA bodyB) then
    collide <- DrawableBody.collision bodyA bodyB ;;
    approaching <-
      (if collide : bool then
         va <- Body.vel bodyA ;; vb <- Body.vel bodyB ;;
         d <- p5_Vector.sub va vb ;; m <- p5_Vector.mag d ;;
         ret (0 <? m)
       else ret false) ;;
    if approaching : bool then
      Body.collide bodyA bodyB ;;
      ret (calculatedCollisions ++ [(bodyA, bodyB)])
    else ret calculatedCollisions
  else ret calculatedCollisions.

(** The outer loop, World.js:75-92 *)
Definition sweep (this : ref) (bodyA : ref) (calculatedCollisions : list (ref * ref))
  : M (list (ref * ref)) :=
  W <- getWorld this ;;
  A <- getBody bodyA ;;
  if doCollisions W && solid A then
    W' <- getWorld this ;;
    forEachWith (bodies W') (sweepPair bodyA) calculatedCollisions
  else ret calculatedCollisions.

(** [update()], World.js:52-93 *)
Definition update (this : ref) : M unit :=
  W <- getWorld this ;;
  let edges :=
    match edgeMode W with EdgeMode.None => false | _ => true end in
  forEach (bodies W) (integrate this edges) ;;
  W <- getWorld this ;;
  forEachWith (bodies W) (sweep this) [] ;;
  ret tt.

End Update.

End World.

(** ** Body.js, earlier revisions *)

(** The revision before the accessors (part_002:441-793): [pos], [vel] and
    [acc] are public vectors and are changed in place. *)
Module Previous.

Definition console_log : M unit :=
  fun s => (Normal tt, with_console S s).

(** [static collide(a, b)], part_002:591-616.  [a.vel] is the field the
    later revision calls [_vel]. *)
Definition collide (a b : ref) : M unit :=
  Body.trace_collide a b ;;
  A <- getBody a ;;
  B <- getBody b ;;
  if solid A && solid B then
    if static A then
      (e <- Body.coefficientOfRestitution b ;; p5_Vector.mult (_vel B) (- e)) ;;
      ret tt
    else if static B then
      console_log ;;
      (e <- Body.coefficientOfRestitution a ;; p5_Vector.mult (_vel A) (- e)) ;;
      ret tt
    else
      a_m <- Body.mass a ;;
      b_m <- Body.mass b ;;
      a_mu <- (t <- p5_Vector.copy (_vel A) ;; p5_Vector.mult t a_m) ;;
      b_mu <- (t <- p5_Vector.copy (_vel B) ;; p5_Vector.mult t b_m) ;;
      velA <- (t <- p5_Vector.copy (_vel B) ;; t <- p5_Vector.sub t (_vel A) ;;
               t <- p5_Vector.mult t b_m ;;
               e <- Body.coefficientOfRestitution a ;; t <- p5_Vector.mult t e ;;
               t <- p5_Vector.add t a_mu ;; t <- p5_Vector.add t b_mu ;;
               p5_Vector.div t (a_m + b_m)) ;;
      velB <- (t <- p5_Vector.copy (_vel A) ;; t <- p5_Vector.sub t (_vel B) ;;
               t <- p5_Vector.mult t a_m ;;
               e <- Body.coefficientOfRestitution b ;; t <- p5_Vector.mult t e ;;
               t <- p5_Vector.add t a_mu ;; t <- p5_Vector.add t b_mu ;;
               p5_Vector.div t (a_m + b_m)) ;;
      (va <- getVector velA ;; p5_Vector.set (_vel A) (x va) (y va)) ;;
      (vb <- getVector velB ;; p5_Vector.set (_vel B) (x vb) (y vb)) ;;
      ret tt
  else ret tt.

(** [update()], part_002:516-524 *)
Definition update (this : ref) : M bool :=
  b <- getBody this ;;
  if negb (static b) || negb (cbOnUpdate b tt) then
    p5_Vector.add (_vel b) (_acc b) ;;
    p5_Vector.add (_pos b) (_vel b) ;;
    p5_Vector.set (_acc b) 0 0 ;;
    ret true
  else ret false.

(** [applyForce(force)], part_002:530-537 *)
Definition applyForce (this : ref) (force : ref) : M ref :=
  b <- getBody this ;;
  (if negb (static b) then
     f <- p5_Vector.static_div force (_mass b) ;;
     (fv <- getVector f ;; setVector f (cbOnApply b fv)) ;;
     p5_Vector.add (_acc b) f ;; ret tt
   else ret tt) ;;
  ret this.

End Previous.

(** The revision of part_001, in which the vertices of a polygon are set
    by [setPath]. *)
Module Earlier.

(** [setPath(...path)], part_001:145-149 *)
Definition setPath (this : ref) (path : list vertex) : M ref :=
  b <- getBody this ;;
  match _mode b with
  | DrawableBodyMode.Path =>
      modBody this (set_path path) ;;
      ret this
  | _ => throw NotPathError
  end.

End Earlier.

(** ** Observations *)

(** The value of a body's position, velocity and acceleration vector. *)
Definition posOf (s : State) (this : ref) : option Vector :=
  objs s !! this ≫= λ b, vecs s !! _pos b.
Definition velOf (s : State) (this : ref) : option Vector :=
  objs s !! this ≫= λ b, vecs s !! _vel b.
Definition accOf (s : State) (this : ref) : option Vector :=
  objs s !! this ≫= λ b, vecs s !! _acc b.

(** The empty store. *)
Definition empty : State := mkState [] [] [] 0 0 [].

(** The store a computation leaves, and how it completes. *)
Definition exec {A} (m : M A) (s : State) : State := snd (m s).
Definition result {A} (m : M A) (s : State) : completion A := fst (m s).

(** * Scenarios and specifications

    The computations the theorems below are about that are not methods of
    the sources (sequences of calls, and the stores they are run on), and
    the predicates in which the theorems are stated. *)

(** ** The values the methods of [p5.Vector] leave *)

(** The components of the vector [copy()] makes, and of the receiver
    after [add(b)], [sub(b)], [mult(n)] and [div(n)]. *)
Definition copied (v : Vector) : Vector :=
  createVector (or0 (x v)) (or0 (y v)).
Definition added (a b : Vector) : Vector :=
  createVector (x a + or0 (x b)) (y a + or0 (y b)).
Definition subtracted (a b : Vector) : Vector :=
  createVector (x a - or0 (x b)) (y a - or0 (y b)).
Definition scaled (a : Vector) (n : float) : Vector :=
  if isFinite n then createVector (x a * n) (y a * n) else a.
Definition divided (a : Vector) (n : float) : Vector :=
  if isFinite n then
    if n =? 0 then a else createVector (x a / n) (y a / n)
  else a.

(** Whether [mult(n)], and whether [div(n)], changes the vector; when it
    does not it writes one line to the console. *)
Definition multiplies (n : float) : bool := isFinite n.
Definition divides (n : float) : bool := isFinite n && negb (n =? 0).
Definition warned (ok : bool) (s : State) : State :=
  with_console (fun c => if ok then c else S c) s.

(** A vector that [copy()] reproduces: no component is NaN or -0. *)
Definition plain (v : Vector) : Prop := copied v = v.

(** ** Integration *)

(** The position, velocity and acceleration vectors of a body exist in
    the store. *)
Definition ready (s : State) (this : ref) : Prop :=
  exists b, objs s !! this = Some b
    /\ is_Some (vecs s !! _pos b)
    /\ is_Some (vecs s !! _vel b)
    /\ is_Some (vecs s !! _acc b).

(** A sequence of [applyForce] calls on one body. *)
Definition applyForces (this : ref) (forces : list ref) : M unit :=
  forEach forces (fun f => Body.applyForce this f ;; ret tt).

(** A body is pushed once, then frozen by [body.static = true], then
    updated; the computation returns what [update] returned and the
    acceleration it left. *)
Definition frozen_after_force : M (bool * Vector) :=
  this <- DrawableBody.new 0 0 10 10 ;;
  f <- newVector (createVector 1 0) ;;
  Body.applyForce this f ;;
  modBody this (set_static true) ;;
  r <- Body.update this ;;
  a <- Body.acc this ;;
  av <- getVector a ;;
  ret (r, av).

(** A store with one body (reference 0) and a force (vector 5; the
    constructor made vectors 0 to 4). *)
Definition one_body : State :=
  exec (DrawableBody.new 0 0 10 10 ;; newVector (createVector 1 2)) empty.

(** ** The coefficient setters *)

(** What the setters store for the argument [v]. *)
Definition clamps (v stored : float) : Prop :=
  ((v <? 0) = true -> stored = 0)
  /\ ((1 <? v) = true \/ isNaN v = true \/ v = Infinity -> stored = 1)
  /\ ((0 <=? v) = true /\ (v <=? 1) = true -> stored = v).

(** ** Polygon vertices *)

(** A new body, still in Rectangle mode, is given the vertices of a
    triangle; the computation returns its mode and its path. *)
Definition polygon_of_rectangle : M (DrawableBodyMode.t * list vertex) :=
  this <- DrawableBody.new 5 5 25 25 ;;
  DrawableBody.setPolygon this (Some [(0, 0); (10, 0); (5, 8)]) ;;
  b <- getBody this ;;
  ret (_mode b, _path b).

(** ** Membership *)

(** A call of [addBody] or of [remove] on a world. *)
Inductive op :=
| AddBody (W body : ref)
| Remove (W body : ref).

(** Making the call, and making a sequence of calls. *)
Definition call (o : op) : M unit :=
  match o with
  | AddBody W body => World.addBody W body ;; ret tt
  | Remove W body => World.remove W body ;; ret tt
  end.

Definition calls (ops : list op) : M unit := forEach ops call.

(** The world and the body of a call exist. *)
Definition known (s : State) (o : op) : Prop :=
  match o with
  | AddBody W body | Remove W body =>
      (W < length (worlds s))%nat /\ (body < length (objs s))%nat
  end.

(** The world of the latest [addBody(body)] among [ops], if there is one. *)
Fixpoint lastAdded (ops : list op) (body : ref) : option ref :=
  match ops with
  | [] => Datatypes.None
  | o :: ops' =>
      match lastAdded ops' body with
      | Some W => Some W
      | Datatypes.None =>
          match o with
          | AddBody W body' => if Nat.eqb body' body then Some W else Datatypes.None
          | Remove _ _ => Datatypes.None
          end
      end
  end.

(** One body (body 0) is added to two new worlds (worlds 0 and 1) and
    then removed from the second.  The computation returns the bodies of
    the two worlds after the second [addBody], and the bodies of the two
    worlds and the body's back-reference after the [remove]. *)
Definition shared_body
  : M ((list ref * list ref) * (list ref * list ref * option ref)) :=
  W0 <- World.new 0 0 400 400 ;;
  W1 <- World.new 0 0 400 400 ;;
  body <- DrawableBody.new 10 10 5 5 ;;
  World.addBody W0 body ;;
  World.addBody W1 body ;;
  l0 <- (W <- getWorld W0 ;; ret (bodies W)) ;;
  l1 <- (W <- getWorld W1 ;; ret (bodies W)) ;;
  World.remove W1 body ;;
  l0' <- (W <- getWorld W0 ;; ret (bodies W)) ;;
  l1' <- (W <- getWorld W1 ;; ret (bodies W)) ;;
  b <- getBody body ;;
  ret ((l0, l1), (l0', l1', _world b)).

(** A store with two worlds (0 and 1) and one body (0). *)
Definition two_worlds : State :=
  exec (World.new 0 0 400 400 ;; World.new 0 0 400 400 ;;
        DrawableBody.new 10 10 5 5) empty.

(** ** The position accessor *)

(** A vector whose first component is NaN (it is (Infinity, 0) plus
    (-Infinity, 0)) is set as the position of a body and read back; the
    computation returns the components of the vector and of what [pos()]
    returned. *)
Definition nan_position : M (Vector * Vector) :=
  this <- DrawableBody.new 0 0 10 10 ;;
  v <- p5.createVector Infinity 0 ;;
  w <- p5.createVector (- Infinity) 0 ;;
  p5_Vector.add v w ;;
  Body.pos_set this v ;;
  r <- Body.pos this ;;
  vv <- getVector v ;;
  rv <- getVector r ;;
  ret (vv, rv).

(** ** Edges *)

(** A world in Bounce mode that holds one body, left of the world. *)
Definition out_on_the_left : State :=
  exec (W <- World.new 0 0 400 400 ;;
        modWorld W (fun w => mkWorld (Wx w) (Wy w) (Ww w) (Wh w) (bodies w)
                               (G w) EdgeMode.Bounce (doCollisions w)
                               (logWarnings w)) ;;
        this <- DrawableBody.new (-3) 100 10 10 ;;
        World.addBody W this ;;
        v <- newVector (createVector (-2) 1) ;;
        Body.vel_set this v) empty.

(** ** Collision response *)

(** The velocity the general case of [collide] gives a body, by the
    calls of the source in their order: the copy of the other velocity
    minus the own one, times the other mass, times the own restitution
    coefficient, plus the two momenta, over the sum of the masses; the
    setter stores a copy of it. *)
Definition response (e m_other : float) (u_other u_own mu_a mu_b : Vector)
    (m_sum : float) : Vector :=
  copied
    (divided
       (added
          (added
             (scaled (scaled (subtracted (copied u_other) (copied u_own))
                        m_other) e)
             mu_a)
          mu_b)
       m_sum).

(** Between [s] and [s'] nothing changed but the [_vel] field of the
    bodies [a] and [b]: the worlds are the same, every vector object of
    [s] has its components, and every body has its fields. *)
Definition only_velocities (a b : ref) (s s' : State) : Prop :=
  worlds s' = worlds s
  /\ (forall r v, vecs s !! r = Some v -> vecs s' !! r = Some v)
  /\ (forall c C, objs s !! c = Some C ->
        exists C', objs s' !! c = Some C'
          /\ C' = set_vel (_vel C') C
          /\ (c <> a -> c <> b -> C' = C)).

(** A dynamic body [D] with restitution 0.8 and velocity (5, 2) and a
    static body [S] at rest collide, [D] being the first argument; the
    computation returns the velocity of [D] and the velocity of [S]. *)
Definition dynamic_hits_static (collide : ref -> ref -> M unit)
  : M (Vector * Vector) :=
  D <- DrawableBody.new 0 0 10 10 ;;
  S <- DrawableBody.new 5 5 10 10 ;;
  modBody S (set_static true) ;;
  Body.coefficientOfRestitution_set D 0.8 ;;
  (v <- newVector (createVector 5 2) ;; Body.vel_set D v) ;;
  collide D S ;;
  vD <- (v <- Body.vel D ;; getVector v) ;;
  vS <- (v <- Body.vel S ;; getVector v) ;;
  ret (vD, vS).

(** The same with the static body as the first argument. *)
Definition static_hits_dynamic (collide : ref -> ref -> M unit)
  : M (Vector * Vector) :=
  D <- DrawableBody.new 0 0 10 10 ;;
  S <- DrawableBody.new 5 5 10 10 ;;
  modBody S (set_static true) ;;
  Body.coefficientOfRestitution_set D 0.8 ;;
  (v <- newVector (createVector 5 2) ;; Body.vel_set D v) ;;
  collide S D ;;
  vD <- (v <- Body.vel D ;; getVector v) ;;
  vS <- (v <- Body.vel S ;; getVector v) ;;
  ret (vD, vS).

(** Two bodies (0 and 1) with the velocities (2, 0) and (-2, 0). *)
Definition head_on : State :=
  exec (a <- DrawableBody.new 0 0 10 10 ;;
        b <- DrawableBody.new 5 0 10 10 ;;
        (v <- newVector (createVector 2 0) ;; Body.vel_set a v) ;;
        (v <- newVector (createVector (-2) 0) ;; Body.vel_set b v)) empty.

(** ** The collision sweep *)

(** The test of [doneCollision] on one entry: it is the pair [a], [b] in
    one order or the other. *)
Definition same_pair (a b : ref) (c : ref * ref) : bool :=
  (Nat.eqb (fst c) a && Nat.eqb (snd c) b)
  || (Nat.eqb (fst c) b && Nat.eqb (snd c) a).

(** The number of calls of [collide] on the unordered pair [a], [b]. *)
Definition calls_of (a b : ref) (l : list (ref * ref)) : nat :=
  length (List.filter (same_pair a b) l).

(** A host whose rectangle test is the one of p5.collide2D; the other
    predicates are not called on rectangles. *)
Definition rectangles : Host := {|
  Math_floor v := v;
  collideRectRect x1 y1 w1 h1 x2 y2 w2 h2 :=
    (x2 <=? x1 + w1) && (x1 <=? x2 + w2) && (y2 <=? y1 + h1) && (y1 <=? y2 + h2);
  collideCircleCircle _ _ _ _ _ _ := false;
  collideRectCircle _ _ _ _ _ _ _ := false;
  collidePointEllipse _ _ _ _ _ _ := false;
  collidePointRect _ _ _ _ _ _ := false;
  collidePointPoly _ _ _ := false;
  collideCirclePoly _ _ _ _ _ := false;
  collideRectPoly _ _ _ _ _ _ := false;
  collidePolyPoly _ _ _ := false
|}.

(** A world (world 0) of three rectangles (bodies 0, 1 and 2) that
    overlap each other and move differently. *)
Definition three_overlapping : State :=
  exec (W <- World.new 0 0 400 400 ;;
        a <- DrawableBody.new 100 100 10 10 ;;
        b <- DrawableBody.new 101 101 10 10 ;;
        c <- DrawableBody.new 102 102 10 10 ;;
        (v <- newVector (createVector 1 0) ;; Body.vel_set a v) ;;
        (v <- newVector (createVector (-1) 0) ;; Body.vel_set b v) ;;
        (v <- newVector (createVector 0 1) ;; Body.vel_set c v) ;;
        World.addBody W a ;; World.addBody W b ;; World.addBody W c) empty.

(** ** Stores for the further properties *)

(** A store with one body (body 0) at (1, 2) with the velocity (3, 4) and
    the acceleration (0.5, 0.25), and a force (-2, 6) (vector 9). *)
Definition moving_body : State :=
  exec (this <- DrawableBody.new 1 2 10 10 ;;
        (v <- newVector (createVector 3 4) ;; Body.vel_set this v) ;;
        (a <- newVector (createVector 0.5 0.25) ;; Body.acc_set this a) ;;
        Body.mass_set this 2 ;;
        newVector (createVector (-2) 6)) empty.

(** A world in Hold mode with one body inside it. *)
Definition held_inside : State :=
  exec (W <- World.new 0 0 400 400 ;;
        modWorld W (fun w => mkWorld (Wx w) (Wy w) (Ww w) (Wh w) (bodies w)
                               (G w) EdgeMode.Hold (doCollisions w)
                               (logWarnings w)) ;;
        this <- DrawableBody.new 20 30 10 10 ;;
        World.addBody W this) empty.

(** The world of three overlapping rectangles, with collisions switched
    off. *)
Definition collisions_off : State :=
  exec (modWorld 0 (fun w => mkWorld (Wx w) (Wy w) (Ww w) (Wh w) (bodies w)
                               (G w) (edgeMode w) false (logWarnings w)))
    three_overlapping.

(** A world (world 0) with gravity (0, 0.1) and one body (body 0) of
    mass 2 at (1, 2) with the velocity (3, 4). *)
Definition falling : State :=
  exec (W <- World.new 0 0 400 400 ;;
        this <- DrawableBody.new 1 2 10 10 ;;
        (v <- newVector (createVector 3 4) ;; Body.vel_set this v) ;;
        Body.mass_set this 2 ;;
        World.addBody W this) empty.

(** ** Edges, in closed form *)

(** Where [edges()] leaves a coordinate [v] of a body in a world that
    begins at [lo] and is [len] long, in the three modes; and whether
    Bounce negates the velocity along that axis. *)
Definition held (lo len v : float) : float :=
  let v1 := if v <? lo then lo else v in
  if lo + len <? v1 then lo + len else v1.
Definition wrapped (lo len v : float) : float :=
  if v <? lo then lo + len else if lo + len <? v then lo else v.
Definition bounced (lo len v : float) : float :=
  if v <? lo then lo else if lo + len <? v then lo + len else v.
Definition outside (lo len v : float) : bool :=
  (v <? lo) || (lo + len <? v).

Definition edge_pos (W : world) (p : Vector) : Vector :=
  match edgeMode W with
  | EdgeMode.Hold =>
      createVector (held (Wx W) (Ww W) (x p)) (held (Wy W) (Wh W) (y p))
  | EdgeMode.Wrap =>
      createVector (wrapped (Wx W) (Ww W) (x p)) (wrapped (Wy W) (Wh W) (y p))
  | EdgeMode.Bounce =>
      createVector (bounced (Wx W) (Ww W) (x p)) (bounced (Wy W) (Wh W) (y p))
  | _ => p
  end.

Definition edge_vel (W : world) (p v : Vector) : Vector :=
  match edgeMode W with
  | EdgeMode.Bounce =>
      createVector (if outside (Wx W) (Ww W) (x p) then - x v else x v)
                   (if outside (Wy W) (Wh W) (y p) then - y v else y v)
  | _ => v
  end.

(** The point [p] lies in the rectangle of the world, borders included. *)
Definition inside (W : world) (p : Vector) : Prop :=
  (Wx W <=? x p) = true /\ (x p <=? Wx W + Ww W) = true
  /\ (Wy W <=? y p) = true /\ (y p <=? Wy W + Wh W) = true.

(** ** Bounding boxes *)

(** A box that lies where the body is: at the position [p] itself, with
    the size of the body, or around the path.  It is the box
    [_calcBoundingBox] computes when [x || 0] changes no component;
    [bounding_box] is the box it computes in general. *)
Definition box_of (b : body) (p : Vector) : option (Vector * float * float) :=
  match _mode b with
  | DrawableBodyMode.Point => Some (p, 1, 1)
  | DrawableBodyMode.Ellipse =>
      Some (createVector (x p - _w b / 2) (y p - _h b / 2), _w b, _h b)
  | DrawableBodyMode.Rectangle => Some (p, _w b, _h b)
  | DrawableBodyMode.Path =>
      let '(topleft, bottomright) :=
        DrawableBody.extent (_path b) (Infinity, Infinity)
          (- Infinity, - Infinity) in
      Some (createVector (fst topleft) (snd topleft),
            fst bottomright - fst topleft, snd bottomright - snd topleft)
  | DrawableBodyMode.Unknown => Datatypes.None
  end.

(** The box [_calcBoundingBox] computes for a body at the position [p]:
    its top-left corner, its width and its height.  The corner is a copy
    of the position or a vector made by [createVector], and has [x || 0]
    for [x]. *)
Definition bounding_box (b : body) (p : Vector)
  : option (Vector * float * float) :=
  match _mode b with
  | DrawableBodyMode.Point => Some (copied p, 1, 1)
  | DrawableBodyMode.Ellipse =>
      Some (createVector (or0 (x p - _w b / 2)) (or0 (y p - _h b / 2)),
            _w b, _h b)
  | DrawableBodyMode.Rectangle => Some (copied p, _w b, _h b)
  | DrawableBodyMode.Path =>
      let '(topleft, bottomright) :=
        DrawableBody.extent (_path b) (Infinity, Infinity)
          (- Infinity, - Infinity) in
      Some (createVector (or0 (fst topleft)) (or0 (snd topleft)),
            fst bottomright - fst topleft, snd bottomright - snd topleft)
  | DrawableBodyMode.Unknown => Datatypes.None
  end.

(** The bounding box of the body is the box of its mode, size, path and
    position as they are now. *)
Definition boxed (s : State) (this : ref) : Prop :=
  exists b p bb,
    objs s !! this = Some b
    /\ vecs s !! _pos b = Some p
    /\ vecs s !! _bb_pos b = Some bb
    /\ bounding_box b p = Some (bb, _bb_w b, _bb_h b).

(** The coordinates of a vertex are numbers. *)
Definition numbers (v : vertex) : Prop :=
  isNaN (fst v) = false /\ isNaN (snd v) = false.

(** The vertex lies between the two corners. *)
Definition between (topleft bottomright v : vertex) : Prop :=
  (fst topleft <=? fst v) = true /\ (fst v <=? fst bottomright) = true
  /\ (snd topleft <=? snd v) = true /\ (snd v <=? snd bottomright) = true.

(** * Reasoning about runs *)

(** ** Lookups in a store that grew *)

Lemma lookup_snoc_new {A} (l : list A) (a : A) : (l ++ [a]) !! length l = Some a.
Proof. by apply list_lookup_middle. Qed.

Lemma lookup_snoc_old {A} (l : list A) (a : A) (i : nat) :
  (i < length l)%nat -> (l ++ [a]) !! i = l !! i.
Proof. apply lookup_app_l. Qed.

(** Lengths of such stores, for [lia]. *)
Ltac len :=
  repeat first [ rewrite length_app | rewrite length_insert ];
  cbn [length].

(** One lookup in a store built from appends and in-place updates. *)
Ltac lookup_step :=
  match goal with
  | H : ?l !! ?i = Some _ |- context [ ?l !! ?i ] =>
      tryif has_evar l then fail else
      tryif has_evar i then fail else rewrite H
  | |- context [ (?l ++ [?a]) !! ?i ] =>
      tryif has_evar l then fail else
      tryif has_evar i then fail else
      first [ rewrite (lookup_snoc_old l a i) by (len; lia)
            | replace i with (length l) by (len; lia);
              rewrite (lookup_snoc_new l a) ]
  | |- context [ <[?j := ?a]> ?l !! ?i ] =>
      tryif has_evar l then fail else
      tryif has_evar i then fail else
      first [ rewrite (list_lookup_insert_ne l j i a) by (len; lia)
            | replace j with i by (len; lia);
              rewrite (list_lookup_insert_eq l i a) by (len; lia) ]
  end.

(** Projections of records built by the field updates. *)
Ltac fields :=
  cbn [vecs objs worlds __body_id console collided
       with_vecs with_objs with_worlds with_body_id with_console with_collided
       fst snd x y
       _id _pos _vel _acc _w _h _mass _cr μ _world static solid
       cbOnUpdate cbOnApply _mode _oPath _path _bb_pos _bb_w _bb_h
       set_pos set_vel set_acc set_mass set_cr set_μ set_world set_static
       set_mode set_oPath set_path set_bb set_w set_h
       Wx Wy Ww Wh bodies G edgeMode doCollisions logWarnings set_bodies
       warned negb orb andb].

(** The monad and the store primitives, unfolded. *)
Ltac prims :=
  unfold p5.createVector, bind, ret, throw, getBody, modBody, getVector,
    setVector, newVector, getWorld, modWorld.

(** ** [mult] and [div] without their case distinction *)

Lemma mult_run (s : State) (this : ref) (n : float) (a : Vector) :
  vecs s !! this = Some a ->
  p5_Vector.mult this n s =
    (Normal this,
     warned (multiplies n)
       (with_vecs (fun h => <[this := scaled a n]> h) s)).
Proof.
  intros Ha. unfold p5_Vector.mult, scaled, multiplies, warned.
  destruct (isFinite n).
  - prims. repeat (rewrite Ha; cbv beta iota). reflexivity.
  - unfold bind, console_warn, ret.
    unfold with_vecs. by rewrite list_insert_id.
Qed.

Lemma div_run (s : State) (this : ref) (n : float) (a : Vector) :
  vecs s !! this = Some a ->
  p5_Vector.div this n s =
    (Normal this,
     warned (divides n)
       (with_vecs (fun h => <[this := divided a n]> h) s)).
Proof.
  intros Ha. unfold p5_Vector.div, divided, divides, warned.
  destruct (isFinite n); [destruct (n =? 0)|].
  - unfold bind, console_warn, ret.
    unfold with_vecs. by rewrite list_insert_id.
  - prims. repeat (rewrite Ha; cbv beta iota). reflexivity.
  - unfold bind, console_warn, ret.
    unfold with_vecs. by rewrite list_insert_id.
Qed.

(** One call of [mult] or [div] on a store in which the receiver can be
    looked up. *)
Ltac p5_step :=
  match goal with
  | |- context [p5_Vector.mult ?r ?n ?s] =>
      tryif has_evar s then fail else
      erewrite (mult_run s r n)
        by (repeat (fields; try lookup_step); reflexivity)
  | |- context [p5_Vector.div ?r ?n ?s] =>
      tryif has_evar s then fail else
      erewrite (div_run s r n)
        by (repeat (fields; try lookup_step); reflexivity)
  end.

(** Runs an unfolded computation as far as the lookups can be decided. *)
Ltac run := repeat (fields; try lookup_step; try p5_step).

(** The accessors of a body and the methods of [p5.Vector], unfolded;
    [mult] and [div] are left to [run]. *)
Ltac accessors :=
  unfold Body.vel, Body.vel_set, Body.pos, Body.acc, Body.acc_set,
    Body.posX, Body.posY, Body.velX, Body.velX_set, Body.velY, Body.velY_set,
    Body.mass, Body.coefficientOfRestitution, Body.coefficientOfFriction,
    Body.accX, Body.accX_set, Body.accY, Body.accY_set,
    Body.width, Body.width_set, Body.height, Body.height_set,
    cbChangeVel, cbChangeAcc,
    p5_Vector.static_div, p5_Vector.static_mult,
    p5_Vector.copy, p5_Vector.add, p5_Vector.sub, p5_Vector.set,
    p5.createVector.

(** ** [x || 0] *)

Lemma or0_zero : or0 0 = 0.
Proof. reflexivity. Qed.

Lemma or0_or0 (v : float) : or0 (or0 v) = or0 v.
Proof.
  unfold or0. destruct ((v =? 0) || isNaN v) eqn:E; [reflexivity|].
  by rewrite E.
Qed.

Lemma or0_not_nan (v : float) : isNaN (or0 v) = false.
Proof.
  unfold or0. destruct (v =? 0); cbn [orb]; [reflexivity|].
  by destruct (isNaN v) eqn:E.
Qed.

Lemma copied_copied (v : Vector) : copied (copied v) = copied v.
Proof. unfold copied. cbn [x y]. by rewrite !or0_or0. Qed.

Lemma copied_plain (v : Vector) : plain (copied v).
Proof. apply copied_copied. Qed.

Lemma added_copied (a b : Vector) : added a (copied b) = added a b.
Proof. unfold added, copied. cbn [x y]. by rewrite !or0_or0. Qed.

Lemma subtracted_copied (a b : Vector) :
  subtracted a (copied b) = subtracted a b.
Proof. unfold subtracted, copied. cbn [x y]. by rewrite !or0_or0. Qed.

Lemma copied_not_nan (v : Vector) :
  isNaN (x (copied v)) = false /\ isNaN (y (copied v)) = false.
Proof. split; apply or0_not_nan. Qed.

Lemma plain_or0 (v : Vector) :
  plain v -> or0 (x v) = x v /\ or0 (y v) = y v.
Proof.
  unfold plain, copied. destruct v as [vx vy]. cbn [x y].
  intros E. split; [apply (f_equal x) in E | apply (f_equal y) in E]; exact E.
Qed.

(** ** [mapM] of a callback that only reads *)

Lemma mapM_read {A B} (f : A -> M B) (g : A -> B) (s : State) (l : list A) :
  (forall a, f a s = (Normal (g a), s)) ->
  mapM f l s = (Normal (map g l), s).
Proof.
  intros Hf. induction l as [|a l IH]; [reflexivity|].
  cbn [mapM map]. unfold bind at 1. rewrite Hf.
  unfold bind at 1. rewrite IH. reflexivity.
Qed.

(** What [cbChangePos] leaves: in Path mode the vertices of [_oPath],
    moved by the position. *)
Definition moved (this : ref) (b : body) (p : Vector) (s : State) : State :=
  match _mode b with
  | DrawableBodyMode.Path =>
      with_objs (fun h =>
        <[this := set_path (map (fun v : vertex => (fst v + x p, snd v + y p))
                              (_oPath b)) b]> h) s
  | _ => s
  end.

Lemma cbChangePos_run (s : State) (this : ref) (b : body) (p : Vector) :
  objs s !! this = Some b ->
  vecs s !! _pos b = Some p ->
  cbChangePos this s = (Normal tt, moved this b p s).
Proof.
  intros Hb Hp. unfold cbChangePos, moved.
  unfold bind at 1. unfold getBody at 1. rewrite Hb.
  destruct (_mode b); try reflexivity.
  unfold bind at 1.
  rewrite (mapM_read _ (fun v : vertex => (fst v + x p, snd v + y p))).
  - unfold modBody. rewrite Hb. reflexivity.
  - intros v. prims. rewrite Hb, Hp. reflexivity.
Qed.

(** [pos(vector)] on a store in which the body and the vector exist. *)
Lemma pos_set_run (s : State) (this vector : ref) (b : body) (v : Vector) :
  objs s !! this = Some b ->
  vecs s !! vector = Some v ->
  Body.pos_set this vector s =
    (Normal this,
     moved this (set_pos (length (vecs s)) b) (copied v)
       (with_objs (fun h => <[this := set_pos (length (vecs s)) b]> h)
          (with_vecs (fun h => h ++ [copied v]) s))).
Proof.
  intros Hb Hv. pose proof (lookup_lt_Some _ _ _ Hb).
  unfold Body.pos_set. accessors.
  unfold bind at 1. unfold bind at 1. unfold getVector at 1. rewrite Hv.
  unfold newVector at 1. fields.
  unfold bind at 1. unfold modBody at 1. fields. rewrite Hb.
  unfold bind at 1.
  erewrite cbChangePos_run; [reflexivity| |].
  - run. reflexivity.
  - run. reflexivity.
Qed.

(** The constructor makes a body whose position, velocity and
    acceleration are three vector objects of their own. *)
Lemma new_run (s : State) (x0 y0 w h : float) :
  exists s' b,
    DrawableBody.new x0 y0 w h s = (Normal (length (objs s)), s')
    /\ objs s' !! length (objs s) = Some b
    /\ ready s' (length (objs s))
    /\ _pos b <> _vel b /\ _pos b <> _acc b /\ _vel b <> _acc b
    /\ posOf s' (length (objs s)) = Some (createVector (or0 x0) (or0 y0))
    /\ velOf s' (length (objs s)) = Some (createVector 0 0)
    /\ accOf s' (length (objs s)) = Some (createVector 0 0).
Proof.
  unfold DrawableBody.new, DrawableBody._calcBoundingBox, newBody.
  accessors. prims. run.
  eexists _, _. split; [reflexivity|]. run.
  split; [reflexivity|]. fields.
  split.
  { eexists. run. split; [reflexivity|]. fields.
    repeat split; eexists; run; reflexivity. }
  repeat split; try (len; lia).
  all: unfold posOf, velOf, accOf; run; cbn [mbind option_bind]; run; reflexivity.
Qed.

(** Leibniz inequality of two numbers, from the IEEE comparison. *)
Lemma float_neq (a b : float) : (a =? a) = true -> (a =? b) = false -> a <> b.
Proof. intros Ha Hab E. rewrite <- E in Hab. congruence. Qed.

(** * Integration: [applyForce] and [update] *)

Lemma update_run (s : State) (this : ref) (b : body) (pv vv av : Vector) :
  objs s !! this = Some b ->
  vecs s !! _pos b = Some pv ->
  vecs s !! _vel b = Some vv ->
  vecs s !! _acc b = Some av ->
  static b = false \/ cbOnUpdate b tt = false ->
  exists s',
    Body.update this s = (Normal true, s')
    /\ accOf s' this = Some (createVector 0 0)
    /\ velOf s' this = Some (copied (added (copied vv) (copied av)))
    /\ posOf s' this =
         Some (copied (added (copied pv)
                         (copied (copied (added (copied vv) (copied av)))))).
Proof.
  intros Hb Hp Hv Ha Hgo.
  pose proof (lookup_lt_Some _ _ _ Hb). pose proof (lookup_lt_Some _ _ _ Hp).
  pose proof (lookup_lt_Some _ _ _ Hv). pose proof (lookup_lt_Some _ _ _ Ha).
  assert (Hc : negb (static b) || negb (cbOnUpdate b tt) = true).
  { destruct Hgo as [-> | ->]; [reflexivity | apply orb_true_r]. }
  unfold Body.update.
  unfold bind at 1. unfold getBody at 1. rewrite Hb, Hc.
  accessors. prims. run.
  erewrite pos_set_run by (run; reflexivity).
  unfold moved. fields.
  destruct (_mode b) eqn:Hmode; run.
  all: eexists; (split; [reflexivity|]).
  all: unfold accOf, velOf, posOf; run; cbn [mbind option_bind]; run.
  all: done.
Qed.

Lemma update_static (s : State) (this : ref) (b : body) :
  objs s !! this = Some b ->
  static b = true -> cbOnUpdate b tt = true ->
  Body.update this s = (Normal false, s).
Proof.
  intros Hb Hs Hcb. unfold Body.update.
  unfold bind at 1. unfold getBody at 1. by rewrite Hb, Hs, Hcb.
Qed.

Lemma applyForce_static (s : State) (this force : ref) (b : body) :
  objs s !! this = Some b -> static b = true ->
  Body.applyForce this force s = (Normal this, s).
Proof.
  intros Hb Hs. unfold Body.applyForce.
  unfold bind at 1. unfold getBody at 1. by rewrite Hb, Hs.
Qed.

Lemma applyForce_run (s : State) (this force : ref) (b : body) :
  objs s !! this = Some b ->
  ready s this ->
  is_Some (vecs s !! force) ->
  exists s' b',
    Body.applyForce this force s = (Normal this, s')
    /\ objs s' !! this = Some b'
    /\ static b' = static b /\ cbOnUpdate b' = cbOnUpdate b
    /\ ready s' this
    /\ (forall i, is_Some (vecs s !! i) -> is_Some (vecs s' !! i)).
Proof.
  intros Hb (b0 & Hb0 & [pv Hp] & [vv Hv] & [av Ha]) [fv Hf].
  assert (b0 = b) as -> by congruence.
  destruct (static b) eqn:Hs.
  { exists s, b. rewrite (applyForce_static s this force b) by done.
    repeat split; try done. exists b. eauto 10. }
  pose proof (lookup_lt_Some _ _ _ Hb). pose proof (lookup_lt_Some _ _ _ Hp).
  pose proof (lookup_lt_Some _ _ _ Hv). pose proof (lookup_lt_Some _ _ _ Ha).
  pose proof (lookup_lt_Some _ _ _ Hf).
  unfold Body.applyForce.
  unfold bind at 1. unfold getBody at 1. rewrite Hb, Hs.
  accessors. prims. run.
  eexists _, _. split; [reflexivity|]. run.
  split; [reflexivity|]. fields. split; [exact Hs|]. split; [reflexivity|].
  split.
  - eexists. run. repeat split; eexists; run; reflexivity.
  - intros i [v Hi]. pose proof (lookup_lt_Some _ _ _ Hi). run. eauto.
Qed.

Lemma applyForces_run (forces : list ref) (s : State) (this : ref) (b : body) :
  objs s !! this = Some b ->
  ready s this ->
  Forall (fun f => is_Some (vecs s !! f)) forces ->
  exists s' b',
    applyForces this forces s = (Normal tt, s')
    /\ objs s' !! this = Some b'
    /\ static b' = static b /\ cbOnUpdate b' = cbOnUpdate b
    /\ ready s' this.
Proof.
  revert s b. induction forces as [|f forces IH]; intros s b Hb Hr Hf.
  { exists s, b. by repeat split. }
  inversion Hf as [|? ? Hf1 Hf2]; subst.
  destruct (applyForce_run s this f b Hb Hr Hf1)
    as (s1 & b1 & Hrun & Hb1 & Hst & Hcb & Hr1 & Hkeep).
  destruct (IH s1 b1 Hb1 Hr1) as (s2 & b2 & Hrun2 & Hb2 & Hst2 & Hcb2 & Hr2).
  { eapply Forall_impl; [exact Hf2|]. intros i. apply Hkeep. }
  exists s2, b2. unfold applyForces in *. cbn [forEach].
  unfold bind at 1. unfold bind at 1. rewrite Hrun. cbn [ret].
  rewrite Hrun2. repeat split; congruence.
Qed.

Lemma applyForces_static (forces : list ref) (s : State) (this : ref) (b : body) :
  objs s !! this = Some b -> static b = true ->
  applyForces this forces s = (Normal tt, s).
Proof.
  intros Hb Hs. unfold applyForces.
  induction forces as [|f forces IH]; [reflexivity|].
  cbn [forEach]. unfold bind at 1. unfold bind at 1.
  by rewrite (applyForce_static s this f b).
Qed.

(** C3, as stated, fails for a body that is static when [update] runs:
    [update] returns false without touching the acceleration, so the force
    applied before the body was frozen is still there. *)
Lemma update_static_keeps_acceleration :
  result frozen_after_force empty = Normal (false, createVector 1 0)
  /\ createVector 1 0 <> createVector 0 0.
Proof.
  split; [vm_compute; reflexivity|].
  intros E. apply (f_equal x) in E. revert E. by apply float_neq.
Qed.

(** C3 (amended): after any sequence of [applyForce] calls, [update()] on
    a body that is not static (or whose [cbOnUpdate] hook returns false)
    returns true and leaves the acceleration exactly (0, 0); on a static
    body whose hook returns true, [applyForce] and [update] change nothing
    and [update] returns false, so the acceleration keeps its value. *)
Theorem update_resets_acceleration
    (s : State) (this : ref) (b : body) (forces : list ref) :
  objs s !! this = Some b ->
  ready s this ->
  Forall (fun f => is_Some (vecs s !! f)) forces ->
  (static b = false \/ cbOnUpdate b tt = false ->
     exists s1 s2,
       applyForces this forces s = (Normal tt, s1)
       /\ Body.update this s1 = (Normal true, s2)
       /\ accOf s2 this = Some (createVector 0 0))
  /\ (static b = true -> cbOnUpdate b tt = true ->
        applyForces this forces s = (Normal tt, s)
        /\ Body.update this s = (Normal false, s)).
Proof.
  intros Hb Hr Hf. split.
  - intros Hgo.
    destruct (applyForces_run forces s this b Hb Hr Hf)
      as (s1 & b1 & Hrun & Hb1 & Hst & Hcb & Hr1).
    destruct Hr1 as (b' & Hb' & [pv Hp] & [vv Hv] & [av Ha]).
    assert (b' = b1) as -> by congruence.
    destruct (update_run s1 this b1 pv vv av Hb1 Hp Hv Ha)
      as (s2 & Hupd & Hacc & _).
    { rewrite Hst, Hcb. exact Hgo. }
    eauto.
  - intros Hs Hcb. split.
    + by apply applyForces_static with b.
    + by apply update_static with b.
Qed.

Lemma update_resets_acceleration_witness :
  exists s1 s2,
    applyForces 0 [5; 5]%nat one_body = (Normal tt, s1)
    /\ Body.update 0 s1 = (Normal true, s2)
    /\ accOf s2 0 = Some (createVector 0 0).
Proof.
  eapply (update_resets_acceleration one_body 0 _ [5; 5]%nat).
  - vm_compute. reflexivity.
  - eexists. repeat split; try (vm_compute; reflexivity); eexists; vm_compute; reflexivity.
  - repeat constructor; eexists; vm_compute; reflexivity.
  - left. reflexivity.
Defined.

(** * The coefficient setters *)

(** ** The order of binary64 numbers, from their specification *)

Lemma Prim2SF_zero : Prim2SF 0 = S754_zero false.
Proof. reflexivity. Qed.

Lemma Prim2SF_one : exists m e, Prim2SF 1 = S754_finite false m e.
Proof. eexists _, _. reflexivity. Qed.

Lemma Prim2SF_infinity : Prim2SF infinity = S754_infinity false.
Proof. reflexivity. Qed.

Lemma SFcompare_antisym (a b : spec_float) :
  SFcompare b a = option_map CompOpp (SFcompare a b).
Proof.
  destruct a as [sa|sa| |sa ma ea], b as [sb|sb| |sb mb eb]; cbn;
    try reflexivity; try (by destruct sa); try (by destruct sb);
    try (by destruct sa, sb).
  assert (Hm : PosDef.Pos.compare_cont Eq mb ma
               = CompOpp (PosDef.Pos.compare_cont Eq ma mb)).
  { exact (eq_sym (Pos.compare_cont_antisym ma mb Eq)). }
  destruct sa, sb; try reflexivity; f_equal;
    rewrite (Z.compare_antisym ea eb);
    destruct (ea ?= eb)%Z; cbn; try reflexivity;
    rewrite Hm; reflexivity.
Qed.

Lemma SFcompare_refl (a : spec_float) :
  a <> S754_nan -> SFcompare a a = Some Eq.
Proof.
  destruct a as [sa|sa| |sa ma ea]; cbn; try done.
  - by destruct sa.
  - intros _. rewrite Z.compare_refl.
    change (PosDef.Pos.compare_cont Eq ma ma) with (Pos.compare ma ma).
    rewrite Pos.compare_refl. by destruct sa.
Qed.

Lemma lt_one_not_neg (v : float) : (1 <? v) = true -> (v <? 0) = false.
Proof.
  destruct Prim2SF_one as (m1 & e1 & H1).
  rewrite !ltb_spec, Prim2SF_zero, H1. unfold SFltb.
  destruct (Prim2SF v) as [s|s| |s m e]; cbn; try done; by destruct s.
Qed.

Lemma nan_not_neg (v : float) : is_nan v = true -> (v <? 0) = false.
Proof.
  unfold is_nan. rewrite ltb_spec, FloatAxioms.eqb_spec, Prim2SF_zero.
  unfold SFltb, SFeqb.
  destruct (Prim2SF v) as [s|s| |s m e] eqn:E; try done;
    rewrite SFcompare_refl; done.
Qed.

Lemma nonneg_not_neg (v : float) : (0 <=? v) = true -> (v <? 0) = false.
Proof.
  rewrite leb_spec, ltb_spec. unfold SFleb, SFltb.
  rewrite (SFcompare_antisym (Prim2SF 0) (Prim2SF v)).
  by destruct (SFcompare (Prim2SF 0) (Prim2SF v)) as [[]|].
Qed.

Lemma le_one_not_gt (v : float) : (v <=? 1) = true -> (1 <? v) = false.
Proof.
  rewrite leb_spec, ltb_spec. unfold SFleb, SFltb.
  rewrite (SFcompare_antisym (Prim2SF v) (Prim2SF 1)).
  by destruct (SFcompare (Prim2SF v) (Prim2SF 1)) as [[]|].
Qed.

Lemma unit_interval_finite (v : float) :
  (0 <=? v) = true -> (v <=? 1) = true -> is_finite v = true.
Proof.
  destruct Prim2SF_one as (m1 & e1 & H1).
  unfold is_finite, is_nan, is_infinity.
  rewrite !leb_spec, !FloatAxioms.eqb_spec, abs_spec, Prim2SF_zero, H1,
    Prim2SF_infinity.
  unfold SFleb, SFeqb.
  destruct (Prim2SF v) as [s|s| |s m e] eqn:E; try done.
  - by destruct s.
  - rewrite SFcompare_refl by done. done.
Qed.

(** ** Clamping *)

Lemma clamps_code (v : float) :
  clamps v (if v <? 0 then 0
            else if (1 <? v) || negb (isFinite v) || isNaN v then 1
            else v).
Proof.
  unfold clamps, isNaN, isFinite, Infinity. repeat split.
  - by intros ->.
  - intros Hv.
    assert ((v <? 0) = false) as ->.
    { destruct Hv as [Hv | [Hv | ->]];
        [by apply lt_one_not_neg | by apply nan_not_neg | reflexivity]. }
    destruct Hv as [-> | [-> | ->]]; [reflexivity | | reflexivity].
    by rewrite orb_true_r.
  - intros [H0 H1].
    pose proof (unit_interval_finite v H0 H1) as Hfin.
    assert (is_nan v = false) as Hnan.
    { unfold is_finite in Hfin. apply negb_true_iff, orb_false_iff in Hfin.
      tauto. }
    by rewrite (nonneg_not_neg v H0), (le_one_not_gt v H1), Hfin, Hnan.
Qed.

(** At minus infinity the test [val < 0] comes first: the setter stores
    0, the bound of [0, 1] nearest to the argument, and not 1. *)
Lemma restitution_of_negative_infinity :
  isFinite neg_infinity = false
  /\ exists s',
       Body.coefficientOfRestitution_set 0 neg_infinity one_body
         = (Normal 0%nat, s')
       /\ _cr <$> objs s' !! 0%nat = Some 0
       /\ 0 <> 1.
Proof.
  split; [reflexivity|]. eexists. split; [vm_compute; reflexivity|].
  split; [vm_compute; reflexivity|]. by apply float_neq.
Qed.

(** C4: for every input value [v], a binary64 number, the setter of the
    restitution coefficient returns normally and stores the clamp of [v]
    to [0, 1]: 0 when [v < 0], which takes in minus infinity, 1 when
    [v > 1], [v] is NaN or [v] is plus infinity, and [v] itself when
    [0 <= v <= 1]; the setter of the friction coefficient does the same
    on its field. *)
Theorem coefficient_setters_clamp
    (s : State) (this : ref) (b : body) (v : float) :
  objs s !! this = Some b ->
  (exists s' b',
     Body.coefficientOfRestitution_set this v s = (Normal this, s')
     /\ objs s' !! this = Some b' /\ clamps v (_cr b'))
  /\ (exists s' b',
        Body.coefficientOfFriction_set this v s = (Normal this, s')
        /\ objs s' !! this = Some b' /\ clamps v (μ b')).
Proof.
  intros Hb. pose proof (lookup_lt_Some _ _ _ Hb).
  split.
  - unfold Body.coefficientOfRestitution_set. prims. rewrite Hb.
    eexists _, _. split; [reflexivity|]. run. split; [reflexivity|].
    fields. apply clamps_code.
  - unfold Body.coefficientOfFriction_set. prims. rewrite Hb.
    eexists _, _. split; [reflexivity|]. run. split; [reflexivity|].
    fields. apply clamps_code.
Qed.

Lemma coefficient_setters_clamp_witness :
  (exists s' b',
     Body.coefficientOfRestitution_set 0 0.5 one_body = (Normal 0%nat, s')
     /\ objs s' !! 0%nat = Some b' /\ clamps 0.5 (_cr b'))
  /\ (exists s' b',
        Body.coefficientOfFriction_set 0 0.5 one_body = (Normal 0%nat, s')
        /\ objs s' !! 0%nat = Some b' /\ clamps 0.5 (μ b')).
Proof.
  eapply (coefficient_setters_clamp one_body 0 _ 0.5).
  vm_compute. reflexivity.
Defined.

(** * Polygon vertices: [setPath] and [setPolygon] *)

Lemma setPath_run (s : State) (this : ref) (b : body) (path : list vertex) :
  objs s !! this = Some b ->
  Earlier.setPath this path s =
    match _mode b with
    | DrawableBodyMode.Path =>
        (Normal this, with_objs (fun h => <[this := set_path path b]> h) s)
    | _ => (Throw NotPathError, s)
    end.
Proof.
  intros Hb. unfold Earlier.setPath. prims. rewrite Hb.
  destruct (_mode b); try reflexivity. by rewrite Hb.
Qed.

Lemma setPolygon_run
    (s : State) (this : ref) (b : body) (p : Vector) (vertices : list vertex) :
  objs s !! this = Some b ->
  vecs s !! _pos b = Some p ->
  exists s' b',
    DrawableBody.setPolygon this (Some vertices) s = (Normal this, s')
    /\ objs s' !! this = Some b'
    /\ _mode b' = DrawableBodyMode.Path
    /\ _path b' = vertices
    /\ _oPath b' = map (fun v : vertex => (fst v - x p, snd v - y p)) vertices.
Proof.
  intros Hb Hp.
  pose proof (lookup_lt_Some _ _ _ Hb). pose proof (lookup_lt_Some _ _ _ Hp).
  unfold DrawableBody.setPolygon, DrawableBody._calcBoundingBox.
  unfold bind at 1. unfold modBody at 1. rewrite Hb.
  unfold bind at 1. unfold bind at 1. unfold modBody at 1. run.
  unfold bind at 1.
  rewrite (mapM_read _ (fun v : vertex => (fst v - x p, snd v - y p)));
    [|intros v; prims; run; reflexivity].
  prims. run.
  destruct (DrawableBody.extent _ _ _) as [topleft bottomright].
  run. eexists _, _. split; [reflexivity|]. run. by split.
Qed.

Lemma setPolygon_null (s : State) (this : ref) (b : body) :
  objs s !! this = Some b ->
  DrawableBody.setPolygon this Datatypes.None s =
    (Normal this,
     with_objs (fun h => <[this := set_mode DrawableBodyMode.Path b]> h) s).
Proof.
  intros Hb. unfold DrawableBody.setPolygon. prims. by rewrite Hb.
Qed.

(** C8, as stated, fails for [setPolygon], the mutator of the current
    revision: called on a body in Rectangle mode it returns normally,
    having put the body in Path mode and stored the vertices. *)
Lemma setPolygon_outside_path_mode :
  result polygon_of_rectangle empty
    = Normal (DrawableBodyMode.Path, [(0, 0); (10, 0); (5, 8)]).
Proof. vm_compute. reflexivity. Qed.

(** C8 (amended): [setPath], the mutator of the earlier revision, throws
    its usage error whenever the body is not in Path mode, leaving the
    store as it was, and stores the path only in Path mode; [setPolygon],
    which replaced it, never throws: in every mode it first puts the body
    in Path mode and then stores the vertices. *)
Theorem polygon_mutators
    (s : State) (this : ref) (b : body) (p : Vector) (vertices : list vertex) :
  objs s !! this = Some b ->
  vecs s !! _pos b = Some p ->
  (_mode b <> DrawableBodyMode.Path ->
     Earlier.setPath this vertices s = (Throw NotPathError, s))
  /\ (_mode b = DrawableBodyMode.Path ->
        exists s',
          Earlier.setPath this vertices s = (Normal this, s')
          /\ _path <$> objs s' !! this = Some vertices)
  /\ (exists s' b',
        DrawableBody.setPolygon this (Some vertices) s = (Normal this, s')
        /\ objs s' !! this = Some b'
        /\ _mode b' = DrawableBodyMode.Path
        /\ _path b' = vertices).
Proof.
  intros Hb Hp. pose proof (lookup_lt_Some _ _ _ Hb).
  repeat split.
  - intros Hm. rewrite (setPath_run s this b) by done.
    by destruct (_mode b).
  - intros Hm. rewrite (setPath_run s this b) by done. rewrite Hm.
    eexists. split; [reflexivity|]. run. reflexivity.
  - destruct (setPolygon_run s this b p vertices Hb Hp)
      as (s' & b' & Hrun & Hb' & Hm & Hpath & _).
    eauto 10.
Qed.

Lemma polygon_mutators_witness :
  (DrawableBodyMode.Rectangle <> DrawableBodyMode.Path ->
     Earlier.setPath 0 [(0, 0); (10, 0); (5, 8)] one_body
       = (Throw NotPathError, one_body))
  /\ (exists s' b',
        DrawableBody.setPolygon 0 (Some [(0, 0); (10, 0); (5, 8)]) one_body
          = (Normal 0%nat, s')
        /\ objs s' !! 0%nat = Some b'
        /\ _mode b' = DrawableBodyMode.Path
        /\ _path b' = [(0, 0); (10, 0); (5, 8)]).
Proof.
  pose proof (polygon_mutators one_body 0 _ (createVector 0 0)
                [(0, 0); (10, 0); (5, 8)] eq_refl eq_refl) as (H1 & _ & H3).
  split; [exact H1 | exact H3].
Defined.

(** * Membership: [addBody] and [remove] *)

Lemma addBody_run (s : State) (W r : ref) (w : world) (b : body) :
  worlds s !! W = Some w -> objs s !! r = Some b ->
  World.addBody W r s =
    (Normal W,
     with_worlds (fun h => <[W := set_bodies (bodies w ++ [r]) w]> h)
       (with_objs (fun h => <[r := set_world (Some W) b]> h) s)).
Proof.
  intros Hw Hb. unfold World.addBody. prims. rewrite Hb. fields. by rewrite Hw.
Qed.

Lemma remove_run (s : State) (W body : ref) (w : world) :
  worlds s !! W = Some w ->
  exists r l,
    World.remove W body s =
      (Normal r, with_worlds (fun h => <[W := set_bodies l w]> h) s)
    /\ (forall c, c ∈ l -> c ∈ bodies w).
Proof.
  intros Hw. unfold World.remove. prims. rewrite Hw.
  destruct (World.indexOf (bodies w) body) as [i|].
  - rewrite Hw. eexists _, _. split; [reflexivity|].
    intros c. apply list_elem_of_delete_inv.
  - exists false, (bodies w). split; [|done].
    unfold with_worlds. rewrite list_insert_id; [by destruct s|].
    by destruct w.
Qed.

Lemma calls_run (ops : list op) (s : State) :
  Forall (known s) ops ->
  exists s',
    calls ops s = (Normal tt, s')
    /\ (forall body b, objs s !! body = Some b ->
          _world <$> objs s' !! body =
            Some (match lastAdded ops body with
                  | Some W => Some W
                  | Datatypes.None => _world b
                  end))
    /\ (forall W body w', worlds s' !! W = Some w' -> body ∈ bodies w' ->
          (exists w, worlds s !! W = Some w /\ body ∈ bodies w)
          \/ In (AddBody W body) ops).
Proof.
  revert s. induction ops as [|o ops IH]; intros s Hk.
  { exists s. split; [reflexivity|]. split.
    - intros body b ->. reflexivity.
    - intros W body w' Hw Hin. left. eauto. }
  inversion Hk as [|? ? Ho Hops]; subst.
  assert (exists s1,
    call o s = (Normal tt, s1)
    /\ length (worlds s1) = length (worlds s)
    /\ length (objs s1) = length (objs s)
    /\ (forall body b, objs s !! body = Some b ->
          exists b1, objs s1 !! body = Some b1
            /\ _world b1 =
                 match o with
                 | AddBody W body' =>
                     if Nat.eqb body' body then Some W else _world b
                 | Remove _ _ => _world b
                 end)
    /\ (forall W body w1, worlds s1 !! W = Some w1 -> body ∈ bodies w1 ->
          (exists w, worlds s !! W = Some w /\ body ∈ bodies w)
          \/ o = AddBody W body)) as (s1 & Hrun & Hlw & Hlo & Hback & Hmem).
  { destruct o as [W body | W body]; destruct Ho as [HW Hbody];
      destruct (lookup_lt_is_Some_2 _ _ HW) as [w Hw].
    - destruct (lookup_lt_is_Some_2 _ _ Hbody) as [b Hb].
      eexists. cbn [call]. unfold bind at 1.
      rewrite (addBody_run s W body w b Hw Hb). cbn [ret].
      split; [reflexivity|]. fields.
      split; [by rewrite length_insert|]. split; [by rewrite length_insert|].
      split.
      + intros body' b' Hb'. destruct (Nat.eqb_spec body body') as [<-|Hne].
        * rewrite list_lookup_insert_eq by done. eauto.
        * rewrite list_lookup_insert_ne by done. eauto.
      + intros W' body' w1 Hw1 Hin.
        destruct (decide (W = W')) as [<-|Hne].
        * rewrite list_lookup_insert_eq in Hw1 by done.
          injection Hw1 as <-. cbn [bodies set_bodies] in Hin.
          apply elem_of_app in Hin as [Hin | Hin%list_elem_of_singleton].
          -- left. eauto.
          -- right. by subst.
        * rewrite list_lookup_insert_ne in Hw1 by done. left. eauto.
    - destruct (remove_run s W body w Hw) as (r & l & Hrun & Hsub).
      eexists. cbn [call]. unfold bind at 1. rewrite Hrun. cbn [ret].
      split; [reflexivity|]. fields.
      split; [by rewrite length_insert|]. split; [done|].
      split; [eauto|].
      intros W' body' w1 Hw1 Hin. left.
      destruct (decide (W = W')) as [<-|Hne].
      + rewrite list_lookup_insert_eq in Hw1 by done.
        injection Hw1 as <-. cbn [bodies set_bodies] in Hin. eauto.
      + rewrite list_lookup_insert_ne in Hw1 by done. eauto. }
  destruct (IH s1) as (s' & Hrun' & Hback' & Hmem').
  { eapply Forall_impl; [exact Hops|].
    intros [W body | W body]; cbn [known]; by rewrite Hlw, Hlo. }
  exists s'. unfold calls in *. cbn [forEach]. unfold bind at 1.
  rewrite Hrun. split; [exact Hrun'|]. split.
  - intros body b Hb. destruct (Hback body b Hb) as (b1 & Hb1 & Hw1).
    rewrite (Hback' body b1 Hb1). cbn [lastAdded].
    destruct (lastAdded ops body); [reflexivity|]. rewrite Hw1.
    destruct o as [W body' | W body']; [|reflexivity].
    by destruct (Nat.eqb body' body).
  - intros W body w' Hw' Hin.
    destruct (Hmem' W body w' Hw' Hin) as [(w1 & Hw1 & Hin1) | Hadd].
    + destruct (Hmem W body w1 Hw1 Hin1) as [Hold | ->]; [by left|].
      right. by left.
    + right. by right.
Qed.

(** C9, as stated, fails: [addBody] does not take the body out of the
    world it was in, and [remove] does not clear the back-reference.  A
    body added to two worlds is in both collections; removed from the
    second, it still refers to it while the first one holds it. *)
Lemma body_in_two_worlds :
  result shared_body empty
    = Normal (([0%nat], [0%nat]), ([0%nat], [], Some 1%nat)).
Proof. vm_compute. reflexivity. Qed.

(** C9 (amended): after any sequence of [addBody] and [remove] calls on
    any worlds, the back-reference of a body is the world of the latest
    [addBody] on it, or what it was before when there was none ([remove]
    never clears it), and a world's collection holds a body only if it
    held it before or the body was added to that world. *)
Theorem membership_after_calls (ops : list op) (s : State) :
  Forall (known s) ops ->
  exists s',
    calls ops s = (Normal tt, s')
    /\ (forall body b, objs s !! body = Some b ->
          _world <$> objs s' !! body =
            Some (match lastAdded ops body with
                  | Some W => Some W
                  | Datatypes.None => _world b
                  end))
    /\ (forall W body w', worlds s' !! W = Some w' -> body ∈ bodies w' ->
          (exists w, worlds s !! W = Some w /\ body ∈ bodies w)
          \/ In (AddBody W body) ops).
Proof. apply calls_run. Qed.

Lemma membership_after_calls_witness :
  exists s',
    calls [AddBody 0 0; AddBody 1 0; Remove 1 0] two_worlds = (Normal tt, s')
    /\ (forall body b, objs two_worlds !! body = Some b ->
          _world <$> objs s' !! body =
            Some (match lastAdded [AddBody 0 0; AddBody 1 0; Remove 1 0] body with
                  | Some W => Some W
                  | Datatypes.None => _world b
                  end))
    /\ (forall W body w', worlds s' !! W = Some w' -> body ∈ bodies w' ->
          (exists w, worlds two_worlds !! W = Some w /\ body ∈ bodies w)
          \/ In (AddBody W body) [AddBody 0 0; AddBody 1 0; Remove 1 0]).
Proof.
  apply (membership_after_calls [AddBody 0 0; AddBody 1 0; Remove 1 0] two_worlds).
  repeat constructor; vm_compute; lia.
Defined.

(** * The position accessor *)

(** Equality of numbers is symmetric. *)
Lemma float_eqb_sym (a b : float) : (a =? b) = (b =? a).
Proof.
  rewrite !FloatAxioms.eqb_spec. unfold SFeqb.
  rewrite (SFcompare_antisym (Prim2SF a) (Prim2SF b)).
  by destruct (SFcompare (Prim2SF a) (Prim2SF b)) as [[]|].
Qed.

(** [v || 0] is equal in value to [v] unless [v] is NaN. *)
Lemma or0_eqb (v : float) : isNaN v = false -> (or0 v =? v) = true.
Proof.
  unfold or0, isNaN. intros Hv. rewrite Hv.
  destruct (v =? 0) eqn:E; cbn [orb].
  - by rewrite float_eqb_sym.
  - unfold is_nan in Hv. by apply negb_false_iff in Hv.
Qed.

(** C7, as stated, fails for a vector with a component that is NaN: the
    copies go through the constructor of [p5.Vector], which stores
    [x || 0], so the position that is read back has 0 where the vector
    has NaN.  The two are different numbers, and they are not equal by
    [==] either. *)
Lemma pos_of_nan_vector :
  result nan_position empty
    = Normal (createVector nan 0, createVector 0 0)
  /\ x (createVector 0 0) <> x (createVector nan 0)
  /\ (x (createVector 0 0) =? x (createVector nan 0)) = false.
Proof.
  split; [vm_compute; reflexivity|].
  split; [by apply float_neq|vm_compute; reflexivity].
Qed.

(** C7 (amended): [pos(v)] followed by [pos()] returns a vector with the
    components [v.x || 0] and [v.y || 0], which is the position of the
    body.  It is equal in value to [v] when no component of [v] is NaN (a
    component -0 is read back as 0); a NaN component is read back as 0.
    The body keeps a copy of its own, so writing to the vector that
    [pos()] returned, or to [v] after the call of the setter, leaves the
    position of the body as it was set. *)
Theorem pos_round_trip
    (s : State) (this v : ref) (b : body) (val : Vector) :
  objs s !! this = Some b ->
  vecs s !! v = Some val ->
  exists s1 s2 r,
    Body.pos_set this v s = (Normal this, s1)
    /\ Body.pos this s1 = (Normal r, s2)
    /\ vecs s2 !! r = Some (copied val)
    /\ posOf s2 this = Some (copied val)
    /\ (isNaN (x val) = false -> (x (copied val) =? x val) = true)
    /\ (isNaN (y val) = false -> (y (copied val) =? y val) = true)
    /\ (forall val', posOf (exec (setVector r val') s2) this = Some (copied val))
    /\ (forall val', posOf (exec (setVector v val') s1) this = Some (copied val))
    /\ (forall val', posOf (exec (setVector v val') s2) this = Some (copied val)).
Proof.
  intros Hb Hv.
  pose proof (lookup_lt_Some _ _ _ Hb). pose proof (lookup_lt_Some _ _ _ Hv).
  rewrite (pos_set_run s this v b val Hb Hv).
  unfold moved. fields.
  destruct (_mode b) eqn:Hmode.
  all: eexists _, _, _; (split; [reflexivity|]).
  all: split; [unfold Body.pos; accessors; prims; run; reflexivity|].
  all: unfold posOf, exec; prims; run.
  all: split; [exact (f_equal Some (copied_copied val))|].
  all: cbn [mbind option_bind]; run.
  all: split; [reflexivity|].
  all: split; [apply or0_eqb|].
  all: split; [apply or0_eqb|].
  all: repeat split; intros val'; run.
  all: cbn [mbind option_bind]; run; reflexivity.
Qed.

Lemma pos_round_trip_witness :
  exists s1 s2 r,
    Body.pos_set 0 5 one_body = (Normal 0%nat, s1)
    /\ Body.pos 0 s1 = (Normal r, s2)
    /\ vecs s2 !! r = Some (createVector 1 2)
    /\ posOf s2 0 = Some (createVector 1 2)
    /\ (forall val', posOf (exec (setVector r val') s2) 0 = Some (createVector 1 2))
    /\ (forall val', posOf (exec (setVector 5 val') s1) 0 = Some (createVector 1 2))
    /\ (forall val', posOf (exec (setVector 5 val') s2) 0 = Some (createVector 1 2)).
Proof.
  edestruct (pos_round_trip one_body 0 5)
    as (s1 & s2 & r & Hset & Hget & Hr & Hpos & _ & _ & H1 & H2 & H3);
    [vm_compute; reflexivity ..|].
  exists s1, s2, r. repeat split; assumption.
Defined.

(** * Edges *)

(** C5: in a world in Bounce mode, [edges()] on a body whose x-position is
    below the left bound [Wx] and whose y-position is neither below [Wy]
    nor above [Wy + Wh] sets the x-position to [Wx] and negates the
    x-velocity; the y-position and the y-velocity stay as they were.  The
    position and the velocity of a body are two vector objects. *)
Theorem bounce_left_edge
    (s : State) (this w : ref) (b : body) (W : world) (p v : Vector) :
  objs s !! this = Some b ->
  _world b = Some w ->
  worlds s !! w = Some W ->
  edgeMode W = EdgeMode.Bounce ->
  vecs s !! _pos b = Some p ->
  vecs s !! _vel b = Some v ->
  _pos b <> _vel b ->
  (x p <? Wx W) = true ->
  (y p <? Wy W) = false ->
  (Wy W + Wh W <? y p) = false ->
  exists s',
    Body.edges this s = (Normal tt, s')
    /\ posOf s' this = Some (createVector (Wx W) (y p))
    /\ velOf s' this = Some (createVector (- x v) (y v)).
Proof.
  intros Hb Hw HW Hmode Hp Hv Hne Hx Hy1 Hy2.
  pose proof (lookup_lt_Some _ _ _ Hb). pose proof (lookup_lt_Some _ _ _ Hp).
  pose proof (lookup_lt_Some _ _ _ Hv).
  unfold Body.edges.
  unfold bind at 1. unfold getBody at 1. rewrite Hb, Hw.
  unfold bind at 1. unfold getWorld at 1. rewrite HW, Hmode.
  unfold bind at 1. unfold bind at 1. unfold Body.posX at 1. prims.
  rewrite Hb, Hp. fields. rewrite Hx.
  unfold Body.posX_set. prims. rewrite Hb, Hp. run.
  erewrite cbChangePos_run by (run; reflexivity).
  unfold moved. fields.
  destruct (_mode b) eqn:Hm.
  all: accessors; prims; repeat (progress (run; rewrite ?Hy1, ?Hy2)).
  all: eexists; (split; [reflexivity|]).
  all: unfold posOf, velOf; run; cbn [mbind option_bind]; run.
  all: done.
Qed.

Lemma bounce_left_edge_witness :
  exists s',
    Body.edges 0 out_on_the_left = (Normal tt, s')
    /\ posOf s' 0 = Some (createVector 0 100)
    /\ velOf s' 0 = Some (createVector 2 1).
Proof.
  eapply (bounce_left_edge out_on_the_left 0 0 _
            (mkWorld 0 0 400 400 [0%nat] (Some 0%nat) EdgeMode.Bounce true false)
            (createVector (-3) 100) (createVector (-2) 1));
    try (vm_compute; reflexivity).
  vm_compute. lia.
Defined.

(** * Collision response *)

Lemma collide_dynamic
    (s : State) (a b : ref) (A B : body) (ua ub : Vector) :
  objs s !! a = Some A ->
  objs s !! b = Some B ->
  a <> b ->
  vecs s !! _vel A = Some ua ->
  vecs s !! _vel B = Some ub ->
  solid A = true -> solid B = true ->
  static A = false -> static B = false ->
  exists s',
    Body.collide a b s = (Normal tt, s')
    /\ velOf s' a =
         Some (response (_cr A) (_mass B) ub ua
                 (scaled (copied ua) (_mass A)) (scaled (copied ub) (_mass B))
                 (_mass A + _mass B))
    /\ velOf s' b =
         Some (response (_cr B) (_mass A) ua ub
                 (scaled (copied ua) (_mass A)) (scaled (copied ub) (_mass B))
                 (_mass A + _mass B)).
Proof.
  intros Ha Hb Hab Hua Hub HsA HsB HtA HtB.
  pose proof (lookup_lt_Some _ _ _ Ha). pose proof (lookup_lt_Some _ _ _ Hb).
  pose proof (lookup_lt_Some _ _ _ Hua). pose proof (lookup_lt_Some _ _ _ Hub).
  unfold Body.collide, Body.trace_collide.
  unfold bind at 1. unfold bind at 1. unfold getBody at 1. fields. rewrite Ha.
  unfold bind at 1. unfold getBody at 1. fields. rewrite Hb.
  rewrite HsA, HsB, HtA, HtB. fields.
  accessors. prims. run.
  eexists. split; [reflexivity|].
  unfold velOf, response. run. cbn [mbind option_bind]. run. done.
Qed.

Lemma set_vel_same (C : body) : C = set_vel (_vel C) C.
Proof. by destruct C. Qed.

Ltac frame_goal :=
  unfold only_velocities; fields;
  split; [reflexivity|];
  split;
  [ let r := fresh "r" in let v := fresh "v" in let Hr := fresh "Hr" in
    intros r v Hr; pose proof (lookup_lt_Some _ _ _ Hr); run;
    first [exact Hr | reflexivity]
  | ].

Lemma collide_frame
    (s : State) (a b : ref) (A B : body) (ua ub : Vector) :
  objs s !! a = Some A ->
  objs s !! b = Some B ->
  vecs s !! _vel A = Some ua ->
  vecs s !! _vel B = Some ub ->
  exists s',
    Body.collide a b s = (Normal tt, s') /\ only_velocities a b s s'.
Proof.
  intros Ha Hb Hua Hub.
  pose proof (lookup_lt_Some _ _ _ Ha). pose proof (lookup_lt_Some _ _ _ Hb).
  pose proof (lookup_lt_Some _ _ _ Hua). pose proof (lookup_lt_Some _ _ _ Hub).
  unfold Body.collide, Body.trace_collide.
  unfold bind at 1. unfold bind at 1. unfold getBody at 1. fields. rewrite Ha.
  unfold bind at 1. unfold getBody at 1. fields. rewrite Hb.
  destruct (decide (a = b)) as [->|Hab].
  - assert (A = B) as -> by congruence.
    assert (ua = ub) as -> by congruence.
    destruct (solid B), (static B); fields.
    all: accessors; prims; run.
    all: eexists; (split; [reflexivity|]); frame_goal.
    all: intros c C Hc; destruct (decide (c = b)) as [->|Hc'].
    all: run; eexists; (split; [reflexivity|]).
    all: try (split; [|done]).
    all: try (assert (C = B) as -> by congruence).
    all: try reflexivity; try apply set_vel_same; try (split; [apply set_vel_same|done]).
  - destruct (solid A), (solid B), (static A), (static B); fields.
    all: accessors; prims; run.
    all: eexists; (split; [reflexivity|]); frame_goal.
    all: intros c C Hc; destruct (decide (c = b)) as [->|Hcb];
      [|destruct (decide (c = a)) as [->|Hca]].
    all: run; eexists; (split; [reflexivity|]).
    all: try (split; [|done]).
    all: try (assert (C = B) as -> by congruence).
    all: try (assert (C = A) as -> by congruence).
    all: try reflexivity; try apply set_vel_same; try (split; [apply set_vel_same|done]).
Qed.

(** ** One body static *)

(** The first branch: [a] is static. *)
Lemma collide_static_first
    (s : State) (a b : ref) (A B : body) (ua ub : Vector) :
  objs s !! a = Some A ->
  objs s !! b = Some B ->
  a <> b ->
  vecs s !! _vel A = Some ua ->
  vecs s !! _vel B = Some ub ->
  solid A = true -> solid B = true ->
  static A = true ->
  exists s',
    Body.collide a b s = (Normal tt, s')
    /\ velOf s' a = Some ua
    /\ velOf s' b = Some (copied (scaled (copied ub) (- _cr B))).
Proof.
  intros Ha Hb Hab Hua Hub HsA HsB HtA.
  pose proof (lookup_lt_Some _ _ _ Ha). pose proof (lookup_lt_Some _ _ _ Hb).
  pose proof (lookup_lt_Some _ _ _ Hua). pose proof (lookup_lt_Some _ _ _ Hub).
  unfold Body.collide, Body.trace_collide.
  unfold bind at 1. unfold bind at 1. unfold getBody at 1. fields. rewrite Ha.
  unfold bind at 1. unfold getBody at 1. fields. rewrite Hb.
  rewrite HsA, HsB, HtA. fields.
  accessors. prims. run.
  eexists. split; [reflexivity|].
  unfold velOf. run. cbn [mbind option_bind]. run. done.
Qed.

(** The second branch: [b] is static and [a] is not.  The reflected
    velocity of [a] is stored in [b]. *)
Lemma collide_static_second
    (s : State) (a b : ref) (A B : body) (ua ub : Vector) :
  objs s !! a = Some A ->
  objs s !! b = Some B ->
  a <> b ->
  vecs s !! _vel A = Some ua ->
  vecs s !! _vel B = Some ub ->
  solid A = true -> solid B = true ->
  static A = false -> static B = true ->
  exists s',
    Body.collide a b s = (Normal tt, s')
    /\ velOf s' a = Some ua
    /\ velOf s' b = Some (copied (scaled (copied ua) (- _cr A))).
Proof.
  intros Ha Hb Hab Hua Hub HsA HsB HtA HtB.
  pose proof (lookup_lt_Some _ _ _ Ha). pose proof (lookup_lt_Some _ _ _ Hb).
  pose proof (lookup_lt_Some _ _ _ Hua). pose proof (lookup_lt_Some _ _ _ Hub).
  unfold Body.collide, Body.trace_collide.
  unfold bind at 1. unfold bind at 1. unfold getBody at 1. fields. rewrite Ha.
  unfold bind at 1. unfold getBody at 1. fields. rewrite Hb.
  rewrite HsA, HsB, HtA, HtB. fields.
  accessors. prims. run.
  eexists. split; [reflexivity|].
  unfold velOf. run. cbn [mbind option_bind]. run. done.
Qed.

(** The revision before: both branches change the dynamic body, in
    place. *)
Lemma previous_collide_static
    (s : State) (a b : ref) (A B : body) (ua ub : Vector) :
  objs s !! a = Some A ->
  objs s !! b = Some B ->
  _vel A <> _vel B ->
  vecs s !! _vel A = Some ua ->
  vecs s !! _vel B = Some ub ->
  solid A = true -> solid B = true ->
  (static A = true ->
     exists s',
       Previous.collide a b s = (Normal tt, s')
       /\ velOf s' a = Some ua
       /\ velOf s' b = Some (scaled ub (- _cr B)))
  /\ (static A = false -> static B = true ->
        exists s',
          Previous.collide a b s = (Normal tt, s')
          /\ velOf s' a = Some (scaled ua (- _cr A))
          /\ velOf s' b = Some ub).
Proof.
  intros Ha Hb Hab Hua Hub HsA HsB.
  pose proof (lookup_lt_Some _ _ _ Ha). pose proof (lookup_lt_Some _ _ _ Hb).
  pose proof (lookup_lt_Some _ _ _ Hua). pose proof (lookup_lt_Some _ _ _ Hub).
  split; [intros HtA | intros HtA HtB].
  all: unfold Previous.collide, Previous.console_log, Body.trace_collide.
  all: unfold bind at 1; unfold bind at 1; unfold getBody at 1; fields; rewrite Ha.
  all: unfold bind at 1; unfold getBody at 1; fields; rewrite Hb.
  all: rewrite HsA, HsB, HtA, ?HtB; fields.
  all: accessors; prims; run.
  all: eexists; (split; [reflexivity|]).
  all: unfold velOf; run; cbn [mbind option_bind]; run; done.
Qed.

(** C1 at the failing input: with the dynamic body as the first argument
    and the static body as the second, [collide] keeps the velocity (5, 2)
    of the dynamic body and gives the static body the velocity
    -0.8 * (5, 2); with the arguments the other way round, and in both
    orders in the revision before, the dynamic body gets -0.8 * (5, 2)
    and the static body stays at rest. *)
Lemma collide_static_second_changes_static_body :
  result (dynamic_hits_static Body.collide) empty
    = Normal (createVector 5 2, createVector (5 * -0.8) (2 * -0.8))
  /\ result (static_hits_dynamic Body.collide) empty
       = Normal (createVector (5 * -0.8) (2 * -0.8), createVector 0 0)
  /\ result (dynamic_hits_static Previous.collide) empty
       = Normal (createVector (5 * -0.8) (2 * -0.8), createVector 0 0)
  /\ result (static_hits_dynamic Previous.collide) empty
       = Normal (createVector (5 * -0.8) (2 * -0.8), createVector 0 0).
Proof. repeat split; vm_compute; reflexivity. Qed.

(** ** Two dynamic bodies *)

(** C2: two solid, non-static bodies of mass 1 and restitution 1 with the
    velocities (2, 0) and (-2, 0) leave [collide] with the velocities
    (-2, 0) and (2, 0).  Both are computed from the velocities before the
    call, see [collide_dynamic]: the new velocity of [b] is not computed
    from the new velocity of [a]. *)
Theorem head_on_elastic_exchange (s : State) (a b : ref) (A B : body) :
  objs s !! a = Some A ->
  objs s !! b = Some B ->
  static A = false -> static B = false ->
  solid A = true -> solid B = true ->
  _mass A = 1 -> _mass B = 1 ->
  _cr A = 1 -> _cr B = 1 ->
  vecs s !! _vel A = Some (createVector 2 0) ->
  vecs s !! _vel B = Some (createVector (-2) 0) ->
  exists s',
    Body.collide a b s = (Normal tt, s')
    /\ velOf s' a = Some (createVector (-2) 0)
    /\ velOf s' b = Some (createVector 2 0).
Proof.
  intros Ha Hb HtA HtB HsA HsB HmA HmB HeA HeB Hua Hub.
  assert (a <> b) as Hab.
  { intros ->. assert (A = B) as -> by congruence.
    rewrite Hua in Hub.
    apply (f_equal (fun o : option Vector => from_option x 0 o)) in Hub.
    cbn [from_option x] in Hub. revert Hub. by apply float_neq. }
  destruct (collide_dynamic s a b A B _ _ Ha Hb Hab Hua Hub HsA HsB HtA HtB)
    as (s' & Hrun & Hva & Hvb).
  exists s'. split; [exact Hrun|].
  rewrite Hva, Hvb, HmA, HmB, HeA, HeB. by split.
Qed.

Lemma head_on_elastic_exchange_witness :
  exists s',
    Body.collide 0 1 head_on = (Normal tt, s')
    /\ velOf s' 0 = Some (createVector (-2) 0)
    /\ velOf s' 1 = Some (createVector 2 0).
Proof.
  eapply (head_on_elastic_exchange head_on 0 1); vm_compute; reflexivity.
Defined.

(** ** What [collide] leaves alone *)

Lemma previous_collide_frame
    (s : State) (a b : ref) (A B : body) (ua ub : Vector) :
  objs s !! a = Some A ->
  objs s !! b = Some B ->
  vecs s !! _vel A = Some ua ->
  vecs s !! _vel B = Some ub ->
  exists s',
    Previous.collide a b s = (Normal tt, s')
    /\ objs s' = objs s
    /\ worlds s' = worlds s
    /\ (forall r v, vecs s !! r = Some v -> r <> _vel A -> r <> _vel B ->
          vecs s' !! r = Some v).
Proof.
  intros Ha Hb Hua Hub.
  pose proof (lookup_lt_Some _ _ _ Ha). pose proof (lookup_lt_Some _ _ _ Hb).
  pose proof (lookup_lt_Some _ _ _ Hua). pose proof (lookup_lt_Some _ _ _ Hub).
  unfold Previous.collide, Previous.console_log, Body.trace_collide.
  unfold bind at 1. unfold bind at 1. unfold getBody at 1. fields. rewrite Ha.
  unfold bind at 1. unfold getBody at 1. fields. rewrite Hb.
  destruct (decide (_vel A = _vel B)) as [E|E].
  - rewrite E in *. assert (ua = ub) as -> by congruence.
    destruct (solid A), (solid B), (static A), (static B); fields.
    all: accessors; prims; run.
    all: eexists; (split; [reflexivity|]); fields.
    all: split; [reflexivity|]; split; [reflexivity|].
    all: intros r v Hr Hr1 Hr2; pose proof (lookup_lt_Some _ _ _ Hr); run.
    all: first [exact Hr | reflexivity].
  - destruct (solid A), (solid B), (static A), (static B); fields.
    all: accessors; prims; run.
    all: eexists; (split; [reflexivity|]); fields.
    all: split; [reflexivity|]; split; [reflexivity|].
    all: intros r v Hr Hr1 Hr2; pose proof (lookup_lt_Some _ _ _ Hr); run.
    all: first [exact Hr | reflexivity].
Qed.

(** C10: [collide(a, b)] returns normally and changes nothing but the
    velocities of [a] and [b].  In the current revision the worlds are
    the same, every vector object that existed keeps its components (the
    positions, accelerations and bounding boxes among them) and every
    body keeps all its fields but [_vel], which refers to a new vector;
    in the revision before, no field of any body changes and only the two
    velocity vectors are written to.  No body is moved. *)
Theorem collide_changes_only_velocities
    (s : State) (a b : ref) (A B : body) (ua ub : Vector) :
  objs s !! a = Some A ->
  objs s !! b = Some B ->
  vecs s !! _vel A = Some ua ->
  vecs s !! _vel B = Some ub ->
  (exists s',
     Body.collide a b s = (Normal tt, s') /\ only_velocities a b s s')
  /\ (exists s',
        Previous.collide a b s = (Normal tt, s')
        /\ objs s' = objs s
        /\ worlds s' = worlds s
        /\ (forall r v, vecs s !! r = Some v -> r <> _vel A -> r <> _vel B ->
              vecs s' !! r = Some v)).
Proof.
  intros Ha Hb Hua Hub. split.
  - by apply collide_frame with A B ua ub.
  - by apply previous_collide_frame with ua ub.
Qed.

Lemma collide_changes_only_velocities_witness :
  (exists s',
     Body.collide 0 1 head_on = (Normal tt, s')
     /\ only_velocities 0 1 head_on s')
  /\ (exists s',
        Previous.collide 0 1 head_on = (Normal tt, s')
        /\ objs s' = objs head_on
        /\ worlds s' = worlds head_on).
Proof.
  edestruct (collide_changes_only_velocities head_on 0 1)
    as [Hcurrent (s' & Hrun & Hobjs & Hworlds & _)];
    [vm_compute; reflexivity ..|].
  split; [exact Hcurrent|]. exists s'. split; [exact Hrun|]. split; assumption.
Defined.

(** * The collision sweep of [World.update] *)

(** ** Computations that leave the worlds and the trace alone *)

Definition keeps {A} (m : M A) : Prop :=
  forall s, worlds (snd (m s)) = worlds s
            /\ collided (snd (m s)) = collided s.

Lemma keeps_ret {A} (a : A) : keeps (ret a).
Proof. by intros s. Qed.

Lemma keeps_throw {A} (e : exn) : keeps (@throw A e).
Proof. by intros s. Qed.

Lemma keeps_bind {A B} (m : M A) (k : A -> M B) :
  keeps m -> (forall a, keeps (k a)) -> keeps (bind m k).
Proof.
  intros Hm Hk s. unfold bind. specialize (Hm s).
  destruct (m s) as [[a|e] s1]; cbn [snd] in *; [|done].
  destruct (Hk a s1) as [H1 H2]. by rewrite H1, H2.
Qed.

Lemma keeps_getVector r : keeps (getVector r).
Proof. intros s. unfold getVector. by destruct (vecs s !! r). Qed.

Lemma keeps_setVector r v : keeps (setVector r v).
Proof. intros s. unfold setVector. by destruct (vecs s !! r). Qed.

Lemma keeps_newVector v : keeps (newVector v).
Proof. by intros s. Qed.

Lemma keeps_getBody r : keeps (getBody r).
Proof. intros s. unfold getBody. by destruct (objs s !! r). Qed.

Lemma keeps_modBody r f : keeps (modBody r f).
Proof. intros s. unfold modBody. by destruct (objs s !! r). Qed.

Lemma keeps_getWorld r : keeps (getWorld r).
Proof. intros s. unfold getWorld. by destruct (worlds s !! r). Qed.

Lemma keeps_console_warn : keeps console_warn.
Proof. by intros s. Qed.

Lemma keeps_mapM {A B} (f : A -> M B) (l : list A) :
  (forall a, keeps (f a)) -> keeps (mapM f l).
Proof.
  intros Hf. induction l as [|a l IH]; cbn [mapM].
  - apply keeps_ret.
  - apply keeps_bind; [apply Hf|]. intros b.
    apply keeps_bind; [apply IH|]. intros bs. apply keeps_ret.
Qed.

Lemma keeps_forEach {A} (f : A -> M unit) (l : list A) :
  (forall a, keeps (f a)) -> keeps (forEach l f).
Proof.
  intros Hf. induction l as [|a l IH]; cbn [forEach].
  - apply keeps_ret.
  - apply keeps_bind; [apply Hf|]. intros _. apply IH.
Qed.

Create HintDb keeps.
#[local] Hint Resolve keeps_ret keeps_throw keeps_getVector keeps_setVector
  keeps_newVector keeps_getBody keeps_modBody keeps_getWorld
  keeps_console_warn : keeps.

(** Goes through a computation along its binds and branches. *)
Ltac keeps_tac :=
  repeat first
    [ solve [auto with keeps]
    | apply keeps_bind; [|intros ?]
    | apply keeps_mapM; intros ?
    | apply keeps_forEach; intros ?
    | match goal with
      | |- keeps (match ?c with _ => _ end) => destruct c
      end ].

Lemma keeps_copy r : keeps (p5_Vector.copy r).
Proof. unfold p5_Vector.copy. keeps_tac. Qed.
Lemma keeps_add r v : keeps (p5_Vector.add r v).
Proof. unfold p5_Vector.add. keeps_tac. Qed.
Lemma keeps_sub r v : keeps (p5_Vector.sub r v).
Proof. unfold p5_Vector.sub. keeps_tac. Qed.
Lemma keeps_mult r n : keeps (p5_Vector.mult r n).
Proof. unfold p5_Vector.mult. keeps_tac. Qed.
Lemma keeps_div r n : keeps (p5_Vector.div r n).
Proof. unfold p5_Vector.div. keeps_tac. Qed.
Lemma keeps_mag r : keeps (p5_Vector.mag r).
Proof. unfold p5_Vector.mag. keeps_tac. Qed.
#[local] Hint Resolve keeps_copy keeps_add keeps_sub keeps_mult keeps_div
  keeps_mag : keeps.

Lemma keeps_static_div r n : keeps (p5_Vector.static_div r n).
Proof. unfold p5_Vector.static_div. keeps_tac. Qed.
Lemma keeps_static_mult r n : keeps (p5_Vector.static_mult r n).
Proof. unfold p5_Vector.static_mult. keeps_tac. Qed.
Lemma keeps_cbChangePos this : keeps (cbChangePos this).
Proof. unfold cbChangePos. keeps_tac. Qed.
Lemma keeps_cbChangeVel this : keeps (cbChangeVel this).
Proof. unfold cbChangeVel. keeps_tac. Qed.
#[local] Hint Resolve keeps_static_div keeps_static_mult keeps_cbChangePos
  keeps_cbChangeVel : keeps.

Lemma keeps_pos this : keeps (Body.pos this).
Proof. unfold Body.pos. keeps_tac. Qed.
Lemma keeps_pos_set this v : keeps (Body.pos_set this v).
Proof. unfold Body.pos_set. keeps_tac. Qed.
Lemma keeps_posX this : keeps (Body.posX this).
Proof. unfold Body.posX. keeps_tac. Qed.
Lemma keeps_posX_set this v : keeps (Body.posX_set this v).
Proof. unfold Body.posX_set. keeps_tac. Qed.
Lemma keeps_posY this : keeps (Body.posY this).
Proof. unfold Body.posY. keeps_tac. Qed.
Lemma keeps_posY_set this v : keeps (Body.posY_set this v).
Proof. unfold Body.posY_set. keeps_tac. Qed.
Lemma keeps_vel this : keeps (Body.vel this).
Proof. unfold Body.vel. keeps_tac. Qed.
Lemma keeps_vel_set this v : keeps (Body.vel_set this v).
Proof. unfold Body.vel_set. keeps_tac. Qed.
Lemma keeps_velX this : keeps (Body.velX this).
Proof. unfold Body.velX. keeps_tac. Qed.
Lemma keeps_velX_set this v : keeps (Body.velX_set this v).
Proof. unfold Body.velX_set. keeps_tac. Qed.
Lemma keeps_velY this : keeps (Body.velY this).
Proof. unfold Body.velY. keeps_tac. Qed.
Lemma keeps_velY_set this v : keeps (Body.velY_set this v).
Proof. unfold Body.velY_set. keeps_tac. Qed.
Lemma keeps_acc this : keeps (Body.acc this).
Proof. unfold Body.acc. keeps_tac. Qed.
Lemma keeps_acc_set this v : keeps (Body.acc_set this v).
Proof. unfold Body.acc_set. keeps_tac. Qed.
Lemma keeps_mass this : keeps (Body.mass this).
Proof. unfold Body.mass. keeps_tac. Qed.
Lemma keeps_coefficientOfRestitution this :
  keeps (Body.coefficientOfRestitution this).
Proof. unfold Body.coefficientOfRestitution. keeps_tac. Qed.
#[local] Hint Resolve keeps_pos keeps_pos_set keeps_posX keeps_posX_set
  keeps_posY keeps_posY_set keeps_vel keeps_vel_set keeps_velX keeps_velX_set
  keeps_velY keeps_velY_set keeps_acc keeps_acc_set keeps_mass
  keeps_coefficientOfRestitution : keeps.

Lemma keeps_update this : keeps (Body.update this).
Proof. unfold Body.update. keeps_tac. Qed.
Lemma keeps_applyForce this f : keeps (Body.applyForce this f).
Proof. unfold Body.applyForce. keeps_tac. Qed.
Lemma keeps_edges this : keeps (Body.edges this).
Proof. unfold Body.edges. keeps_tac. Qed.
Lemma keeps_calcBoundingBox this : keeps (DrawableBody._calcBoundingBox this).
Proof. unfold DrawableBody._calcBoundingBox. keeps_tac. Qed.
#[local] Hint Resolve keeps_update keeps_applyForce keeps_edges
  keeps_calcBoundingBox : keeps.

Lemma keeps_DrawableBody_update this : keeps (DrawableBody.update this).
Proof. unfold DrawableBody.update. keeps_tac. Qed.
#[local] Hint Resolve keeps_DrawableBody_update : keeps.

(** [collide] keeps the worlds and adds its call to the trace. *)
Lemma trace_then (a b : ref) (rest : M unit) (s : State) :
  keeps rest ->
  worlds (snd ((Body.trace_collide a b ;; rest) s)) = worlds s
  /\ collided (snd ((Body.trace_collide a b ;; rest) s))
       = collided s ++ [(a, b)].
Proof.
  intros K. unfold bind, Body.trace_collide.
  destruct (K (with_collided (fun l => l ++ [(a, b)]) s)) as [K1 K2].
  by rewrite K1, K2.
Qed.

Lemma collide_trace (a b : ref) (s : State) :
  worlds (snd (Body.collide a b s)) = worlds s
  /\ collided (snd (Body.collide a b s)) = collided s ++ [(a, b)].
Proof. unfold Body.collide. apply trace_then. keeps_tac. Qed.

(** ** Each unordered pair at most once *)

Lemma doneCollision_false (calc : list (ref * ref)) (a b : ref) :
  World.doneCollision calc a b = false -> calls_of a b calc = 0%nat.
Proof.
  unfold calls_of. induction calc as [|c calc IH]; [done|].
  cbn [World.doneCollision List.filter]. fold (same_pair a b c).
  destruct (same_pair a b c); [done|]. exact IH.
Qed.

Lemma same_pair_class (a b A B : ref) (c : ref * ref) :
  same_pair a b (A, B) = true -> same_pair a b c = same_pair A B c.
Proof.
  unfold same_pair. cbn [fst snd]. intros Hab.
  apply orb_true_iff in Hab as [Hab | Hab];
    apply andb_true_iff in Hab as [H1%Nat.eqb_eq H2%Nat.eqb_eq]; subst;
    [reflexivity | apply orb_comm].
Qed.

Lemma calls_of_class (a b A B : ref) (l : list (ref * ref)) :
  same_pair a b (A, B) = true -> calls_of a b l = calls_of A B l.
Proof.
  intros Hab. unfold calls_of. f_equal. apply List.filter_ext.
  intros c. by apply same_pair_class.
Qed.

Lemma calls_of_snoc (a b : ref) (l : list (ref * ref)) (c : ref * ref) :
  calls_of a b (l ++ [c]) =
    (calls_of a b l + if same_pair a b c then 1 else 0)%nat.
Proof.
  unfold calls_of. rewrite List.filter_app, length_app. cbn [List.filter].
  by destruct (same_pair a b c).
Qed.

Section Sweep.
Context `{Host}.

(** The world whose bodies are swept, the worlds and the trace at the
    start of the sweep. *)
Variables (this : ref) (Wd : world) (W0 : list world) (log0 : list (ref * ref)).
Hypothesis HWd : W0 !! this = Some Wd.

Lemma keeps_collision a b : keeps (DrawableBody.collision a b).
Proof.
  unfold DrawableBody.collision, DrawableBody.vectors. keeps_tac.
Qed.

(** What holds of the array [calculatedCollisions] and the store during
    the sweep: the calls of [collide] since the start are the entries of
    the array, no unordered pair has two of them, and each is a pair of
    two different bodies of the world. *)
Definition swept (calc : list (ref * ref)) (s : State) : Prop :=
  worlds s = W0
  /\ collided s = log0 ++ calc
  /\ (forall a b, calls_of a b calc <= 1)%nat
  /\ Forall (fun c => fst c ∈ bodies Wd /\ snd c ∈ bodies Wd /\ fst c <> snd c)
       calc.

(** When a step throws, the calls of [collide] up to there are still such
    a list. *)
Definition sweep_post (r : completion (list (ref * ref)) * State) : Prop :=
  match r with
  | (Normal calc, s) => swept calc s
  | (Throw _, s) => exists calc, swept calc s
  end.

Lemma swept_keeps (calc : list (ref * ref)) (s s' : State) :
  swept calc s ->
  worlds s' = worlds s -> collided s' = collided s ->
  swept calc s'.
Proof.
  intros (Hw & Hlog & Honce & Hin) Hw' Hlog'.
  split; [congruence|]. split; [congruence|]. by split.
Qed.

Lemma swept_snoc (calc : list (ref * ref)) (s s' : State) (a b : ref) :
  swept calc s ->
  a ∈ bodies Wd -> b ∈ bodies Wd -> a <> b ->
  World.doneCollision calc a b = false ->
  worlds s' = worlds s ->
  collided s' = collided s ++ [(a, b)] ->
  swept (calc ++ [(a, b)]) s'.
Proof.
  intros (Hw & Hlog & Honce & Hin) Ha Hb Hab Hdone Hw' Hlog'.
  repeat split.
  - congruence.
  - rewrite Hlog', Hlog. by rewrite app_assoc.
  - intros a' b'. rewrite calls_of_snoc.
    destruct (same_pair a' b' (a, b)) eqn:E.
    + rewrite (calls_of_class a' b' a b calc E).
      rewrite (doneCollision_false calc a b Hdone). lia.
    + specialize (Honce a' b'). lia.
  - apply Forall_app. split; [exact Hin|]. by repeat constructor.
Qed.

Lemma sweepPair_post (bodyA bodyB : ref) (calc : list (ref * ref)) (s : State) :
  swept calc s ->
  bodyA ∈ bodies Wd -> bodyB ∈ bodies Wd ->
  sweep_post (World.sweepPair bodyA bodyB calc s).
Proof.
  intros Hs HA HB. unfold World.sweepPair.
  destruct (Nat.eqb_spec bodyA bodyB) as [|Hne]; [exact Hs|].
  destruct (World.doneCollision calc bodyA bodyB) eqn:Hdone; [exact Hs|].
  cbn [negb andb]. unfold bind at 1.
  pose proof (keeps_collision bodyA bodyB s) as [K1 K2].
  destruct (DrawableBody.collision bodyA bodyB s) as [[c|e] s1];
    cbn [snd] in K1, K2.
  2:{ exists calc. by apply swept_keeps with s. }
  assert (swept calc s1) as Hs1 by (by apply swept_keeps with s).
  unfold bind at 1.
  match goal with
  | |- context [match ?m s1 with _ => _ end] =>
      assert (keeps m) as K by keeps_tac; destruct (K s1) as [K3 K4];
      destruct (m s1) as [[ap|e] s2]
  end; cbn [snd] in K3, K4.
  2:{ exists calc. by apply swept_keeps with s1. }
  assert (swept calc s2) as Hs2 by (by apply swept_keeps with s1).
  destruct ap; [|exact Hs2].
  unfold bind at 1.
  pose proof (collide_trace bodyA bodyB s2) as [K5 K6].
  destruct (Body.collide bodyA bodyB s2) as [[[]|e] s3]; cbn [snd] in K5, K6.
  - by apply swept_snoc with s2.
  - exists (calc ++ [(bodyA, bodyB)]). by apply swept_snoc with s2.
Qed.

Lemma forEachWith_post
    (f : ref -> list (ref * ref) -> M (list (ref * ref))) (l : list ref) :
  (forall a calc s, a ∈ l -> swept calc s -> sweep_post (f a calc s)) ->
  forall calc s, swept calc s -> sweep_post (World.forEachWith l f calc s).
Proof.
  induction l as [|a l IH]; intros Hf calc s Hs; [exact Hs|].
  cbn [World.forEachWith]. unfold bind at 1.
  pose proof (Hf a calc s (list_elem_of_here a l) Hs) as Ha.
  destruct (f a calc s) as [[calc'|e] s']; cbn [sweep_post] in Ha; [|exact Ha].
  apply IH; [|exact Ha].
  intros a' calc'' s'' Hin. apply Hf. by apply list_elem_of_further.
Qed.

Lemma sweep_post_of (bodyA : ref) (calc : list (ref * ref)) (s : State) :
  swept calc s ->
  bodyA ∈ bodies Wd ->
  sweep_post (World.sweep this bodyA calc s).
Proof.
  intros Hs HA. unfold World.sweep.
  unfold bind at 1. unfold getWorld at 1.
  destruct Hs as (Hw & Hrest). rewrite Hw, HWd.
  unfold bind at 1. unfold getBody at 1.
  destruct (objs s !! bodyA) as [A|]; [|by exists calc].
  destruct (doCollisions Wd && solid A); [|done].
  unfold bind at 1. unfold getWorld at 1. rewrite Hw, HWd.
  apply forEachWith_post; [|done].
  intros bodyB calc' s' HB Hs'. by apply sweepPair_post.
Qed.

End Sweep.

(** ** The whole step *)

Lemma keeps_integrate (this : ref) (edges : bool) (r : ref) :
  keeps (World.integrate this edges r).
Proof. unfold World.integrate. keeps_tac. Qed.

(** Among three bodies there are three unordered pairs. *)
Lemma pair_of_three (a b c p q : ref) :
  p ∈ [a; b; c] -> q ∈ [a; b; c] -> p <> q ->
  same_pair a b (p, q) || same_pair a c (p, q) || same_pair b c (p, q) = true.
Proof.
  rewrite !elem_of_cons, !elem_of_nil. unfold same_pair. cbn [fst snd].
  intros Hp Hq Hne.
  repeat match goal with
         | |- context [Nat.eqb ?u ?v] => destruct (Nat.eqb_spec u v)
         end; cbn [andb orb]; try reflexivity; exfalso; intuition congruence.
Qed.

Lemma at_most_three (a b c : ref) (l : list (ref * ref)) :
  Forall (fun e => fst e ∈ [a; b; c] /\ snd e ∈ [a; b; c] /\ fst e <> snd e) l ->
  (forall p q, calls_of p q l <= 1)%nat ->
  (length l <= 3)%nat.
Proof.
  intros Hin Honce.
  assert (length l <= calls_of a b l + calls_of a c l + calls_of b c l)%nat.
  { clear Honce. induction Hin as [|[p q] l (Hp & Hq & Hne) _ IH]; [done|].
    pose proof (pair_of_three a b c p q Hp Hq Hne) as Hpair.
    unfold calls_of in *. cbn [List.filter length].
    destruct (same_pair a b (p, q)), (same_pair a c (p, q)),
      (same_pair b c (p, q)); cbn [length]; try discriminate; lia. }
  pose proof (Honce a b). pose proof (Honce a c). pose proof (Honce b c). lia.
Qed.

(** C6: the calls of [Body.collide] made by one [World.update()] are an
    extension [new] of the trace in which no unordered pair of bodies
    occurs twice, in either order; in a world of three bodies there are at
    most three of them.  This holds whatever the collision predicates of
    the host answer, and also when the step throws. *)
Theorem update_resolves_each_pair_once `{Host} (s : State) (this : ref) :
  exists new,
    collided (exec (World.update this) s) = collided s ++ new
    /\ (forall a b, calls_of a b new <= 1)%nat
    /\ (forall W a b c,
          worlds s !! this = Some W -> bodies W = [a; b; c] ->
          (length new <= 3)%nat).
Proof.
  unfold exec, World.update.
  unfold bind at 1. unfold getWorld at 1.
  destruct (worlds s !! this) as [W|] eqn:HW.
  2:{ exists []. rewrite app_nil_r. split; [reflexivity|].
      split; [intros a b; cbn; lia | discriminate]. }
  assert (forall calc s',
    swept W (worlds s) (collided s) calc s' ->
    collided s' = collided s ++ calc
    /\ (forall a b, calls_of a b calc <= 1)%nat
    /\ (forall W' a b c,
          Some W = Some W' -> bodies W' = [a; b; c] ->
          (length calc <= 3)%nat)) as Hfinal.
  { intros calc s' (Hw & Hlog & Honce & Hin). repeat split; try done.
    intros W' a b c [= <-] Hbodies. rewrite Hbodies in Hin.
    by apply at_most_three with a b c. }
  assert (swept W (worlds s) (collided s) [] s) as Hstart.
  { split; [reflexivity|]. split; [by rewrite app_nil_r|].
    split; [intros a b; cbn; lia | constructor]. }
  unfold bind at 1.
  pose proof (keeps_forEach (World.integrate this
                (match edgeMode W with EdgeMode.None => false | _ => true end))
                (bodies W) (keeps_integrate this _) s) as [K1 K2].
  destruct (forEach (bodies W) _ s) as [[[]|e] s1]; cbn [snd] in K1, K2.
  2:{ exists []. apply Hfinal. by apply swept_keeps with s. }
  unfold bind at 1. unfold getWorld at 1. rewrite K1, HW.
  unfold bind at 1.
  pose proof (forEachWith_post W (worlds s) (collided s)
                (World.sweep this) (bodies W)) as Hpost.
  specialize (Hpost (fun a calc s' Ha Hs => sweep_post_of this W (worlds s)
                       (collided s) HW a calc s' Hs Ha)).
  specialize (Hpost [] s1 ltac:(by apply swept_keeps with s)).
  destruct (World.forEachWith (bodies W) (World.sweep this) [] s1)
    as [[calc|e] s2]; cbn [sweep_post snd ret] in *.
  - exists calc. by apply Hfinal.
  - destruct Hpost as [calc Hcalc]. exists calc. by apply Hfinal.
Qed.

(** One step resolves each of the three pairs once. *)
Example three_overlapping_step :
  result (@World.update rectangles 0) three_overlapping = Normal tt
  /\ collided (exec (@World.update rectangles 0) three_overlapping)
       = [(0, 1); (0, 2); (1, 2)]%nat.
Proof. split; vm_compute; reflexivity. Qed.

(** * Further properties of the sources *)

(** ** Integration *)

(** X1: [update()] on a body that moves integrates in this order: the
    velocity takes the acceleration, the position then takes the new
    velocity, and the acceleration is cleared.  The getters and setters
    copy, and a copy has [x || 0] for [x]: the new velocity is the copy
    of the sum of the copies of the velocity and the acceleration, the
    new position the copy of the sum of the copy of the position and the
    new velocity, so that no component of them is NaN afterwards. *)
Theorem update_integrates
    (s : State) (this : ref) (b : body) (pv vv av : Vector) :
  objs s !! this = Some b ->
  vecs s !! _pos b = Some pv ->
  vecs s !! _vel b = Some vv ->
  vecs s !! _acc b = Some av ->
  static b = false \/ cbOnUpdate b tt = false ->
  let v' := copied (added (copied vv) (copied av)) in
  let p' := copied (added (copied pv) v') in
  exists s',
    Body.update this s = (Normal true, s')
    /\ velOf s' this = Some v'
    /\ posOf s' this = Some p'
    /\ accOf s' this = Some (createVector 0 0)
    /\ isNaN (x v') = false /\ isNaN (y v') = false
    /\ isNaN (x p') = false /\ isNaN (y p') = false.
Proof.
  intros Hb Hp Hv Ha Hgo v' p'.
  destruct (update_run s this b pv vv av Hb Hp Hv Ha Hgo)
    as (s' & Hrun & Hacc & Hvel & Hpos).
  rewrite copied_copied in Hpos.
  exists s'. repeat split; try done; apply or0_not_nan.
Qed.

Lemma update_integrates_witness :
  exists s',
    Body.update 0 moving_body = (Normal true, s')
    /\ velOf s' 0 = Some (createVector 3.5 4.25)
    /\ posOf s' 0 = Some (createVector 4.5 6.25)
    /\ accOf s' 0 = Some (createVector 0 0).
Proof.
  pose proof (fun b => update_integrates moving_body 0 b (createVector 1 2)
                (createVector 3 4) (createVector 0.5 0.25)) as H.
  edestruct H as (s' & Hrun & Hvel & Hpos & Hacc & _);
    [first [ left; vm_compute; reflexivity | vm_compute; reflexivity ] ..|].
  exists s'. repeat split; assumption.
Defined.

(** X2: the in-place [update()] of the revision before and the
    [update()] with accessors, on a body whose three vectors are
    different objects and whose position and velocity have no component
    that is NaN or -0.  Both return the same; the acceleration they leave
    is the same; the position and the velocity the second leaves are the
    copies of those the first leaves, that is the same but for 0 in the
    place of a NaN or a -0 that the sums gave. *)
Theorem update_revisions_agree
    (s : State) (this : ref) (b : body) (pv vv av : Vector) :
  objs s !! this = Some b ->
  vecs s !! _pos b = Some pv ->
  vecs s !! _vel b = Some vv ->
  vecs s !! _acc b = Some av ->
  _pos b <> _vel b -> _pos b <> _acc b -> _vel b <> _acc b ->
  plain pv -> plain vv ->
  exists r s1 s2 p2 v2 a2,
    Body.update this s = (Normal r, s1)
    /\ Previous.update this s = (Normal r, s2)
    /\ posOf s2 this = Some p2
    /\ velOf s2 this = Some v2
    /\ accOf s2 this = Some a2
    /\ posOf s1 this = Some (copied p2)
    /\ velOf s1 this = Some (copied v2)
    /\ accOf s1 this = Some a2.
Proof.
  intros Hb Hp Hv Ha Hpv Hpa Hva Hplain_p Hplain_v.
  pose proof (lookup_lt_Some _ _ _ Hb). pose proof (lookup_lt_Some _ _ _ Hp).
  pose proof (lookup_lt_Some _ _ _ Hv). pose proof (lookup_lt_Some _ _ _ Ha).
  destruct (negb (static b) || negb (cbOnUpdate b tt)) eqn:Hgo.
  - destruct (update_run s this b pv vv av Hb Hp Hv Ha)
      as (s1 & Hrun & Hacc & Hvel & Hpos).
    { apply orb_true_iff in Hgo as [Hgo|Hgo]; apply negb_true_iff in Hgo; auto. }
    rewrite copied_copied in Hpos.
    rewrite Hplain_p, Hplain_v, !added_copied in Hpos.
    rewrite Hplain_v, added_copied in Hvel.
    exists true, s1. rewrite Hrun, Hacc, Hvel, Hpos.
    unfold Previous.update.
    unfold bind at 1. unfold getBody at 1. rewrite Hb, Hgo.
    accessors. prims. run.
    eexists _, _, _, _. split; [reflexivity|]. split; [reflexivity|].
    unfold posOf, velOf, accOf. run. cbn [mbind option_bind]. run.
    repeat split; reflexivity.
  - exists false, s, s, pv, vv, av. unfold Body.update, Previous.update.
    unfold bind, getBody. rewrite Hb, Hgo.
    unfold posOf, velOf, accOf. rewrite Hb. cbn [mbind option_bind].
    rewrite Hplain_p, Hplain_v. by repeat split.
Qed.

Lemma update_revisions_agree_witness :
  exists r s1 s2 p2 v2 a2,
    Body.update 0 moving_body = (Normal r, s1)
    /\ Previous.update 0 moving_body = (Normal r, s2)
    /\ posOf s2 0 = Some p2
    /\ velOf s2 0 = Some v2
    /\ accOf s2 0 = Some a2
    /\ posOf s1 0 = Some (copied p2)
    /\ velOf s1 0 = Some (copied v2)
    /\ accOf s1 0 = Some a2.
Proof.
  eapply (update_revisions_agree moving_body 0 _ (createVector 1 2)
            (createVector 3 4) (createVector 0.5 0.25));
    first [ vm_compute; reflexivity | vm_compute; lia ].
Defined.

(** X3: [applyForce(force)] on a static body changes nothing.  On a body
    that is not static it adds to the acceleration what the [cbOnApply]
    hook makes of the copy of the force divided by the mass; when the
    mass is 0 or not finite, [div] refuses, writes a warning to the
    console, and the copy of the force goes to the hook undivided.  The
    position, the velocity and the vector of the force keep their
    components. *)
Theorem applyForce_accumulates
    (s : State) (this force : ref) (b : body) (pv vv av fv : Vector) :
  objs s !! this = Some b ->
  vecs s !! _pos b = Some pv ->
  vecs s !! _vel b = Some vv ->
  vecs s !! _acc b = Some av ->
  vecs s !! force = Some fv ->
  (static b = true -> Body.applyForce this force s = (Normal this, s))
  /\ (static b = false ->
        exists s',
          Body.applyForce this force s = (Normal this, s')
          /\ accOf s' this =
               Some (copied (added (copied av)
                               (cbOnApply b (divided (copied fv) (_mass b)))))
          /\ (divides (_mass b) = true ->
                divided (copied fv) (_mass b)
                  = createVector (or0 (x fv) / _mass b) (or0 (y fv) / _mass b)
                /\ console s' = console s)
          /\ (divides (_mass b) = false ->
                divided (copied fv) (_mass b) = copied fv
                /\ console s' = S (console s))
          /\ velOf s' this = Some vv
          /\ posOf s' this = Some pv
          /\ vecs s' !! force = Some fv).
Proof.
  intros Hb Hp Hv Ha Hf.
  pose proof (lookup_lt_Some _ _ _ Hb). pose proof (lookup_lt_Some _ _ _ Hp).
  pose proof (lookup_lt_Some _ _ _ Hv). pose proof (lookup_lt_Some _ _ _ Ha).
  pose proof (lookup_lt_Some _ _ _ Hf).
  split; intros Hs.
  - by apply applyForce_static with b.
  - unfold Body.applyForce.
    unfold bind at 1. unfold getBody at 1. rewrite Hb, Hs.
    accessors. prims. run.
    eexists. split; [reflexivity|].
    unfold posOf, velOf, accOf. run. cbn [mbind option_bind]. run.
    split; [reflexivity|].
    unfold divides, divided.
    split; [|split].
    + intros Hd. apply andb_prop in Hd as [-> Hz].
      apply negb_true_iff in Hz. rewrite Hz. by split.
    + intros Hd. destruct (isFinite (_mass b)); [|by split].
      cbn [andb] in Hd. apply negb_false_iff in Hd. rewrite Hd. by split.
    + done.
Qed.

Lemma applyForce_accumulates_witness :
  exists s',
    Body.applyForce 0 9 moving_body = (Normal 0%nat, s')
    /\ accOf s' 0 = Some (createVector (-0.5) 3.25)
    /\ velOf s' 0 = Some (createVector 3 4)
    /\ posOf s' 0 = Some (createVector 1 2)
    /\ vecs s' !! 9%nat = Some (createVector (-2) 6).
Proof.
  pose proof (fun b => applyForce_accumulates moving_body 0 9 b
                (createVector 1 2) (createVector 3 4)
                (createVector 0.5 0.25) (createVector (-2) 6)) as H.
  edestruct H as [_ H']; [vm_compute; reflexivity ..|].
  destruct H' as (s' & Hrun & Hacc & _ & _ & Hvel & Hpos & Hforce);
    [vm_compute; reflexivity|].
  exists s'. repeat split; assumption.
Defined.

(** X4: [applyForce(force)] in the revision with the accessors and in
    the one before it, on a body whose acceleration has no component that
    is NaN or -0: the acceleration the first leaves is the copy of the
    one the second leaves, that is the same but for 0 in the place of a
    NaN or a -0 that the sum gave. *)
Theorem applyForce_revisions_agree
    (s : State) (this force : ref) (b : body) (av fv : Vector) :
  objs s !! this = Some b ->
  vecs s !! _acc b = Some av ->
  vecs s !! force = Some fv ->
  plain av ->
  exists s1 s2 a2,
    Body.applyForce this force s = (Normal this, s1)
    /\ Previous.applyForce this force s = (Normal this, s2)
    /\ accOf s2 this = Some a2
    /\ accOf s1 this = Some (copied a2).
Proof.
  intros Hb Ha Hf Hplain.
  pose proof (lookup_lt_Some _ _ _ Hb). pose proof (lookup_lt_Some _ _ _ Ha).
  pose proof (lookup_lt_Some _ _ _ Hf).
  unfold Body.applyForce, Previous.applyForce.
  accessors. prims. run.
  destruct (static b); fields; run.
  all: eexists _, _, _; (split; [reflexivity|]); (split; [reflexivity|]).
  all: unfold accOf; run; cbn [mbind option_bind]; run.
  all: split; [reflexivity|].
  - by rewrite Hplain.
  - f_equal. change (copied (added (copied av)
                       (cbOnApply b (divided (copied fv) (_mass b))))
                     = copied (added av
                         (cbOnApply b (divided (copied fv) (_mass b))))).
    by rewrite Hplain.
Qed.

Lemma applyForce_revisions_agree_witness :
  exists s1 s2 a2,
    Body.applyForce 0 9 moving_body = (Normal 0%nat, s1)
    /\ Previous.applyForce 0 9 moving_body = (Normal 0%nat, s2)
    /\ accOf s2 0 = Some a2
    /\ accOf s1 0 = Some (copied a2).
Proof.
  eapply (applyForce_revisions_agree moving_body 0 9 _
            (createVector 0.5 0.25) (createVector (-2) 6));
    vm_compute; reflexivity.
Defined.

(** ** Accessors *)

(** Runs the [cbChangePos] hook on a store in which the lookups can be
    decided. *)
Ltac hook :=
  erewrite cbChangePos_run by (run; reflexivity);
  unfold moved; fields;
  repeat match goal with
         | H : _mode ?b = _ |- context [_mode ?b] => rewrite H
         end.

(** X5: the component setters [posX(x)] and [posY(y)] write one component
    of the position in place and leave the other; one after the other
    they set the position to (x, y), which the getters then return, and
    the velocity is not touched. *)
Theorem position_components
    (s : State) (this : ref) (b : body) (p v : Vector) (x0 y0 : float) :
  objs s !! this = Some b ->
  vecs s !! _pos b = Some p ->
  vecs s !! _vel b = Some v ->
  _pos b <> _vel b ->
  exists s1 s2,
    Body.posX_set this x0 s = (Normal this, s1)
    /\ posOf s1 this = Some (createVector x0 (y p))
    /\ Body.posY_set this y0 s1 = (Normal this, s2)
    /\ posOf s2 this = Some (createVector x0 y0)
    /\ Body.posX this s2 = (Normal x0, s2)
    /\ Body.posY this s2 = (Normal y0, s2)
    /\ velOf s2 this = Some v.
Proof.
  intros Hb Hp Hv Hne.
  pose proof (lookup_lt_Some _ _ _ Hb). pose proof (lookup_lt_Some _ _ _ Hp).
  pose proof (lookup_lt_Some _ _ _ Hv).
  destruct (_mode b) eqn:Hm.
  all: eexists _, _.
  all: split; [unfold Body.posX_set; prims; run; hook; reflexivity|].
  all: split; [unfold posOf; run; cbn [mbind option_bind]; run; reflexivity|].
  all: split; [unfold Body.posY_set; prims; run; hook; run; reflexivity|].
  all: unfold posOf, velOf, Body.posX, Body.posY; prims; run;
    cbn [mbind option_bind]; run.
  all: by repeat split.
Qed.

Lemma position_components_witness :
  exists s1 s2,
    Body.posX_set 0 7 moving_body = (Normal 0%nat, s1)
    /\ posOf s1 0 = Some (createVector 7 2)
    /\ Body.posY_set 0 8 s1 = (Normal 0%nat, s2)
    /\ posOf s2 0 = Some (createVector 7 8)
    /\ Body.posX 0 s2 = (Normal 7, s2)
    /\ Body.posY 0 s2 = (Normal 8, s2)
    /\ velOf s2 0 = Some (createVector 3 4).
Proof.
  eapply (position_components moving_body 0 _ (createVector 1 2)
            (createVector 3 4) 7 8);
    first [ vm_compute; reflexivity | vm_compute; lia ].
Defined.

(** X6: the vector setters of the velocity and of the acceleration copy
    their argument and the getters return a copy, and a copy has
    [x || 0] for [x]: after [vel(v)], [vel()] returns a vector with the
    components [v.x || 0] and [v.y || 0], equal in value to those of [v]
    unless they are NaN, and writing to that vector or to [v] leaves the
    velocity of the body as it was set; the same holds of [acc(v)] and
    [acc()]. *)
Theorem vel_acc_round_trip
    (s : State) (this v : ref) (b : body) (val : Vector) :
  objs s !! this = Some b ->
  vecs s !! v = Some val ->
  (exists s1 s2 r,
     Body.vel_set this v s = (Normal this, s1)
     /\ Body.vel this s1 = (Normal r, s2)
     /\ vecs s2 !! r = Some (copied val)
     /\ (forall val',
           velOf (exec (setVector r val') s2) this = Some (copied val))
     /\ (forall val',
           velOf (exec (setVector v val') s2) this = Some (copied val)))
  /\ (exists s1 s2 r,
        Body.acc_set this v s = (Normal this, s1)
        /\ Body.acc this s1 = (Normal r, s2)
        /\ vecs s2 !! r = Some (copied val)
        /\ (forall val',
              accOf (exec (setVector r val') s2) this = Some (copied val))
        /\ (forall val',
              accOf (exec (setVector v val') s2) this = Some (copied val)))
  /\ (isNaN (x val) = false -> (x (copied val) =? x val) = true)
  /\ (isNaN (y val) = false -> (y (copied val) =? y val) = true).
Proof.
  intros Hb Hv.
  pose proof (lookup_lt_Some _ _ _ Hb). pose proof (lookup_lt_Some _ _ _ Hv).
  split; [|split; [|split; apply or0_eqb]].
  - eexists _, _, _.
    split; [unfold Body.vel_set; accessors; prims; run; reflexivity|].
    split; [unfold Body.vel; accessors; prims; run; reflexivity|].
    unfold velOf, exec. prims. run.
    split; [exact (f_equal Some (copied_copied val))|].
    split; intros val'; run; cbn [mbind option_bind]; run; reflexivity.
  - eexists _, _, _.
    split; [unfold Body.acc_set; accessors; prims; run; reflexivity|].
    split; [unfold Body.acc; accessors; prims; run; reflexivity|].
    unfold accOf, exec. prims. run.
    split; [exact (f_equal Some (copied_copied val))|].
    split; intros val'; run; cbn [mbind option_bind]; run; reflexivity.
Qed.

Lemma vel_acc_round_trip_witness :
  (exists s1 s2 r,
     Body.vel_set 0 9 moving_body = (Normal 0%nat, s1)
     /\ Body.vel 0 s1 = (Normal r, s2)
     /\ vecs s2 !! r = Some (createVector (-2) 6)
     /\ (forall val', velOf (exec (setVector r val') s2) 0
                      = Some (createVector (-2) 6))
     /\ (forall val', velOf (exec (setVector 9 val') s2) 0
                      = Some (createVector (-2) 6)))
  /\ (exists s1 s2 r,
        Body.acc_set 0 9 moving_body = (Normal 0%nat, s1)
        /\ Body.acc 0 s1 = (Normal r, s2)
        /\ vecs s2 !! r = Some (createVector (-2) 6)
        /\ (forall val', accOf (exec (setVector r val') s2) 0
                         = Some (createVector (-2) 6))
        /\ (forall val', accOf (exec (setVector 9 val') s2) 0
                         = Some (createVector (-2) 6))).
Proof.
  pose proof (fun b => vel_acc_round_trip moving_body 0 9 b
                         (createVector (-2) 6)) as H.
  edestruct H as (Hvel & Hacc & _); [vm_compute; reflexivity ..|].
  split; [exact Hvel | exact Hacc].
Defined.

(** X7: the component setters of the velocity and of the acceleration
    write one component of the vector of the body in place and leave the
    other: the body refers to the same vectors after them, the getters
    return what was set, and setting both components sets the vector. *)
Theorem velocity_acceleration_components
    (s : State) (this : ref) (b : body) (v a : Vector) (x0 y0 : float) :
  objs s !! this = Some b ->
  vecs s !! _vel b = Some v ->
  vecs s !! _acc b = Some a ->
  _vel b <> _acc b ->
  (exists s1 s2,
     Body.velX_set this x0 s = (Normal this, s1)
     /\ velOf s1 this = Some (createVector x0 (y v))
     /\ Body.velY_set this y0 s1 = (Normal this, s2)
     /\ velOf s2 this = Some (createVector x0 y0)
     /\ Body.velX this s2 = (Normal x0, s2)
     /\ Body.velY this s2 = (Normal y0, s2)
     /\ accOf s2 this = Some a
     /\ objs s2 = objs s)
  /\ (exists s1 s2,
        Body.accX_set this x0 s = (Normal this, s1)
        /\ accOf s1 this = Some (createVector x0 (y a))
        /\ Body.accY_set this y0 s1 = (Normal this, s2)
        /\ accOf s2 this = Some (createVector x0 y0)
        /\ Body.accX this s2 = (Normal x0, s2)
        /\ Body.accY this s2 = (Normal y0, s2)
        /\ velOf s2 this = Some v
        /\ objs s2 = objs s).
Proof.
  intros Hb Hv Ha Hne.
  pose proof (lookup_lt_Some _ _ _ Hb). pose proof (lookup_lt_Some _ _ _ Hv).
  pose proof (lookup_lt_Some _ _ _ Ha).
  split.
  - eexists _, _.
    split; [accessors; prims; run; reflexivity|].
    split; [unfold velOf; run; cbn [mbind option_bind]; run; reflexivity|].
    split; [accessors; prims; run; reflexivity|].
    unfold velOf, accOf. accessors. prims. run.
    cbn [mbind option_bind]. run. by repeat split.
  - eexists _, _.
    split; [accessors; prims; run; reflexivity|].
    split; [unfold accOf; run; cbn [mbind option_bind]; run; reflexivity|].
    split; [accessors; prims; run; reflexivity|].
    unfold velOf, accOf. accessors. prims. run.
    cbn [mbind option_bind]. run. by repeat split.
Qed.

Lemma velocity_acceleration_components_witness :
  (exists s1 s2,
     Body.velX_set 0 7 moving_body = (Normal 0%nat, s1)
     /\ velOf s1 0 = Some (createVector 7 4)
     /\ Body.velY_set 0 8 s1 = (Normal 0%nat, s2)
     /\ velOf s2 0 = Some (createVector 7 8)
     /\ Body.velX 0 s2 = (Normal 7, s2)
     /\ Body.velY 0 s2 = (Normal 8, s2)
     /\ accOf s2 0 = Some (createVector 0.5 0.25)
     /\ objs s2 = objs moving_body)
  /\ (exists s1 s2,
        Body.accX_set 0 7 moving_body = (Normal 0%nat, s1)
        /\ accOf s1 0 = Some (createVector 7 0.25)
        /\ Body.accY_set 0 8 s1 = (Normal 0%nat, s2)
        /\ accOf s2 0 = Some (createVector 7 8)
        /\ Body.accX 0 s2 = (Normal 7, s2)
        /\ Body.accY 0 s2 = (Normal 8, s2)
        /\ velOf s2 0 = Some (createVector 3 4)
        /\ objs s2 = objs moving_body).
Proof.
  eapply (velocity_acceleration_components moving_body 0 _
            (createVector 3 4) (createVector 0.5 0.25) 7 8);
    first [vm_compute; reflexivity | vm_compute; lia].
Defined.

(** ** Edges *)

(** Order facts on floats. *)
Lemma float_le_not_gt (a b : float) : (a <=? b) = true -> (b <? a) = false.
Proof.
  rewrite leb_spec, ltb_spec. unfold SFleb, SFltb.
  rewrite (SFcompare_antisym (Prim2SF a) (Prim2SF b)).
  by destruct (SFcompare (Prim2SF a) (Prim2SF b)) as [[]|].
Qed.

Lemma SFcompare_not_nan (a b : spec_float) (c : comparison) :
  SFcompare a b = Some c -> a <> S754_nan /\ b <> S754_nan.
Proof. destruct a, b; cbn; try done. Qed.

Lemma not_nan_spec (a : float) : is_nan a = false <-> Prim2SF a <> S754_nan.
Proof.
  unfold is_nan. rewrite FloatAxioms.eqb_spec. unfold SFeqb. split.
  - intros E N. rewrite N in E. done.
  - intros N. by rewrite SFcompare_refl.
Qed.

Lemma float_le_not_nan (a b : float) :
  (a <=? b) = true -> is_nan a = false /\ is_nan b = false.
Proof.
  rewrite leb_spec, !not_nan_spec. unfold SFleb.
  destruct (SFcompare (Prim2SF a) (Prim2SF b)) as [c|] eqn:E; [|done].
  intros _. by apply SFcompare_not_nan with c.
Qed.

Lemma float_lt_not_nan (a b : float) :
  (a <? b) = true -> is_nan a = false /\ is_nan b = false.
Proof.
  rewrite ltb_spec, !not_nan_spec. unfold SFltb.
  destruct (SFcompare (Prim2SF a) (Prim2SF b)) as [c|] eqn:E; [|done].
  intros _. by apply SFcompare_not_nan with c.
Qed.

Lemma float_le_refl (a : float) : is_nan a = false -> (a <=? a) = true.
Proof.
  rewrite not_nan_spec, leb_spec. unfold SFleb. intros N.
  by rewrite SFcompare_refl.
Qed.

Lemma SFcompare_some (a b : spec_float) :
  a <> S754_nan -> b <> S754_nan -> is_Some (SFcompare a b).
Proof.
  destruct a as [sa|sa| |sa ma ea], b as [sb|sb| |sb mb eb]; cbn;
    try done; intros _ _.
  all: try (by destruct sa); try (by destruct sb); by destruct sa, sb.
Qed.

Lemma float_not_lt_le (a b : float) :
  is_nan a = false -> is_nan b = false -> (a <? b) = false -> (b <=? a) = true.
Proof.
  rewrite !not_nan_spec, ltb_spec, leb_spec. unfold SFltb, SFleb.
  intros Na Nb.
  rewrite (SFcompare_antisym (Prim2SF a) (Prim2SF b)).
  destruct (SFcompare_some _ _ Na Nb) as [c ->]. by destruct c.
Qed.

(** Since the store [s0], in which the body [this] was [b0], nothing has
    changed but the components of the position and of the velocity of the
    body, which are now [p] and [v], its [_path], and the console. *)
Definition placed (s0 : State) (this : ref) (b0 : body) (p v : Vector)
    (s : State) : Prop :=
  (exists L, objs s !! this = Some (set_path L b0))
  /\ (forall c, c <> this -> objs s !! c = objs s0 !! c)
  /\ worlds s = worlds s0
  /\ collided s = collided s0
  /\ vecs s !! _pos b0 = Some p
  /\ vecs s !! _vel b0 = Some v
  /\ (forall r, r <> _pos b0 -> r <> _vel b0 -> vecs s !! r = vecs s0 !! r)
  /\ _pos b0 <> _vel b0.

Lemma set_path_same (b : body) : set_path (_path b) b = b.
Proof. by destruct b. Qed.

Lemma placed_start (s : State) (this : ref) (b : body) (p v : Vector) :
  objs s !! this = Some b ->
  vecs s !! _pos b = Some p ->
  vecs s !! _vel b = Some v ->
  _pos b <> _vel b ->
  placed s this b p v s.
Proof.
  intros Hb Hp Hv Hne. split; [|done].
  exists (_path b). by rewrite set_path_same.
Qed.

Section Placed.
Variables (s0 : State) (this : ref) (b0 : body).

Lemma placed_posX (p v : Vector) (s : State) :
  placed s0 this b0 p v s -> Body.posX this s = (Normal (x p), s).
Proof.
  intros ([L Hb] & _ & _ & _ & Hp & _). unfold Body.posX. prims.
  rewrite Hb. fields. by rewrite Hp.
Qed.

Lemma placed_posY (p v : Vector) (s : State) :
  placed s0 this b0 p v s -> Body.posY this s = (Normal (y p), s).
Proof.
  intros ([L Hb] & _ & _ & _ & Hp & _). unfold Body.posY. prims.
  rewrite Hb. fields. by rewrite Hp.
Qed.

Lemma placed_velX (p v : Vector) (s : State) :
  placed s0 this b0 p v s -> Body.velX this s = (Normal (x v), s).
Proof.
  intros ([L Hb] & _ & _ & _ & _ & Hv & _). unfold Body.velX. prims.
  rewrite Hb. fields. by rewrite Hv.
Qed.

Lemma placed_velY (p v : Vector) (s : State) :
  placed s0 this b0 p v s -> Body.velY this s = (Normal (y v), s).
Proof.
  intros ([L Hb] & _ & _ & _ & _ & Hv & _). unfold Body.velY. prims.
  rewrite Hb. fields. by rewrite Hv.
Qed.

(** The steps of the four proofs below. *)
Ltac placed_goal :=
  eexists; (split; [reflexivity|]);
  split; [eexists; run; reflexivity|];
  split; [intros c Hc; run; auto|];
  split; [fields; assumption|];
  split; [fields; assumption|];
  split; [run; reflexivity|];
  split; [run; first [reflexivity | assumption]|];
  split; [|assumption];
  let r := fresh "r" in
  intros r ? ?; run; auto.

Lemma placed_posX_set (p v : Vector) (s : State) (x0 : float) :
  placed s0 this b0 p v s ->
  exists s',
    Body.posX_set this x0 s = (Normal this, s')
    /\ placed s0 this b0 (createVector x0 (y p)) v s'.
Proof.
  intros ([L Hb] & Hobjs & Hworlds & Hlog & Hp & Hv & Hvecs & Hne).
  pose proof (lookup_lt_Some _ _ _ Hb). pose proof (lookup_lt_Some _ _ _ Hp).
  pose proof (lookup_lt_Some _ _ _ Hv).
  unfold Body.posX_set. prims. run.
  erewrite cbChangePos_run by (run; reflexivity).
  unfold moved. fields.
  destruct (_mode b0) eqn:Hm; placed_goal.
Qed.

Lemma placed_posY_set (p v : Vector) (s : State) (y0 : float) :
  placed s0 this b0 p v s ->
  exists s',
    Body.posY_set this y0 s = (Normal this, s')
    /\ placed s0 this b0 (createVector (x p) y0) v s'.
Proof.
  intros ([L Hb] & Hobjs & Hworlds & Hlog & Hp & Hv & Hvecs & Hne).
  pose proof (lookup_lt_Some _ _ _ Hb). pose proof (lookup_lt_Some _ _ _ Hp).
  pose proof (lookup_lt_Some _ _ _ Hv).
  unfold Body.posY_set. prims. run.
  erewrite cbChangePos_run by (run; reflexivity).
  unfold moved. fields.
  destruct (_mode b0) eqn:Hm; placed_goal.
Qed.

Lemma placed_velX_set (p v : Vector) (s : State) (x0 : float) :
  placed s0 this b0 p v s ->
  exists s',
    Body.velX_set this x0 s = (Normal this, s')
    /\ placed s0 this b0 p (createVector x0 (y v)) s'.
Proof.
  intros ([L Hb] & Hobjs & Hworlds & Hlog & Hp & Hv & Hvecs & Hne).
  pose proof (lookup_lt_Some _ _ _ Hb). pose proof (lookup_lt_Some _ _ _ Hp).
  pose proof (lookup_lt_Some _ _ _ Hv).
  unfold Body.velX_set. accessors. prims. run.
  placed_goal.
Qed.

Lemma placed_velY_set (p v : Vector) (s : State) (y0 : float) :
  placed s0 this b0 p v s ->
  exists s',
    Body.velY_set this y0 s = (Normal this, s')
    /\ placed s0 this b0 p (createVector (x v) y0) s'.
Proof.
  intros ([L Hb] & Hobjs & Hworlds & Hlog & Hp & Hv & Hvecs & Hne).
  pose proof (lookup_lt_Some _ _ _ Hb). pose proof (lookup_lt_Some _ _ _ Hp).
  pose proof (lookup_lt_Some _ _ _ Hv).
  unfold Body.velY_set. accessors. prims. run.
  placed_goal.
Qed.

End Placed.

(** A computation returns normally, in a store of which [P] holds. *)
Definition lands (P : State -> Prop) (r : completion unit * State) : Prop :=
  exists s', r = (Normal tt, s') /\ P s'.

(** One call of an accessor on a body that is [placed]. *)
Ltac edge_step :=
  match goal with
  | HP : placed _ ?this _ _ _ ?s |- context [Body.posX ?this ?s] =>
      rewrite (placed_posX _ _ _ _ _ _ HP)
  | HP : placed _ ?this _ _ _ ?s |- context [Body.posY ?this ?s] =>
      rewrite (placed_posY _ _ _ _ _ _ HP)
  | HP : placed _ ?this _ _ _ ?s |- context [Body.velX ?this ?s] =>
      rewrite (placed_velX _ _ _ _ _ _ HP)
  | HP : placed _ ?this _ _ _ ?s |- context [Body.velY ?this ?s] =>
      rewrite (placed_velY _ _ _ _ _ _ HP)
  | HP : placed _ ?this _ _ _ ?s |- context [Body.posX_set ?this ?v ?s] =>
      let s' := fresh "s" in let E := fresh "E" in let HP' := fresh "HP" in
      destruct (placed_posX_set _ _ _ _ _ _ v HP) as (s' & E & HP');
      rewrite E; clear E HP
  | HP : placed _ ?this _ _ _ ?s |- context [Body.posY_set ?this ?v ?s] =>
      let s' := fresh "s" in let E := fresh "E" in let HP' := fresh "HP" in
      destruct (placed_posY_set _ _ _ _ _ _ v HP) as (s' & E & HP');
      rewrite E; clear E HP
  | HP : placed _ ?this _ _ _ ?s |- context [Body.velX_set ?this ?v ?s] =>
      let s' := fresh "s" in let E := fresh "E" in let HP' := fresh "HP" in
      destruct (placed_velX_set _ _ _ _ _ _ v HP) as (s' & E & HP');
      rewrite E; clear E HP
  | HP : placed _ ?this _ _ _ ?s |- context [Body.velY_set ?this ?v ?s] =>
      let s' := fresh "s" in let E := fresh "E" in let HP' := fresh "HP" in
      destruct (placed_velY_set _ _ _ _ _ _ v HP) as (s' & E & HP');
      rewrite E; clear E HP
  | |- context [if ?a <? ?b then _ else _] =>
      lazymatch b with
      | context [if _ then _ else _] => fail
      | _ => let E := fresh "E" in destruct (a <? b) eqn:E
      end
  end; repeat (progress (cbv beta iota zeta; cbn [x y orb] in *)).

Lemma edges_run
    (s : State) (this w : ref) (b : body) (W : world) (p v : Vector) :
  objs s !! this = Some b ->
  _world b = Some w ->
  worlds s !! w = Some W ->
  vecs s !! _pos b = Some p ->
  vecs s !! _vel b = Some v ->
  _pos b <> _vel b ->
  lands (placed s this b (edge_pos W p) (edge_vel W p v)) (Body.edges this s).
Proof.
  intros Hb Hw HW Hp Hv Hne.
  pose proof (placed_start s this b p v Hb Hp Hv Hne) as HP.
  destruct p as [px py], v as [vx vy].
  unfold Body.edges.
  unfold bind at 1. unfold getBody at 1. rewrite Hb, Hw.
  unfold bind at 1. unfold getWorld at 1. rewrite HW.
  unfold edge_pos, edge_vel, held, wrapped, bounced, outside.
  destruct (edgeMode W); unfold bind, ret; cbv zeta; cbn [x y].
  - exists s. by split.
  - repeat edge_step; (eexists; split; [reflexivity | eassumption]).
  - repeat edge_step; (eexists; split; [reflexivity | eassumption]).
  - repeat edge_step; (eexists; split; [reflexivity | eassumption]).
  - unfold console_warn. eexists. split; [reflexivity|]. exact HP.
Qed.

Lemma held_between (lo len v : float) :
  (lo <=? lo + len) = true -> is_nan v = false ->
  (lo <=? held lo len v) = true /\ (held lo len v <=? lo + len) = true.
Proof.
  intros Hle Hv. destruct (float_le_not_nan _ _ Hle) as [Hlo Hhi].
  unfold held. cbv zeta.
  destruct (v <? lo) eqn:E1.
  - rewrite (float_le_not_gt _ _ Hle). split; [by apply float_le_refl | done].
  - destruct (lo + len <? v) eqn:E2.
    + split; [done | by apply float_le_refl].
    + split; by apply float_not_lt_le.
Qed.

Lemma wrapped_between (lo len v : float) :
  (lo <=? lo + len) = true -> is_nan v = false ->
  (lo <=? wrapped lo len v) = true /\ (wrapped lo len v <=? lo + len) = true.
Proof.
  intros Hle Hv. destruct (float_le_not_nan _ _ Hle) as [Hlo Hhi].
  unfold wrapped.
  destruct (v <? lo) eqn:E1.
  - split; [done | by apply float_le_refl].
  - destruct (lo + len <? v) eqn:E2.
    + split; [by apply float_le_refl | done].
    + split; by apply float_not_lt_le.
Qed.

Lemma bounced_between (lo len v : float) :
  (lo <=? lo + len) = true -> is_nan v = false ->
  (lo <=? bounced lo len v) = true /\ (bounced lo len v <=? lo + len) = true.
Proof.
  intros Hle Hv. destruct (float_le_not_nan _ _ Hle) as [Hlo Hhi].
  unfold bounced.
  destruct (v <? lo) eqn:E1.
  - split; [by apply float_le_refl | done].
  - destruct (lo + len <? v) eqn:E2.
    + split; [done | by apply float_le_refl].
    + split; by apply float_not_lt_le.
Qed.

Lemma placed_posOf (s0 : State) (this : ref) (b0 : body) (p v : Vector)
    (s : State) :
  placed s0 this b0 p v s -> posOf s this = Some p /\ velOf s this = Some v.
Proof.
  intros ([L Hb] & _ & _ & _ & Hp & Hv & _). unfold posOf, velOf.
  rewrite Hb. cbn [mbind option_bind]. done.
Qed.

(** X8: in a world whose bounds [x + w] and [y + h] are not below [x] and
    [y] and whose edge mode is Hold, Wrap or Bounce, [edges()] leaves a
    body whose coordinates are numbers inside the rectangle of the world,
    borders included, wherever it was. *)
Theorem edges_brings_inside
    (s : State) (this w : ref) (b : body) (W : world) (p v : Vector) :
  objs s !! this = Some b ->
  _world b = Some w ->
  worlds s !! w = Some W ->
  vecs s !! _pos b = Some p ->
  vecs s !! _vel b = Some v ->
  _pos b <> _vel b ->
  edgeMode W = EdgeMode.Hold \/ edgeMode W = EdgeMode.Wrap
    \/ edgeMode W = EdgeMode.Bounce ->
  (Wx W <=? Wx W + Ww W) = true ->
  (Wy W <=? Wy W + Wh W) = true ->
  isNaN (x p) = false ->
  isNaN (y p) = false ->
  exists s' p',
    Body.edges this s = (Normal tt, s')
    /\ posOf s' this = Some p'
    /\ inside W p'.
Proof.
  intros Hb Hw HW Hp Hv Hne Hmode Hwide Hhigh Hx Hy.
  destruct (edges_run s this w b W p v) as (s' & Hrun & HP'); try done.
  apply placed_posOf in HP' as [Hpos _].
  exists s', (edge_pos W p). split; [done|]. split; [done|].
  unfold inside, edge_pos.
  destruct Hmode as [-> | [-> | ->]]; cbn [x y].
  - destruct (held_between _ _ _ Hwide Hx), (held_between _ _ _ Hhigh Hy).
    done.
  - destruct (wrapped_between _ _ _ Hwide Hx), (wrapped_between _ _ _ Hhigh Hy).
    done.
  - destruct (bounced_between _ _ _ Hwide Hx), (bounced_between _ _ _ Hhigh Hy).
    done.
Qed.

Lemma edges_brings_inside_witness :
  exists s' p',
    Body.edges 0 out_on_the_left = (Normal tt, s')
    /\ posOf s' 0 = Some p'
    /\ inside (mkWorld 0 0 400 400 [0%nat] (Some 0%nat) EdgeMode.Bounce
                 true false) p'.
Proof.
  eapply (edges_brings_inside out_on_the_left 0 0 _
            (mkWorld 0 0 400 400 [0%nat] (Some 0%nat) EdgeMode.Bounce true false)
            (createVector (-3) 100) (createVector (-2) 1));
    try (vm_compute; reflexivity).
  - vm_compute. lia.
  - right. right. reflexivity.
Defined.

(** X9: [edges()] changes the velocity only in Bounce mode, and there it
    negates the component along each axis on which the body was outside
    the world, below the lower bound or above the upper one, and no
    other; in every other mode the velocity stays as it was. *)
Theorem edges_velocity
    (s : State) (this w : ref) (b : body) (W : world) (p v : Vector) :
  objs s !! this = Some b ->
  _world b = Some w ->
  worlds s !! w = Some W ->
  vecs s !! _pos b = Some p ->
  vecs s !! _vel b = Some v ->
  _pos b <> _vel b ->
  exists s',
    Body.edges this s = (Normal tt, s')
    /\ velOf s' this =
         Some (match edgeMode W with
               | EdgeMode.Bounce =>
                   createVector
                     (if (x p <? Wx W) || (Wx W + Ww W <? x p)
                      then - x v else x v)
                     (if (y p <? Wy W) || (Wy W + Wh W <? y p)
                      then - y v else y v)
               | _ => v
               end).
Proof.
  intros Hb Hw HW Hp Hv Hne.
  destruct (edges_run s this w b W p v) as (s' & Hrun & HP'); try done.
  apply placed_posOf in HP' as [_ Hvel].
  exists s'. split; [done|]. rewrite Hvel. reflexivity.
Qed.

Lemma edges_velocity_witness :
  exists s',
    Body.edges 0 out_on_the_left = (Normal tt, s')
    /\ velOf s' 0 = Some (createVector 2 1).
Proof.
  eapply (edges_velocity out_on_the_left 0 0 _
            (mkWorld 0 0 400 400 [0%nat] (Some 0%nat) EdgeMode.Bounce true false)
            (createVector (-3) 100) (createVector (-2) 1));
    try (vm_compute; reflexivity).
  vm_compute. lia.
Defined.

(** X10: on a body that is inside the rectangle of its world, borders
    included, [edges()] does nothing at all in the modes None, Hold, Wrap
    and Bounce: it returns with the store as it was. *)
Theorem edges_inside_unchanged
    (s : State) (this w : ref) (b : body) (W : world) (p v : Vector) :
  objs s !! this = Some b ->
  _world b = Some w ->
  worlds s !! w = Some W ->
  vecs s !! _pos b = Some p ->
  vecs s !! _vel b = Some v ->
  _pos b <> _vel b ->
  edgeMode W <> EdgeMode.Unknown ->
  inside W p ->
  Body.edges this s = (Normal tt, s).
Proof.
  intros Hb Hw HW Hp Hv Hne Hmode (Hx1 & Hx2 & Hy1 & Hy2).
  pose proof (placed_start s this b p v Hb Hp Hv Hne) as HP.
  apply float_le_not_gt in Hx1, Hx2, Hy1, Hy2.
  unfold Body.edges.
  unfold bind at 1. unfold getBody at 1. rewrite Hb, Hw.
  unfold bind at 1. unfold getWorld at 1. rewrite HW.
  destruct (edgeMode W); try done; unfold bind, ret.
  all: repeat (first [ rewrite (placed_posX _ _ _ _ _ _ HP)
                     | rewrite (placed_posY _ _ _ _ _ _ HP)
                     | rewrite Hx1 | rewrite Hx2 | rewrite Hy1 | rewrite Hy2 ];
               cbv beta iota).
  all: reflexivity.
Qed.

Lemma edges_inside_unchanged_witness :
  Body.edges 0 held_inside = (Normal tt, held_inside).
Proof.
  eapply (edges_inside_unchanged held_inside 0 0 _
            (mkWorld 0 0 400 400 [0%nat] (Some 0%nat) EdgeMode.Hold true false)
            (createVector 20 30) (createVector 0 0));
    try (vm_compute; reflexivity).
  - vm_compute. lia.
  - discriminate.
  - repeat split; vm_compute; reflexivity.
Defined.

(** X11: [edges()] changes nothing but the components of the position
    and of the velocity of the body and its [_path]: every other field of
    the body is as it was (the body after is the body before with
    another [_path]), and the other bodies, the worlds, every other
    vector and the trace of [collide] are as they were.  So the bounding
    box of the body is not recomputed: it stays where it was, also when
    the body is moved back into the world. *)
Theorem edges_leaves_bounding_box
    (s : State) (this w : ref) (b : body) (W : world) (p v bb : Vector) :
  objs s !! this = Some b ->
  _world b = Some w ->
  worlds s !! w = Some W ->
  vecs s !! _pos b = Some p ->
  vecs s !! _vel b = Some v ->
  _pos b <> _vel b ->
  vecs s !! _bb_pos b = Some bb ->
  _bb_pos b <> _pos b ->
  _bb_pos b <> _vel b ->
  exists s' b',
    Body.edges this s = (Normal tt, s')
    /\ objs s' !! this = Some b'
    /\ b' = set_path (_path b') b
    /\ _bb_pos b' = _bb_pos b /\ _bb_w b' = _bb_w b /\ _bb_h b' = _bb_h b
    /\ vecs s' !! _bb_pos b' = Some bb
    /\ (forall c, c <> this -> objs s' !! c = objs s !! c)
    /\ worlds s' = worlds s
    /\ collided s' = collided s
    /\ (forall r, r <> _pos b -> r <> _vel b -> vecs s' !! r = vecs s !! r).
Proof.
  intros Hb Hw HW Hp Hv Hne Hbb Hbp Hbv.
  destruct (edges_run s this w b W p v) as (s' & Hrun & HP'); try done.
  destruct HP' as ([L Hb'] & Hobjs & Hworlds & Hlog & _ & _ & Hvecs & _).
  exists s', (set_path L b). fields.
  repeat split; try done. by rewrite Hvecs.
Qed.

Lemma edges_leaves_bounding_box_witness :
  exists s' b',
    Body.edges 0 out_on_the_left = (Normal tt, s')
    /\ objs s' !! 0%nat = Some b'
    /\ posOf s' 0 = Some (createVector 0 100)
    /\ vecs s' !! _bb_pos b' = Some (createVector (-3) 100).
Proof.
  pose proof (fun b =>
    edges_leaves_bounding_box out_on_the_left 0 0 b
      (mkWorld 0 0 400 400 [0%nat] (Some 0%nat) EdgeMode.Bounce true false)
      (createVector (-3) 100) (createVector (-2) 1) (createVector (-3) 100))
    as H.
  edestruct H as (s' & b' & Hrun & Hb' & _ & _ & _ & _ & Hbox & _);
    [first [vm_compute; reflexivity | vm_compute; lia] ..|].
  exists s', b'. split; [exact Hrun|]. split; [exact Hb'|].
  split; [|exact Hbox].
  revert Hrun. vm_compute. intros [= <-]. reflexivity.
Defined.

(** ** Collision response *)

(** X12: the cases of [collide(a, b)] on two different bodies, in the
    values the calls of [p5.Vector] leave ([copied], [scaled] and so on;
    [mult] and [div] refuse a number that is not finite, and [div] a 0).
    Unless both bodies are solid, no velocity changes.  When both are
    solid and [a] is static, the velocity of [b] becomes the copy of its
    copy times minus its own coefficient of restitution and [a] keeps its
    velocity, whether [b] is static or not.  When both are solid and
    neither is static, both new velocities are computed from the two old
    ones by [response]. *)
Theorem collide_cases
    (s : State) (a b : ref) (A B : body) (ua ub : Vector) :
  objs s !! a = Some A ->
  objs s !! b = Some B ->
  a <> b ->
  vecs s !! _vel A = Some ua ->
  vecs s !! _vel B = Some ub ->
  exists s',
    Body.collide a b s = (Normal tt, s')
    /\ (solid A && solid B = false ->
          velOf s' a = Some ua /\ velOf s' b = Some ub)
    /\ (solid A && solid B = true -> static A = true ->
          velOf s' a = Some ua
          /\ velOf s' b = Some (copied (scaled (copied ub) (- _cr B))))
    /\ (solid A && solid B = true -> static A = false -> static B = false ->
          velOf s' a =
            Some (response (_cr A) (_mass B) ub ua
                    (scaled (copied ua) (_mass A))
                    (scaled (copied ub) (_mass B)) (_mass A + _mass B))
          /\ velOf s' b =
               Some (response (_cr B) (_mass A) ua ub
                       (scaled (copied ua) (_mass A))
                       (scaled (copied ub) (_mass B)) (_mass A + _mass B))).
Proof.
  intros Ha Hb Hab Hua Hub.
  destruct (solid A && solid B) eqn:Hsolid.
  - apply andb_prop in Hsolid as [HsA HsB].
    destruct (static A) eqn:HtA; [|destruct (static B) eqn:HtB].
    + destruct (collide_static_first s a b A B ua ub) as (s' & Hrun & Hva & Hvb);
        try done.
      exists s'. repeat split; done.
    + destruct (collide_static_second s a b A B ua ub) as (s' & Hrun & _);
        try done.
      exists s'. repeat split; done.
    + destruct (collide_dynamic s a b A B ua ub) as (s' & Hrun & Hva & Hvb);
        try done.
      exists s'. repeat split; done.
  - pose proof (lookup_lt_Some _ _ _ Ha). pose proof (lookup_lt_Some _ _ _ Hb).
    unfold Body.collide, Body.trace_collide.
    unfold bind at 1. unfold bind at 1. unfold getBody at 1. fields. rewrite Ha.
    unfold bind at 1. unfold getBody at 1. fields. rewrite Hb.
    rewrite Hsolid. eexists. split; [reflexivity|].
    unfold velOf. fields. rewrite Ha, Hb. cbn [mbind option_bind].
    repeat split; done.
Qed.

Lemma collide_cases_witness :
  exists s',
    Body.collide 0 1 head_on = (Normal tt, s')
    /\ velOf s' 0 = Some (createVector (-2) 0)
    /\ velOf s' 1 = Some (createVector 2 0).
Proof.
  pose proof (fun A B => collide_cases head_on 0 1 A B
                           (createVector 2 0) (createVector (-2) 0)) as H.
  edestruct H as (s' & Hrun & _ & _ & Hdyn);
    [vm_compute; reflexivity | vm_compute; reflexivity | vm_compute; lia
    | vm_compute; reflexivity | vm_compute; reflexivity |].
  exists s'. split; [exact Hrun|].
  apply Hdyn; vm_compute; reflexivity.
Defined.

(** X13: [collide(a, b)] in the revision with the accessors and in the
    one before it, on two bodies with two velocity vectors that have no
    component that is NaN or -0, in every case but the one in which both
    bodies are solid, [a] is not static and [b] is.  The two velocities
    the first leaves are the copies of those the second leaves, that is
    the same but for 0 in the place of a NaN or a -0: the revision before
    writes the product into the velocity in place when a body is static,
    and stores [x || 0] like a copy when neither is. *)
Theorem collide_revisions_agree
    (s : State) (a b : ref) (A B : body) (ua ub : Vector) :
  objs s !! a = Some A ->
  objs s !! b = Some B ->
  _vel A <> _vel B ->
  vecs s !! _vel A = Some ua ->
  vecs s !! _vel B = Some ub ->
  plain ua -> plain ub ->
  solid A && solid B && negb (static A) && static B = false ->
  exists s1 s2 va vb,
    Body.collide a b s = (Normal tt, s1)
    /\ Previous.collide a b s = (Normal tt, s2)
    /\ velOf s2 a = Some va /\ velOf s2 b = Some vb
    /\ velOf s1 a = Some (copied va) /\ velOf s1 b = Some (copied vb).
Proof.
  intros Ha Hb Hne Hua Hub Hpa Hpb Hcase.
  assert (a <> b) as Hab by (intros ->; congruence).
  pose proof (lookup_lt_Some _ _ _ Ha). pose proof (lookup_lt_Some _ _ _ Hb).
  pose proof (lookup_lt_Some _ _ _ Hua). pose proof (lookup_lt_Some _ _ _ Hub).
  apply plain_or0 in Hpa as [Hax Hay]. apply plain_or0 in Hpb as [Hbx Hby].
  destruct ua as [uax uay], ub as [ubx uby]. cbn [x y] in Hax, Hay, Hbx, Hby.
  destruct (solid A) eqn:HsA, (solid B) eqn:HsB, (static A) eqn:HtA,
    (static B) eqn:HtB; try discriminate.
  all: eexists _, _, _, _.
  all: split;
    [ unfold Body.collide, Body.trace_collide;
      unfold bind at 1; unfold bind at 1; unfold getBody at 1; fields;
      rewrite Ha; unfold bind at 1; unfold getBody at 1; fields; rewrite Hb;
      rewrite ?HsA, ?HsB, ?HtA, ?HtB; fields;
      accessors; prims; run; reflexivity |].
  all: split;
    [ unfold Previous.collide, Previous.console_log, Body.trace_collide;
      unfold bind at 1; unfold bind at 1; unfold getBody at 1; fields;
      rewrite Ha; unfold bind at 1; unfold getBody at 1; fields; rewrite Hb;
      rewrite ?HsA, ?HsB, ?HtA, ?HtB; fields;
      accessors; prims; run; reflexivity |].
  all: unfold velOf; run; cbn [mbind option_bind]; run.
  all: split; [reflexivity|]; split; [reflexivity|].
  all: unfold copied; cbn [x y].
  all: rewrite ?or0_or0, ?Hax, ?Hay, ?Hbx, ?Hby.
  all: split; reflexivity.
Qed.

Lemma collide_revisions_agree_witness :
  exists s1 s2 va vb,
    Body.collide 0 1 head_on = (Normal tt, s1)
    /\ Previous.collide 0 1 head_on = (Normal tt, s2)
    /\ velOf s2 0 = Some va /\ velOf s2 1 = Some vb
    /\ velOf s1 0 = Some (copied va) /\ velOf s1 1 = Some (copied vb).
Proof.
  eapply (collide_revisions_agree head_on 0 1 _ _
            (createVector 2 0) (createVector (-2) 0));
    try (vm_compute; reflexivity).
  vm_compute. lia.
Defined.

(** ** The constructor *)

(** X14: [new DrawableBody(x, y, w, h)] makes one new body and touches
    nothing that existed.  The body takes the next identifier, has mass
    1, coefficient of restitution 1, coefficient of friction 0 and the
    given size, is solid, not static, in Rectangle mode and in no world;
    it is at rest at (x || 0, y || 0), which is (x, y) unless a
    coordinate is NaN or -0, and its bounding box is up to date.  Since
    it is in no world, [edges()] on it throws a TypeError. *)
Theorem new_body (s : State) (x0 y0 w h : float) :
  exists s' b,
    DrawableBody.new x0 y0 w h s = (Normal (length (objs s)), s')
    /\ objs s' !! length (objs s) = Some b
    /\ (forall c C, objs s !! c = Some C -> objs s' !! c = Some C)
    /\ (forall r v, vecs s !! r = Some v -> vecs s' !! r = Some v)
    /\ worlds s' = worlds s
    /\ _id b = __body_id s /\ __body_id s' = S (__body_id s)
    /\ _mass b = 1 /\ _cr b = 1 /\ μ b = 0 /\ _w b = w /\ _h b = h
    /\ static b = false /\ solid b = true /\ _world b = Datatypes.None
    /\ _mode b = DrawableBodyMode.Rectangle
    /\ posOf s' (length (objs s)) = Some (createVector (or0 x0) (or0 y0))
    /\ (isNaN x0 = false -> (or0 x0 =? x0) = true)
    /\ (isNaN y0 = false -> (or0 y0 =? y0) = true)
    /\ velOf s' (length (objs s)) = Some (createVector 0 0)
    /\ accOf s' (length (objs s)) = Some (createVector 0 0)
    /\ boxed s' (length (objs s))
    /\ Body.edges (length (objs s)) s' = (Throw TypeError, s').
Proof.
  unfold DrawableBody.new, DrawableBody._calcBoundingBox, newBody.
  accessors. prims. run.
  eexists _, _. split; [reflexivity|]. run.
  split; [reflexivity|]. fields.
  split.
  { intros c C Hc. pose proof (lookup_lt_Some _ _ _ Hc). run. done. }
  split.
  { intros r v Hr. pose proof (lookup_lt_Some _ _ _ Hr). run. done. }
  repeat (split; [reflexivity|]).
  unfold posOf, velOf, accOf. run. cbn [mbind option_bind]. run.
  split; [reflexivity|].
  split; [apply or0_eqb|]. split; [apply or0_eqb|].
  repeat (split; [reflexivity|]).
  split.
  - eexists _, _, _. run. split; [reflexivity|]. run.
    split; [reflexivity|]. run. split; [reflexivity|].
    unfold bounding_box, copied. run. by rewrite !or0_or0.
  - unfold Body.edges. prims. run. reflexivity.
Qed.

(** ** The bounding box *)

(** Closes a goal [boxed s this] on a store that was run. *)
Ltac boxed_goal :=
  eexists _, _, _; run;
  split; [reflexivity|]; run;
  split; [reflexivity|]; run;
  split; [reflexivity|];
  unfold bounding_box; fields;
  repeat match goal with
         | H : DrawableBody.extent _ _ _ = _ |- _ => rewrite H
         | H : _mode _ = _ |- _ => rewrite H
         end;
  unfold copied; fields; rewrite ?or0_or0; reflexivity.

(** X15: the methods that recompute the bounding box.  After
    [width(value)], [height(value)], [update()] on a body that is not
    static, [setDrawMode(mode)] with one of the four modes, and
    [setPolygon(...vertices)], the bounding box is the box
    [_calcBoundingBox] computes of the body as it is then, its corner
    being a copy of the position or a vector of [createVector], with
    [x || 0] for [x]; the two size setters return the body and the
    getters return the new size. *)
Theorem bounding_box_maintained
    (s : State) (this : ref) (b : body) (pv vv av : Vector) :
  objs s !! this = Some b ->
  vecs s !! _pos b = Some pv ->
  vecs s !! _vel b = Some vv ->
  vecs s !! _acc b = Some av ->
  (forall value, _mode b <> DrawableBodyMode.Unknown ->
     exists s',
       DrawableBody.width_set this value s = (Normal this, s')
       /\ Body.width this s' = (Normal value, s')
       /\ boxed s' this)
  /\ (forall value, _mode b <> DrawableBodyMode.Unknown ->
        exists s',
          DrawableBody.height_set this value s = (Normal this, s')
          /\ Body.height this s' = (Normal value, s')
          /\ boxed s' this)
  /\ (static b = false -> _mode b <> DrawableBodyMode.Unknown ->
        exists s',
          DrawableBody.update this s = (Normal tt, s') /\ boxed s' this)
  /\ (forall mode, mode <> DrawableBodyMode.Unknown ->
        exists s',
          DrawableBody.setDrawMode this mode s = (Normal this, s')
          /\ boxed s' this)
  /\ (forall vertices,
        exists s',
          DrawableBody.setPolygon this (Some vertices) s = (Normal this, s')
          /\ boxed s' this).
Proof.
  intros Hb Hp Hv Ha. destruct pv as [px py].
  pose proof (lookup_lt_Some _ _ _ Hb). pose proof (lookup_lt_Some _ _ _ Hp).
  pose proof (lookup_lt_Some _ _ _ Hv). pose proof (lookup_lt_Some _ _ _ Ha).
  split; [|split; [|split; [|split]]].
  - intros value Hmode.
    unfold DrawableBody.width_set, DrawableBody._calcBoundingBox.
    accessors. prims. run.
    destruct (_mode b) eqn:Hm; [| | | |done]; run.
    4: destruct (DrawableBody.extent _ _ _) as [topleft bottomright] eqn:He;
       run.
    all: eexists; (split; [reflexivity|]); run; (split; [reflexivity|]).
    all: boxed_goal.
  - intros value Hmode.
    unfold DrawableBody.height_set, DrawableBody._calcBoundingBox.
    accessors. prims. run.
    destruct (_mode b) eqn:Hm; [| | | |done]; run.
    4: destruct (DrawableBody.extent _ _ _) as [topleft bottomright] eqn:He;
       run.
    all: eexists; (split; [reflexivity|]); run; (split; [reflexivity|]).
    all: boxed_goal.
  - intros Hs Hmode.
    unfold DrawableBody.update, Body.update.
    unfold bind at 1. unfold bind at 1. unfold getBody at 1. rewrite Hb, Hs.
    unfold DrawableBody._calcBoundingBox. accessors. prims. run.
    erewrite pos_set_run by (run; reflexivity).
    unfold moved. fields.
    destruct (_mode b) eqn:Hm; [| | | |done];
      repeat (progress (run; rewrite ?Hm)).
    4: destruct (DrawableBody.extent _ _ _) as [topleft bottomright] eqn:He;
       run.
    all: eexists; (split; [reflexivity|]).
    all: boxed_goal.
  - intros mode Hmode.
    unfold DrawableBody.setDrawMode, DrawableBody._calcBoundingBox.
    accessors. prims. run.
    destruct mode; [| | | |done]; run.
    4: destruct (DrawableBody.extent _ _ _) as [topleft bottomright] eqn:He;
       run.
    all: eexists; (split; [reflexivity|]).
    all: boxed_goal.
  - intros vertices.
    unfold DrawableBody.setPolygon, DrawableBody._calcBoundingBox.
    unfold bind at 1. unfold modBody at 1. rewrite Hb.
    unfold bind at 1. unfold bind at 1. unfold modBody at 1. run.
    unfold bind at 1.
    rewrite (mapM_read _ (fun v : vertex => (fst v - px, snd v - py)));
      [|intros v; prims; run; reflexivity].
    prims. run.
    destruct (DrawableBody.extent _ _ _) as [topleft bottomright] eqn:He.
    run. eexists. split; [reflexivity|]. boxed_goal.
Qed.

Lemma bounding_box_maintained_witness :
  (exists s',
     DrawableBody.width_set 0 20 moving_body = (Normal 0%nat, s')
     /\ Body.width 0 s' = (Normal 20, s')
     /\ boxed s' 0)
  /\ (exists s',
        DrawableBody.update 0 moving_body = (Normal tt, s') /\ boxed s' 0).
Proof.
  pose proof (fun b =>
    bounding_box_maintained moving_body 0 b (createVector 1 2)
      (createVector 3 4) (createVector 0.5 0.25)) as H.
  edestruct H as (Hwidth & _ & Hupdate & _); [vm_compute; reflexivity ..|].
  split; [apply Hwidth | apply Hupdate];
    first [vm_compute; reflexivity | vm_compute; discriminate].
Defined.

(** X16: [setDrawMode(mode)] with a value that is none of the four modes
    throws the error of [_calcBoundingBox], but only after it has stored
    the mode: the body is left in that mode, with nothing else changed.
    From then on [update()] on the body, when it is not static, moves the
    body and then throws the same error: the velocity is then the copy of
    the sum of the copies of the velocity and the acceleration, the
    position the copy of the sum of the copy of the position and the new
    velocity, a copy having [x || 0] for [x]. *)
Theorem unknown_draw_mode
    (s : State) (this : ref) (b : body) (pv vv av : Vector) :
  objs s !! this = Some b ->
  vecs s !! _pos b = Some pv ->
  vecs s !! _vel b = Some vv ->
  vecs s !! _acc b = Some av ->
  static b = false ->
  let v' := copied (added (copied vv) (copied av)) in
  let p' := copied (added (copied pv) v') in
  exists s1 s2,
    DrawableBody.setDrawMode this DrawableBodyMode.Unknown s
      = (Throw BoundingBoxError, s1)
    /\ s1 = with_objs (fun h =>
              <[this := set_mode DrawableBodyMode.Unknown b]> h) s
    /\ DrawableBody.update this s1 = (Throw BoundingBoxError, s2)
    /\ velOf s2 this = Some v'
    /\ posOf s2 this = Some p'.
Proof.
  intros Hb Hp Hv Ha Hs v' p'. subst v' p'.
  pose proof (lookup_lt_Some _ _ _ Hb). pose proof (lookup_lt_Some _ _ _ Hp).
  pose proof (lookup_lt_Some _ _ _ Hv). pose proof (lookup_lt_Some _ _ _ Ha).
  eexists _, _.
  split.
  { unfold DrawableBody.setDrawMode, DrawableBody._calcBoundingBox.
    prims. run. reflexivity. }
  split; [reflexivity|].
  unfold DrawableBody.update, Body.update.
  unfold bind at 1. unfold bind at 1. unfold getBody at 1. run. rewrite Hs.
  unfold DrawableBody._calcBoundingBox. accessors. prims. run.
  erewrite pos_set_run by (run; reflexivity).
  unfold moved. run.
  split; [reflexivity|].
  unfold velOf, posOf. run. cbn [mbind option_bind]. run.
  unfold copied, added. cbn [x y]. by rewrite ?or0_or0.
Qed.

Lemma unknown_draw_mode_witness :
  exists s1 s2,
    DrawableBody.setDrawMode 0 DrawableBodyMode.Unknown moving_body
      = (Throw BoundingBoxError, s1)
    /\ DrawableBody.update 0 s1 = (Throw BoundingBoxError, s2)
    /\ posOf s2 0 = Some (createVector 4.5 6.25).
Proof.
  pose proof (fun b =>
    unknown_draw_mode moving_body 0 b (createVector 1 2)
      (createVector 3 4) (createVector 0.5 0.25)) as H.
  edestruct H as (s1 & s2 & Hset & _ & Hupdate & _ & Hpos);
    [vm_compute; reflexivity ..|].
  exists s1, s2. split; [exact Hset|]. split; [exact Hupdate|].
  rewrite Hpos. vm_compute. reflexivity.
Defined.

(** X17: the setters of the position move the body without recomputing
    its bounding box: after [pos(vector)], [posX(x)] or [posY(y)] the
    box is the vector it was, with the components, the width and the
    height it had.  [pos(vector)] stores a copy of the vector, which has
    [x || 0] for [x]; [posX(x)] and [posY(y)] store the number as it
    is. *)
Theorem position_setters_leave_bounding_box
    (s : State) (this v : ref) (b : body) (p val bb : Vector) :
  objs s !! this = Some b ->
  vecs s !! _pos b = Some p ->
  vecs s !! v = Some val ->
  vecs s !! _bb_pos b = Some bb ->
  _bb_pos b <> _pos b ->
  let same_box s' :=
    exists b',
      objs s' !! this = Some b'
      /\ _bb_pos b' = _bb_pos b /\ _bb_w b' = _bb_w b /\ _bb_h b' = _bb_h b
      /\ vecs s' !! _bb_pos b' = Some bb in
  (exists s',
     Body.pos_set this v s = (Normal this, s')
     /\ posOf s' this = Some (copied val) /\ same_box s')
  /\ (forall x0, exists s',
        Body.posX_set this x0 s = (Normal this, s')
        /\ posOf s' this = Some (createVector x0 (y p)) /\ same_box s')
  /\ (forall y0, exists s',
        Body.posY_set this y0 s = (Normal this, s')
        /\ posOf s' this = Some (createVector (x p) y0) /\ same_box s').
Proof.
  intros Hb Hp Hv Hbb Hne same_box. subst same_box.
  pose proof (lookup_lt_Some _ _ _ Hb). pose proof (lookup_lt_Some _ _ _ Hp).
  pose proof (lookup_lt_Some _ _ _ Hv). pose proof (lookup_lt_Some _ _ _ Hbb).
  destruct val as [vx vy].
  split; [|split].
  - erewrite pos_set_run by eassumption.
    unfold moved. fields.
    destruct (_mode b) eqn:Hm.
    all: eexists; (split; [reflexivity|]).
    all: unfold posOf; run; cbn [mbind option_bind]; run.
    all: split; [reflexivity|].
    all: eexists; (split; [reflexivity|]); run; done.
  - intros x0. unfold Body.posX_set. prims. run. hook.
    destruct (_mode b) eqn:Hm.
    all: eexists; (split; [reflexivity|]).
    all: unfold posOf; run; cbn [mbind option_bind]; run.
    all: split; [reflexivity|].
    all: eexists; (split; [reflexivity|]); run; done.
  - intros y0. unfold Body.posY_set. prims. run. hook.
    destruct (_mode b) eqn:Hm.
    all: eexists; (split; [reflexivity|]).
    all: unfold posOf; run; cbn [mbind option_bind]; run.
    all: split; [reflexivity|].
    all: eexists; (split; [reflexivity|]); run; done.
Qed.

Lemma position_setters_leave_bounding_box_witness :
  exists s' b',
    Body.posX_set 0 7 moving_body = (Normal 0%nat, s')
    /\ posOf s' 0 = Some (createVector 7 2)
    /\ objs s' !! 0%nat = Some b'
    /\ vecs s' !! _bb_pos b' = Some (createVector 1 2).
Proof.
  pose proof (fun b =>
    position_setters_leave_bounding_box moving_body 0 9 b (createVector 1 2)
      (createVector (-2) 6) (createVector 1 2)) as H.
  edestruct H as (_ & HX & _);
    [first [vm_compute; reflexivity | vm_compute; lia] ..|].
  destruct (HX 7) as (s' & Hrun & Hpos & b' & Hb' & _ & _ & _ & Hbox).
  exists s', b'. done.
Defined.

(** X18: a polygon follows its body.  [setPolygon(...vertices)] stores
    the vertices relative to the position, and a later [pos(vector)]
    makes [_path] these offsets plus the new position, which is the copy
    of the vector, with [x || 0] for [x]; the offsets in [_oPath]
    stay. *)
Theorem polygon_follows_position
    (s : State) (this v : ref) (b : body) (p q : Vector)
    (vertices : list vertex) :
  objs s !! this = Some b ->
  vecs s !! _pos b = Some p ->
  vecs s !! v = Some q ->
  exists s1 s2 b2,
    DrawableBody.setPolygon this (Some vertices) s = (Normal this, s1)
    /\ Body.pos_set this v s1 = (Normal this, s2)
    /\ objs s2 !! this = Some b2
    /\ posOf s2 this = Some (copied q)
    /\ _oPath b2 = map (fun u : vertex => (fst u - x p, snd u - y p)) vertices
    /\ _path b2 =
         map (fun u : vertex =>
                (fst u - x p + x (copied q), snd u - y p + y (copied q)))
           vertices.
Proof.
  intros Hb Hp Hv.
  pose proof (lookup_lt_Some _ _ _ Hb). pose proof (lookup_lt_Some _ _ _ Hp).
  pose proof (lookup_lt_Some _ _ _ Hv).
  destruct q as [qx qy].
  unfold DrawableBody.setPolygon, DrawableBody._calcBoundingBox.
  unfold bind at 1. unfold modBody at 1. rewrite Hb.
  unfold bind at 1. unfold bind at 1. unfold modBody at 1. run.
  unfold bind at 1.
  rewrite (mapM_read _ (fun u : vertex => (fst u - x p, snd u - y p)));
    [|intros u; prims; run; reflexivity].
  prims. run.
  destruct (DrawableBody.extent _ _ _) as [topleft bottomright].
  run. eexists _, _, _. split; [reflexivity|].
  erewrite pos_set_run by (run; reflexivity).
  unfold moved. run.
  split; [reflexivity|]. run. split; [reflexivity|].
  unfold posOf. run. cbn [mbind option_bind]. run.
  split; [reflexivity|]. split; [reflexivity|].
  rewrite map_map. reflexivity.
Qed.

Lemma polygon_follows_position_witness :
  exists s1 s2 b2,
    DrawableBody.setPolygon 0 (Some [(1, 2); (5, 2); (3, 6)]) moving_body
      = (Normal 0%nat, s1)
    /\ Body.pos_set 0 9 s1 = (Normal 0%nat, s2)
    /\ objs s2 !! 0%nat = Some b2
    /\ posOf s2 0 = Some (createVector (-2) 6)
    /\ _oPath b2 = [(0, 0); (4, 0); (2, 4)]
    /\ _path b2 = [(-2, 6); (2, 6); (0, 10)].
Proof.
  pose proof (fun b =>
    polygon_follows_position moving_body 0 9 b (createVector 1 2)
      (createVector (-2) 6) [(1, 2); (5, 2); (3, 6)]) as H.
  edestruct H as (s1 & s2 & b2 & Hset & Hpos & Hb2 & Hq & HoPath & Hpath);
    [vm_compute; reflexivity ..|].
  exists s1, s2, b2. repeat split; try done.
Defined.

(** X19: [setTriangle()] puts the body in Path mode with the three
    vertices left-top, left-bottom and right-middle of its rectangle of
    half-width [_w / 2] and half-height [_h / 2] around the copy
    [pos()] gives of the position, which has [x || 0] for [x]; it stores
    their offsets from the position as it is stored, and brings the
    bounding box up to date; the position is not changed. *)
Theorem setTriangle_path (s : State) (this : ref) (b : body) (p : Vector) :
  objs s !! this = Some b ->
  vecs s !! _pos b = Some p ->
  let c := copied p in
  let vertices :=
    [(x c - _w b / 2, y c - _h b / 2);
     (x c - _w b / 2, y c + _h b / 2);
     (x c + _w b / 2, y c)] in
  exists s' b',
    DrawableBody.setTriangle this s = (Normal this, s')
    /\ objs s' !! this = Some b'
    /\ _mode b' = DrawableBodyMode.Path
    /\ _path b' = vertices
    /\ _oPath b' = map (fun u : vertex => (fst u - x p, snd u - y p)) vertices
    /\ posOf s' this = Some p
    /\ boxed s' this.
Proof.
  intros Hb Hp c vertices. subst c vertices. destruct p as [px py].
  pose proof (lookup_lt_Some _ _ _ Hb). pose proof (lookup_lt_Some _ _ _ Hp).
  unfold DrawableBody.setTriangle, DrawableBody.setPolygon,
    DrawableBody._calcBoundingBox.
  accessors. cbn [mapM]. prims. run.
  destruct (DrawableBody.extent _ _ _) as [topleft bottomright] eqn:He.
  run. eexists _, _. split; [reflexivity|]. run.
  split; [reflexivity|]. fields.
  repeat (split; [reflexivity|]).
  unfold posOf. run. cbn [mbind option_bind]. run.
  split; [reflexivity|].
  eexists _, _, _. run. split; [reflexivity|]. run.
  split; [reflexivity|]. run. split; [reflexivity|].
  unfold bounding_box. fields. rewrite He. reflexivity.
Qed.

Lemma setTriangle_path_witness :
  exists s' b',
    DrawableBody.setTriangle 0 moving_body = (Normal 0%nat, s')
    /\ objs s' !! 0%nat = Some b'
    /\ _mode b' = DrawableBodyMode.Path
    /\ _path b' = [(-4, -3); (-4, 7); (6, 2)]
    /\ _oPath b' = [(-5, -5); (-5, 5); (5, 0)]
    /\ posOf s' 0 = Some (createVector 1 2)
    /\ boxed s' 0.
Proof.
  pose proof (fun b =>
    setTriangle_path moving_body 0 b (createVector 1 2)) as H.
  edestruct H as (s' & b' & Hrun & Hb' & Hmode & Hpath & HoPath & Hpos & Hbox);
    [vm_compute; reflexivity ..|].
  exists s', b'. repeat split; try done.
Defined.

(** The order of the floats that are numbers is transitive. *)
Lemma SFleb_trans (a b c : spec_float) :
  SFleb a b = true -> SFleb b c = true -> SFleb a c = true.
Proof.
  unfold SFleb.
  destruct a as [sa|sa| |sa ma ea], b as [sb|sb| |sb mb eb],
    c as [sc|sc| |sc mc ec]; cbn; try done.
  all: try (by destruct sa); try (by destruct sb); try (by destruct sc).
  all: try (by destruct sa, sb); try (by destruct sa, sc);
    try (by destruct sb, sc); try (by destruct sa, sb, sc).
  change (PosDef.Pos.compare_cont Eq ma mb) with (Pos.compare ma mb).
  change (PosDef.Pos.compare_cont Eq mb mc) with (Pos.compare mb mc).
  change (PosDef.Pos.compare_cont Eq ma mc) with (Pos.compare ma mc).
  destruct sa, sb, sc; try done.
  all: destruct (Z.compare_spec ea eb), (Z.compare_spec eb ec),
         (Z.compare_spec ea ec); try done; try lia.
  all: destruct (Pos.compare_spec ma mb), (Pos.compare_spec mb mc),
         (Pos.compare_spec ma mc); try done; try lia.
Qed.

Lemma float_le_trans (a b c : float) :
  (a <=? b) = true -> (b <=? c) = true -> (a <=? c) = true.
Proof. rewrite !leb_spec. apply SFleb_trans. Qed.

Lemma float_lt_le (a b : float) : (a <? b) = true -> (a <=? b) = true.
Proof.
  rewrite ltb_spec, leb_spec. unfold SFltb, SFleb.
  by destruct (SFcompare (Prim2SF a) (Prim2SF b)) as [[]|].
Qed.

Lemma lower_le (m v : float) :
  is_nan m = false -> is_nan v = false ->
  let m' := if v <? m then v else m in
  is_nan m' = false /\ (m' <=? m) = true /\ (m' <=? v) = true.
Proof.
  intros Hm Hv. cbv zeta. destruct (v <? m) eqn:E.
  - split; [done|]. split; [by apply float_lt_le | by apply float_le_refl].
  - split; [done|]. split; [by apply float_le_refl | by apply float_not_lt_le].
Qed.

Lemma upper_le (m v : float) :
  is_nan m = false -> is_nan v = false ->
  let m' := if m <? v then v else m in
  is_nan m' = false /\ (m <=? m') = true /\ (v <=? m') = true.
Proof.
  intros Hm Hv. cbv zeta. destruct (m <? v) eqn:E.
  - split; [done|]. split; [by apply float_lt_le | by apply float_le_refl].
  - split; [done|]. split; [by apply float_le_refl | by apply float_not_lt_le].
Qed.

Lemma extent_bounds (path : list vertex) (tl br tl' br' : vertex) :
  numbers tl -> numbers br -> Forall numbers path ->
  DrawableBody.extent path tl br = (tl', br') ->
  (fst tl' <=? fst tl) = true /\ (snd tl' <=? snd tl) = true
  /\ (fst br <=? fst br') = true /\ (snd br <=? snd br') = true
  /\ Forall (between tl' br') path.
Proof.
  unfold numbers, isNaN.
  revert tl br. induction path as [|v path IH]; intros tl br Htl Hbr Hpath.
  - cbn [DrawableBody.extent]. intros [= <- <-].
    destruct Htl, Hbr. repeat split; try by apply float_le_refl. constructor.
  - cbn [DrawableBody.extent]. cbv zeta.
    inversion Hpath as [|? ? [Hv1 Hv2] Hrest]; subst.
    destruct Htl as [Ht1 Ht2], Hbr as [Hb1 Hb2].
    destruct (lower_le (fst tl) (fst v) Ht1 Hv1) as (N1 & L1 & L1').
    destruct (lower_le (snd tl) (snd v) Ht2 Hv2) as (N2 & L2 & L2').
    destruct (upper_le (fst br) (fst v) Hb1 Hv1) as (N3 & U1 & U1').
    destruct (upper_le (snd br) (snd v) Hb2 Hv2) as (N4 & U2 & U2').
    intros He. apply IH in He as (A1 & A2 & A3 & A4 & Hall);
      [|by split|by split|done].
    cbn [fst snd] in *.
    repeat split; try (eapply float_le_trans; eassumption).
    constructor; [|done].
    repeat split; eapply float_le_trans; eassumption.
Qed.

(** X20: the scan of [_calcBoundingBox] over a path whose coordinates
    are numbers ends with two corners between which every vertex of the
    path lies; over the empty path it ends where it began, with the
    corners (Infinity, Infinity) and (-Infinity, -Infinity). *)
Theorem extent_contains_path (path : list vertex) :
  Forall numbers path ->
  Forall (between
            (fst (DrawableBody.extent path (Infinity, Infinity)
                    (- Infinity, - Infinity)))
            (snd (DrawableBody.extent path (Infinity, Infinity)
                    (- Infinity, - Infinity)))) path
  /\ DrawableBody.extent [] (Infinity, Infinity) (- Infinity, - Infinity)
       = ((Infinity, Infinity), (- Infinity, - Infinity)).
Proof.
  intros Hpath. split; [|reflexivity].
  destruct (DrawableBody.extent path _ _) as [tl br] eqn:He.
  apply extent_bounds in He as (_ & _ & _ & _ & Hall); try done.
Qed.

Lemma extent_contains_path_witness :
  Forall (between (1, 2) (5, 6)) [(1, 2); (5, 2); (3, 6)].
Proof.
  apply (extent_contains_path [(1, 2); (5, 2); (3, 6)]).
  repeat constructor.
Defined.

(** ** Collision detection *)

(** A computation that changes no body, no world and no vector that
    exists, and makes no call of [collide]; it may make new vectors and
    write to the console. *)
Definition reads {A} (m : M A) : Prop :=
  forall s,
    objs (snd (m s)) = objs s
    /\ worlds (snd (m s)) = worlds s
    /\ collided (snd (m s)) = collided s
    /\ exists l, vecs (snd (m s)) = vecs s ++ l.

Lemma reads_ret {A} (a : A) : reads (ret a).
Proof. intros s. repeat split. exists []. by rewrite app_nil_r. Qed.

Lemma reads_throw {A} (e : exn) : reads (@throw A e).
Proof. intros s. repeat split. exists []. by rewrite app_nil_r. Qed.

Lemma reads_bind {A B} (m : M A) (k : A -> M B) :
  reads m -> (forall a, reads (k a)) -> reads (bind m k).
Proof.
  intros Hm Hk s. unfold bind. specialize (Hm s).
  destruct (m s) as [[a|e] s1]; cbn [snd] in *; [|done].
  destruct Hm as (H1 & H2 & H3 & l1 & H4).
  destruct (Hk a s1) as (K1 & K2 & K3 & l2 & K4).
  rewrite K1, K2, K3, K4, H1, H2, H3, H4. repeat split.
  exists (l1 ++ l2). by rewrite app_assoc.
Qed.

Lemma reads_getVector r : reads (getVector r).
Proof.
  intros s. unfold getVector.
  destruct (vecs s !! r); repeat split; exists []; by rewrite app_nil_r.
Qed.

Lemma reads_getBody r : reads (getBody r).
Proof.
  intros s. unfold getBody.
  destruct (objs s !! r); repeat split; exists []; by rewrite app_nil_r.
Qed.

Lemma reads_getWorld r : reads (getWorld r).
Proof.
  intros s. unfold getWorld.
  destruct (worlds s !! r); repeat split; exists []; by rewrite app_nil_r.
Qed.

Lemma reads_newVector v : reads (newVector v).
Proof. intros s. repeat split. by exists [v]. Qed.

Lemma reads_createVector x0 y0 : reads (p5.createVector x0 y0).
Proof. apply reads_newVector. Qed.

Lemma reads_console_warn : reads console_warn.
Proof. intros s. repeat split. exists []. by rewrite app_nil_r. Qed.

Lemma reads_mapM {A B} (f : A -> M B) (l : list A) :
  (forall a, reads (f a)) -> reads (mapM f l).
Proof.
  intros Hf. induction l as [|a l IH]; cbn [mapM].
  - apply reads_ret.
  - apply reads_bind; [apply Hf|]. intros b.
    apply reads_bind; [apply IH|]. intros bs. apply reads_ret.
Qed.

Create HintDb reads.
#[local] Hint Resolve reads_ret reads_throw reads_getVector reads_getBody
  reads_getWorld reads_newVector reads_createVector reads_console_warn
  : reads.

(** X21: [DrawableBody.collision(a, b)] only looks: whatever the modes of
    the two bodies and the answers of the collision predicates of the
    host, and also when it throws, it changes no field of any body or
    world and no vector that existed, and makes no call of [collide]. *)
Theorem collision_reads_only `{Host} (a b : ref) (s : State) :
  objs (exec (DrawableBody.collision a b) s) = objs s
  /\ worlds (exec (DrawableBody.collision a b) s) = worlds s
  /\ collided (exec (DrawableBody.collision a b) s) = collided s
  /\ (forall r v, vecs s !! r = Some v ->
        vecs (exec (DrawableBody.collision a b) s) !! r = Some v).
Proof.
  assert (reads (DrawableBody.collision a b)) as Hreads.
  { unfold DrawableBody.collision, DrawableBody.vectors.
    repeat first
      [ solve [auto with reads]
      | apply reads_bind; [|intros ?]
      | apply reads_mapM; intros ?
      | match goal with
        | |- reads (match ?c with _ => _ end) => destruct c
        end ]. }
  unfold exec. destruct (Hreads s) as (H1 & H2 & H3 & l & H4).
  repeat split; try done.
  intros r v Hr. rewrite H4. apply lookup_app_l_Some. done.
Qed.

(** X22: on two bodies in Rectangle mode whose bounding boxes are up to
    date, [collision(a, b)] is the rectangle test of the host on the
    positions and the sizes of the two bodies, and leaves the store as
    it was. *)
Theorem collision_of_rectangles `{Host}
    (s : State) (a b : ref) (A B : body) (pa pb boxa boxb : Vector) :
  objs s !! a = Some A ->
  objs s !! b = Some B ->
  _mode A = DrawableBodyMode.Rectangle ->
  _mode B = DrawableBodyMode.Rectangle ->
  vecs s !! _pos A = Some pa ->
  vecs s !! _pos B = Some pb ->
  vecs s !! _bb_pos A = Some boxa ->
  vecs s !! _bb_pos B = Some boxb ->
  box_of A pa = Some (boxa, _bb_w A, _bb_h A) ->
  box_of B pb = Some (boxb, _bb_w B, _bb_h B) ->
  DrawableBody.collision a b s =
    (Normal (collideRectRect (x pa) (y pa) (_w A) (_h A)
                             (x pb) (y pb) (_w B) (_h B)), s).
Proof.
  intros Ha Hb HmA HmB Hpa Hpb Hba Hbb HboxA HboxB.
  unfold box_of in HboxA, HboxB. rewrite HmA in HboxA. rewrite HmB in HboxB.
  injection HboxA as <- HwA HhA. injection HboxB as <- HwB HhB.
  unfold DrawableBody.collision. prims.
  rewrite Ha, Hb, Hba, Hbb, HmA, HmB, <- HwA, <- HhA, <- HwB, <- HhB.
  destruct (collideRectRect _ _ _ _ _ _ _ _) eqn:E; [|reflexivity].
  by rewrite Hpa, Hpb, E.
Qed.

Lemma collision_of_rectangles_witness :
  @DrawableBody.collision rectangles 0 1 three_overlapping =
    (Normal true, three_overlapping).
Proof.
  pose proof (fun A B =>
    @collision_of_rectangles rectangles three_overlapping 0 1 A B
      (createVector 100 100) (createVector 101 101)
      (createVector 100 100) (createVector 101 101)) as H.
  eapply eq_trans; [eapply H; vm_compute; reflexivity|].
  vm_compute. reflexivity.
Defined.

(** ** The bodies of a world *)

Lemma indexOf_None (l : list ref) (v : ref) :
  World.indexOf l v = Datatypes.None -> v ∉ l.
Proof.
  induction l as [|a l IH]; cbn [World.indexOf]; [intros _; apply not_elem_of_nil|].
  destruct (Nat.eqb_spec a v) as [->|Hne]; [done|].
  destruct (World.indexOf l v); [done|]. intros _.
  apply not_elem_of_cons. split; [done | by apply IH].
Qed.

Lemma indexOf_Some (l : list ref) (v : ref) (i : nat) :
  World.indexOf l v = Some i ->
  exists l1 l2, l = l1 ++ v :: l2 /\ (v ∉ l1) /\ delete i l = l1 ++ l2.
Proof.
  revert i. induction l as [|a l IH]; intros i; cbn [World.indexOf]; [done|].
  destruct (Nat.eqb_spec a v) as [->|Hne].
  - intros [= <-]. exists [], l. split; [done|]. split; [apply not_elem_of_nil|done].
  - destruct (World.indexOf l v) as [j|]; [|done]. cbn [option_map].
    intros [= <-]. destruct (IH j eq_refl) as (l1 & l2 & -> & Hnot & Hdel).
    exists (a :: l1), l2. split; [done|]. split.
    + apply not_elem_of_cons. by split.
    + change (a :: delete j (l1 ++ v :: l2) = a :: l1 ++ l2).
      by rewrite Hdel.
Qed.

(** X23: [remove(body)] answers whether the body was among the bodies of
    the world.  When it was not, the store is left as it was; when it
    was, the first occurrence of the body is taken out of the array, the
    other entries keep their order, and nothing else changes: the
    back-reference of the body is not cleared. *)
Theorem remove_first_occurrence (s : State) (W r : ref) (w : world) :
  worlds s !! W = Some w ->
  (r ∉ bodies w -> World.remove W r s = (Normal false, s))
  /\ (r ∈ bodies w ->
        exists l1 l2,
          bodies w = l1 ++ r :: l2
          /\ (r ∉ l1)
          /\ World.remove W r s =
               (Normal true,
                with_worlds (fun h => <[W := set_bodies (l1 ++ l2) w]> h) s)).
Proof.
  intros Hw. unfold World.remove. prims. rewrite Hw.
  destruct (World.indexOf (bodies w) r) as [i|] eqn:Hi.
  - apply indexOf_Some in Hi as (l1 & l2 & Hl & Hnot & Hdel).
    rewrite Hw. split.
    + intros Hout. exfalso. apply Hout. rewrite Hl.
      apply elem_of_app. right. apply list_elem_of_here.
    + intros _. exists l1, l2. rewrite Hdel. done.
  - apply indexOf_None in Hi. split; [done|]. intros Hin. by destruct Hi.
Qed.

Lemma remove_first_occurrence_witness :
  exists l1 l2,
    [0; 1; 2]%nat = l1 ++ 1%nat :: l2
    /\ (1%nat ∉ l1)
    /\ World.remove 0 1 three_overlapping =
         (Normal true,
          with_worlds (fun h =>
            <[0%nat := set_bodies (l1 ++ l2)
                 (mkWorld 0 0 400 400 [0; 1; 2]%nat (Some 0%nat) EdgeMode.None
                    true false)]> h) three_overlapping).
Proof.
  apply (remove_first_occurrence three_overlapping 0 1
           (mkWorld 0 0 400 400 [0; 1; 2]%nat (Some 0%nat) EdgeMode.None
              true false)).
  - vm_compute. reflexivity.
  - cbn [bodies]. apply list_elem_of_further, list_elem_of_here.
Defined.

(** X24: [addBody] does not look for the body in the array: a body added
    twice to a world is in it twice, so that after one [remove], which
    answers true, it is still a body of the world, and [bodyCount()] is
    one more than before the three calls. *)
Theorem addBody_twice (s : State) (W r : ref) (w : world) (b : body) :
  worlds s !! W = Some w ->
  objs s !! r = Some b ->
  exists s' w',
    (World.addBody W r ;; World.addBody W r ;; World.remove W r) s
      = (Normal true, s')
    /\ worlds s' !! W = Some w'
    /\ (r ∈ bodies w')
    /\ World.bodyCount W s' = (Normal (S (length (bodies w))), s').
Proof.
  intros Hw Hb.
  pose proof (lookup_lt_Some _ _ _ Hw). pose proof (lookup_lt_Some _ _ _ Hb).
  unfold bind at 1. erewrite addBody_run by eassumption.
  unfold bind at 1. erewrite addBody_run by (run; reflexivity).
  unfold World.remove. prims. run.
  destruct (World.indexOf ((bodies w ++ [r]) ++ [r]) r) as [i|] eqn:Hi.
  2:{ apply indexOf_None in Hi. exfalso. apply Hi.
      apply elem_of_app. right. apply list_elem_of_here. }
  apply indexOf_Some in Hi as (l1 & l2 & Hl & Hnot & Hdel).
  run. eexists _, _. split; [reflexivity|]. run.
  split; [reflexivity|]. fields. rewrite Hdel.
  assert (r ∈ l2) as Hin.
  { destruct l2 as [|z l2 _] using rev_ind.
    - apply app_inj_tail in Hl as [Hl _]. exfalso. apply Hnot. rewrite <- Hl.
      apply elem_of_app. right. apply list_elem_of_here.
    - change (l1 ++ r :: l2 ++ [z]) with (l1 ++ (r :: l2) ++ [z]) in Hl.
      rewrite app_assoc in Hl. apply app_inj_tail in Hl as [_ <-].
      apply elem_of_app. right. apply list_elem_of_here. }
  split; [apply elem_of_app; by right|].
  unfold World.bodyCount. prims. run.
  do 2 f_equal.
  apply (f_equal length) in Hl. rewrite !length_app in Hl. cbn [length] in Hl.
  rewrite length_app. lia.
Qed.

Lemma addBody_twice_witness :
  exists s' w',
    (World.addBody 0 0 ;; World.addBody 0 0 ;; World.remove 0 0) two_worlds
      = (Normal true, s')
    /\ worlds s' !! 0%nat = Some w'
    /\ (0%nat ∈ bodies w')
    /\ World.bodyCount 0 s' = (Normal 1%nat, s').
Proof.
  eapply (addBody_twice two_worlds 0 0
            (mkWorld 0 0 400 400 [] (Some 0%nat) EdgeMode.None true false));
    vm_compute; reflexivity.
Defined.

(** ** One step of a world *)

(** A world in which collisions are switched off leaves the sweep with
    the store as it was. *)
Lemma sweep_off `{Host} (this : ref) (W : world) (l : list ref)
    (calc : list (ref * ref)) (s : State) :
  worlds s !! this = Some W ->
  doCollisions W = false ->
  snd (World.forEachWith l (World.sweep this) calc s) = s.
Proof.
  intros HW Hoff. revert calc.
  induction l as [|a l IH]; intros calc; [reflexivity|].
  cbn [World.forEachWith]. unfold bind at 1. unfold World.sweep at 1. prims.
  rewrite HW. destruct (objs s !! a) as [A|]; [|reflexivity].
  rewrite Hoff. cbn [andb]. apply IH.
Qed.

(** X25: in a world whose [doCollisions] is false, [update()] makes no
    call of [Body.collide], whatever the collision predicates of the host
    would answer and however the bodies lie. *)
Theorem update_without_collisions `{Host}
    (s : State) (this : ref) (W : world) :
  worlds s !! this = Some W ->
  doCollisions W = false ->
  collided (exec (World.update this) s) = collided s.
Proof.
  intros HW Hoff. unfold exec, World.update.
  unfold bind at 1. unfold getWorld at 1. rewrite HW.
  unfold bind at 1.
  pose proof (keeps_forEach (World.integrate this
                (match edgeMode W with EdgeMode.None => false | _ => true end))
                (bodies W) (keeps_integrate this _) s) as [K1 K2].
  destruct (forEach (bodies W) _ s) as [[[]|e] s1]; cbn [snd] in K1, K2;
    [|done].
  unfold bind at 1. unfold getWorld at 1. rewrite K1, HW.
  unfold bind at 1.
  assert (worlds s1 !! this = Some W) as HW1 by (by rewrite K1).
  pose proof (sweep_off this W (bodies W) [] s1 HW1 Hoff) as Hsweep.
  destruct (World.forEachWith (bodies W) (World.sweep this) [] s1)
    as [[calc|e] s2]; cbn [snd ret] in *; by subst.
Qed.

Lemma update_without_collisions_witness :
  collided (exec (@World.update rectangles 0) collisions_off)
    = collided collisions_off.
Proof.
  eapply (@update_without_collisions rectangles collisions_off 0 _);
    vm_compute; reflexivity.
Defined.

(** The first loop of [update()] on one body that is not static, in a
    world with gravity and without edges. *)
Lemma integrate_run `{Host}
    (s : State) (this r g : ref) (W : world) (b : body) (gv pv vv av : Vector) :
  worlds s !! this = Some W ->
  G W = Some g ->
  vecs s !! g = Some gv ->
  objs s !! r = Some b ->
  static b = false ->
  _mode b <> DrawableBodyMode.Unknown ->
  vecs s !! _pos b = Some pv ->
  vecs s !! _vel b = Some vv ->
  vecs s !! _acc b = Some av ->
  let f := cbOnApply b (divided (copied (scaled (copied gv) (_mass b)))
                                (_mass b)) in
  let a' := copied (added (copied av) f) in
  let v' := copied (added (copied vv) a') in
  let p' := copied (added (copied pv) v') in
  exists s',
    World.integrate this false r s = (Normal tt, s')
    /\ accOf s' r = Some (createVector 0 0)
    /\ velOf s' r = Some v'
    /\ posOf s' r = Some p'
    /\ worlds s' = worlds s
    /\ collided s' = collided s.
Proof.
  intros HW HG Hg Hb Hs Hmode Hp Hv Ha f a' v' p'. subst f a' v' p'.
  pose proof (lookup_lt_Some _ _ _ HW). pose proof (lookup_lt_Some _ _ _ Hg).
  pose proof (lookup_lt_Some _ _ _ Hb). pose proof (lookup_lt_Some _ _ _ Hp).
  pose proof (lookup_lt_Some _ _ _ Hv). pose proof (lookup_lt_Some _ _ _ Ha).
  unfold World.integrate, DrawableBody.update, Body.update, Body.applyForce.
  unfold bind at 1. unfold bind at 1. unfold getWorld at 1. rewrite HW, HG.
  unfold DrawableBody._calcBoundingBox. accessors. prims.
  repeat (progress (run; rewrite ?Hs)).
  erewrite pos_set_run by (run; reflexivity).
  unfold moved. fields.
  destruct (_mode b) eqn:Hm; [| | | |done];
    repeat (progress (run; rewrite ?Hm)).
  4: destruct (DrawableBody.extent _ _ _) as [topleft bottomright]; run.
  all: eexists; (split; [reflexivity|]).
  all: unfold accOf, velOf, posOf; run; cbn [mbind option_bind]; run.
  all: unfold copied, added; cbn [x y]; rewrite ?or0_or0.
  all: done.
Qed.

(** In a world of one body the sweep finds no pair. *)
Lemma sweep_single `{Host} (s : State) (this r : ref) (W : world) (b : body) :
  worlds s !! this = Some W ->
  bodies W = [r] ->
  objs s !! r = Some b ->
  World.forEachWith (bodies W) (World.sweep this) [] s = (Normal [], s).
Proof.
  intros HW Hbodies Hb. rewrite Hbodies. cbn [World.forEachWith].
  unfold World.sweep. prims. rewrite HW, Hb.
  destruct (doCollisions W && solid b); [|reflexivity].
  rewrite HW, Hbodies. cbn [World.forEachWith].
  unfold World.sweepPair, bind, ret. by rewrite Nat.eqb_refl.
Qed.

(** X26: one [update()] of a world in edge mode None that holds one body,
    not static and in one of the four drawing modes.  A copy of the
    gravity vector is multiplied by the mass of the body and applied as a
    force, so that what is added to the acceleration is [cbOnApply] of a
    copy of that product divided by the mass; the multiplication leaves
    the vector as it is when the mass is not finite, and the division
    when the mass is 0 or not finite.  The velocity then grows by the
    acceleration and the position by the new velocity, each sum being
    taken on copies and stored as a copy, which has [x || 0] for [x]; the
    acceleration ends at (0, 0), and no call of [Body.collide] is
    made. *)
Theorem update_single_body `{Host}
    (s : State) (this r g : ref) (W : world) (b : body) (gv pv vv av : Vector) :
  worlds s !! this = Some W ->
  bodies W = [r] ->
  edgeMode W = EdgeMode.None ->
  G W = Some g ->
  vecs s !! g = Some gv ->
  objs s !! r = Some b ->
  static b = false ->
  _mode b <> DrawableBodyMode.Unknown ->
  vecs s !! _pos b = Some pv ->
  vecs s !! _vel b = Some vv ->
  vecs s !! _acc b = Some av ->
  let f := cbOnApply b (divided (copied (scaled (copied gv) (_mass b)))
                                (_mass b)) in
  let a' := copied (added (copied av) f) in
  let v' := copied (added (copied vv) a') in
  let p' := copied (added (copied pv) v') in
  exists s',
    World.update this s = (Normal tt, s')
    /\ accOf s' r = Some (createVector 0 0)
    /\ velOf s' r = Some v'
    /\ posOf s' r = Some p'
    /\ collided s' = collided s.
Proof.
  intros HW Hbodies Hedge HG Hg Hb Hs Hmode Hp Hv Ha f a' v' p'.
  destruct (integrate_run s this r g W b gv pv vv av)
    as (s1 & Hrun & Hacc & Hvel & Hpos & Hworlds & Hlog); try done.
  unfold World.update.
  unfold bind at 1. unfold getWorld at 1. rewrite HW, Hbodies, Hedge.
  cbn [forEach]. unfold bind at 1. unfold bind at 1. rewrite Hrun.
  unfold ret at 1. unfold bind at 1. unfold getWorld at 1.
  rewrite Hworlds, HW.
  assert (exists b1, objs s1 !! r = Some b1) as [b1 Hb1].
  { unfold accOf in Hacc. destruct (objs s1 !! r) as [b1|]; [eauto|done]. }
  unfold bind at 1. rewrite (sweep_single s1 this r W b1) by congruence.
  exists s1. done.
Qed.

Lemma update_single_body_witness :
  exists s',
    @World.update rectangles 0 falling = (Normal tt, s')
    /\ accOf s' 0 = Some (createVector 0 0)
    /\ velOf s' 0 = Some (createVector 3 (4 + (0 + 0.1 * 2 / 2)))
    /\ collided s' = collided falling.
Proof.
  pose proof (fun b =>
    @update_single_body rectangles falling 0 0 0
      (mkWorld 0 0 400 400 [0%nat] (Some 0%nat) EdgeMode.None true false)
      b (createVector 0 0.1) (createVector 1 2) (createVector 3 4)
      (createVector 0 0)) as H.
  edestruct H as (s' & Hrun & Hacc & Hvel & _ & Hlog);
    [first [vm_compute; reflexivity | vm_compute; discriminate] ..|].
  exists s'. split; [exact Hrun|]. split; [exact Hacc|].
  split; [|exact Hlog].
  rewrite Hvel. vm_compute. reflexivity.
Defined.
